(** * couchapp/generator.py: scaffolding of CouchApp directories

    A shallow embedding of [couchapp/generator.py] (Python 2) together with
    the parts of the Python standard library it calls ([os.path] in its POSIX
    flavour, [os.makedirs], [os.listdir], [shutil.copy2], [shutil.copytree])
    over an explicit model of the file system, and the properties of the
    template resolver, the merge copier and the scaffold generator. *)

From Stdlib Require Import Ascii.
From stdpp Require Import gmap strings list fin_maps.

Open Scope string_scope.
Open Scope list_scope.

(** ** Python strings *)

Module Str.

Definition slash : ascii := "/"%char.

(** The double quote, which the messages of the module contain. *)
Definition dq : string := String (ascii_of_nat 34) "".

Definition is_slash (c : ascii) : bool := Ascii.eqb c slash.

(** [s.startswith('/')] *)
Definition startswith_slash (s : string) : bool :=
  match s with
  | String c _ => is_slash c
  | EmptyString => false
  end.

(** [s.endswith('/')] *)
Fixpoint endswith_slash (s : string) : bool :=
  match s with
  | EmptyString => false
  | String c EmptyString => is_slash c
  | String _ s' => endswith_slash s'
  end.

(** ['/' in s] *)
Fixpoint has_slash (s : string) : bool :=
  match s with
  | EmptyString => false
  | String c s' => is_slash c || has_slash s'
  end.

(** [s.split('/')]: never empty, [''.split('/') == ['']]. *)
Fixpoint split_slash (s : string) : list string :=
  match s with
  | EmptyString => [EmptyString]
  | String c s' =>
      if is_slash c then EmptyString :: split_slash s'
      else match split_slash s' with
           | h :: t => String c h :: t
           | [] => [String c EmptyString]
           end
  end.

(** [s.rstrip('/')] *)
Fixpoint rstrip_slash (s : string) : string :=
  match s with
  | EmptyString => EmptyString
  | String c s' =>
      match rstrip_slash s' with
      | EmptyString => if is_slash c then EmptyString else String c EmptyString
      | r => String c r
      end
  end.

(** ['/'.join(l)] *)
Fixpoint join_slash (l : list string) : string :=
  match l with
  | [] => ""
  | [x] => x
  | x :: l' => x +:+ "/" +:+ join_slash l'
  end.

(** [bool(s)] for a string. *)
Definition truthy (s : string) : bool :=
  match s with EmptyString => false | _ => true end.

End Str.

(** ** [posixpath] *)

Module PosixPath.
Import Str.

(** One round of the loop of [posixpath.join]. *)
Definition join_step (path b : string) : string :=
  if startswith_slash b then b
  else if negb (truthy path) || endswith_slash path then path +:+ b
  else path +:+ "/" +:+ b.

(** [os.path.join(a, *p)] *)
Definition join (a : string) (p : list string) : string :=
  fold_left join_step p a.

(** [os.path.join] applied to an unpacked list, which may be empty here; Python raises
    [TypeError] for the empty argument list, which [str.split] never
    produces. *)
Definition join_star (l : list string) : string :=
  match l with
  | [] => ""
  | a :: p => join a p
  end.

(** [(p[:i], p[i:])] with [i = p.rfind('/') + 1]. *)
Fixpoint split_last (s : string) : string * string :=
  match s with
  | EmptyString => (EmptyString, EmptyString)
  | String c s' =>
      let '(h, t) := split_last s' in
      match h with
      | EmptyString =>
          if is_slash c then (String c EmptyString, t)
          else (EmptyString, String c t)
      | _ => (String c h, t)
      end
  end.

(** [os.path.split(p)] *)
Definition split (p : string) : string * string :=
  let '(head, tail) := split_last p in
  match rstrip_slash head with
  | EmptyString => (head, tail)
  | h => (h, tail)
  end.

Definition dirname (p : string) : string := fst (split p).
Definition basename (p : string) : string := snd (split_last p).

(** The body of the loop of [posixpath.normpath]. *)
Definition normpath_step (initial_slashes : nat) (new_comps : list string)
    (comp : string) : list string :=
  if bool_decide (comp = "" ∨ comp = ".") then new_comps
  else if bool_decide (comp ≠ "..")
          || (bool_decide (initial_slashes = 0) && bool_decide (new_comps = []))
          || bool_decide (last new_comps = Some "..")
       then new_comps ++ [comp]
       else removelast new_comps.

Definition initial_slashes (path : string) : nat :=
  match path with
  | String a (String b (String c _)) =>
      if is_slash a then
        if is_slash b && negb (is_slash c) then 2 else 1
      else 0
  | String a (String b EmptyString) =>
      if is_slash a then if is_slash b then 2 else 1 else 0
  | String a EmptyString => if is_slash a then 1 else 0
  | EmptyString => 0
  end.

(** [os.path.normpath(path)] *)
Definition normpath (path : string) : string :=
  match path with
  | EmptyString => "."
  | _ =>
      let n := initial_slashes path in
      let comps := fold_left (normpath_step n) (split_slash path) [] in
      let p := join_slash comps in
      let p := match n with
               | 0 => p
               | 1 => "/" +:+ p
               | _ => "//" +:+ p
               end in
      match p with EmptyString => "." | _ => p end
  end.

End PosixPath.

Module PosixPathTests.
Import PosixPath.

Example join_plain : join "/a" ["templates"; "x"; "app"] = "/a/templates/x/app".
Proof. reflexivity. Qed.
Example join_empty_parts : join "/a" ["templates"; ""; ""] = "/a/templates/".
Proof. reflexivity. Qed.
Example join_absolute : join "/a" ["templates"; "/etc"; "app"] = "/etc/app".
Proof. reflexivity. Qed.
Example join_star_split : join_star (Str.split_slash "/abs/x") = "abs/x".
Proof. reflexivity. Qed.
Example normpath_dotdot : normpath "/usr/lib/couchapp/.." = "/usr/lib".
Proof. reflexivity. Qed.
Example normpath_rel : normpath "a/./b//../../../c/" = "../c".
Proof. reflexivity. Qed.
Example normpath_two : normpath "//a/.." = "//".
Proof. reflexivity. Qed.
Example split_ex : split "/home/u/app" = ("/home/u", "app").
Proof. reflexivity. Qed.
Example split_trailing : split "/home/u/app/" = ("/home/u/app", "").
Proof. reflexivity. Qed.
Example dirname_file : dirname "/usr/lib/couchapp/generator.py" = "/usr/lib/couchapp".
Proof. reflexivity. Qed.
Example split_root : split "/x" = ("/", "x").
Proof. reflexivity. Qed.
End PosixPathTests.

(** ** The file system

    A file system is a finite map from absolute paths, as lists of
    components below the root, to nodes.  Regular files carry their content
    and the part of [os.stat] that [shutil.copystat] transfers; the metadata
    of directories is not modelled, and there are no symbolic or hard links,
    so that two paths name the same file exactly when their keys are equal.
    The files are taken to belong to the user who runs the process: opening
    one consults the owner's read or write bit of its mode, unless the user
    is root; groups, other owners and the permissions of directories are
    not modelled. *)

Record meta := Meta { st_mode : nat; st_mtime : nat }.

Inductive node :=
| File (data : string) (m : meta)
| Dir.

Global Instance meta_eq_dec : EqDecision meta.
Proof. solve_decision. Defined.
Global Instance node_eq_dec : EqDecision node.
Proof. solve_decision. Defined.

Abbreviation key := (list string).
Abbreviation fsmap := (gmap (list string) node).

Module Fs.
Import Str.

(** How the kernel walks one component of a path.  [..] is resolved
    lexically, which is what the kernel does when every component before
    it is a directory, there being no links; a path that steps back out of
    a name that is missing, or is a file, resolves here where the kernel
    refuses it. *)
Definition walk_step (k : key) (c : string) : key :=
  if bool_decide (c = "" ∨ c = ".") then k
  else if bool_decide (c = "..") then removelast k
  else k ++ [c].

(** The key a path string names, from the working directory [cwd]; the
    empty path names nothing ([ENOENT]). *)
Definition resolve (cwd : key) (p : string) : option key :=
  match p with
  | EmptyString => None
  | _ => Some (fold_left walk_step (split_slash p)
                 (if startswith_slash p then [] else cwd))
  end.

Fixpoint strip_prefix (d k : key) : option key :=
  match d, k with
  | [], _ => Some k
  | x :: d', y :: k' => if bool_decide (x = y) then strip_prefix d' k' else None
  | _ :: _, [] => None
  end.

(** A name that can be a directory entry. *)
Definition plain (c : string) : bool :=
  negb (has_slash c) && bool_decide (c ≠ "") && bool_decide (c ≠ ".")
  && bool_decide (c ≠ "..").

(** The name under which [k] is a direct entry of directory [d]. *)
Definition child_name (d k : key) : option string :=
  match strip_prefix d k with
  | Some [c] => if plain c then Some c else None
  | _ => None
  end.

(** The names of the direct entries of [d]; as for [os.listdir] the order
    is that of the underlying store. *)
Definition children (fs : fsmap) (d : key) : list string :=
  omap (λ kv, child_name d kv.1) (map_to_list fs).

Definition is_dir (fs : fsmap) (k : key) : bool :=
  match fs !! k with Some Dir => true | _ => false end.

Definition is_file (fs : fsmap) (k : key) : bool :=
  match fs !! k with Some (File _ _) => true | _ => false end.

(** Well-formed file systems: the root is a directory, every entry lies in
    a directory, and every component is a plain name. *)
Definition wf_entry (fs : fsmap) (k : key) : bool :=
  match k with
  | [] => is_dir fs []
  | _ => is_dir fs (removelast k) && forallb plain k
  end.

Definition wf (fs : fsmap) : Prop :=
  is_dir fs [] = true ∧ ∀ k n, fs !! k = Some n → wf_entry fs k = true.

Definition wfb (fs : fsmap) : bool :=
  is_dir fs [] && forallb (λ kv, wf_entry fs kv.1) (map_to_list fs).

(** The file system after creating the entries [names] of [d]. *)
Definition with_dirs (fs : fsmap) (d : key) (names : list string) : fsmap :=
  fold_left (λ fs n, <[d ++ [n] := Dir]> fs) names fs.

(** Every key on the way from [pre] down to [pre ++ rest] is a
    directory. *)
Fixpoint dirs_below (fs : fsmap) (pre : key) (rest : list string) : Prop :=
  match rest with
  | [] => True
  | c :: rest' => fs !! (pre ++ [c]) = Some Dir ∧ dirs_below fs (pre ++ [c]) rest'
  end.

End Fs.

(** ** Exceptions, the world, and the monad of the embedding *)

Inductive errno := ENOENT | EEXIST | ENOTDIR | EISDIR | EACCES.

(** The exceptions that can arise.  [OSError] and [IOError] carry the error
    number of a failed system call and the path, or no number and the message
    when the code builds them itself; [ShutilError] is [shutil.Error] with
    its list of [(source, destination, reason)]. *)
Inductive exn :=
| AppError (msg : string)
| OSError (e : option errno) (msg : string)
| IOError (e : option errno) (msg : string)
| ShutilError (errors : list (string * string * string))
| NameError (name : string)
| TypeError (msg : string)
| AttributeError (msg : string)
| RuntimeError (msg : string).

Inductive level := DEBUG | INFO | WARNING.

Record world := World {
  w_fs : fsmap;
  w_log : list (level * string);
}.

Inductive res (A : Type) :=
| Ok (a : A)
| Raise (e : exn).
Arguments Ok {A} a.
Arguments Raise {A} e.

Definition M (A : Type) : Type := world → res A * world.

Definition ret {A} (a : A) : M A := λ w, (Ok a, w).
Definition raise {A} (e : exn) : M A := λ w, (Raise e, w).
Definition bind {A B} (m : M A) (k : A → M B) : M B :=
  λ w, match m w with
       | (Ok a, w') => k a w'
       | (Raise e, w') => (Raise e, w')
       end.

Declare Scope M_scope.
Delimit Scope M_scope with M.
Bind Scope M_scope with M.
Notation "x <- m ;; k" := (bind m (λ x, k))
  (at level 20, m at level 99, k at level 200, only parsing) : M_scope.
Notation "m ;; k" := (bind m (λ _, k))
  (at level 100, k at level 200, only parsing, right associativity) : M_scope.
Open Scope M_scope.

(** [try: m except: h] for a handler that picks the exceptions it catches:
    [h e = None] lets [e] through. *)
Definition try_except {A} (m : M A) (h : exn → option (M A)) : M A :=
  λ w, match m w with
       | (Ok a, w') => (Ok a, w')
       | (Raise e, w') =>
           match h e with
           | Some m' => m' w'
           | None => (Raise e, w')
           end
       end.

(** [for x in l: body x] *)
Fixpoint for_each {A} (l : list A) (body : A → M unit) : M unit :=
  match l with
  | [] => ret tt
  | x :: l' => body x ;; for_each l' body
  end.

Definition get_fs : M fsmap := λ w, (Ok (w_fs w), w).
Definition put_fs (fs : fsmap) : M unit :=
  λ w, (Ok tt, {| w_fs := fs; w_log := w_log w |}).
Definition logger (l : level) (msg : string) : M unit :=
  λ w, (Ok tt, {| w_fs := w_fs w; w_log := w_log w ++ [(l, msg)] |}).

Definition add_log (w : world) (e : level * string) : world :=
  {| w_fs := w_fs w; w_log := w_log w ++ [e] |}.

Definition is_ok {A} (r : res A * world) : bool :=
  match r.1 with Ok _ => true | Raise _ => false end.

(** ** The environment of a run

    What the module reads from the interpreter and the platform, and the
    helpers of [couchapp.util] that only report about the platform
    ([is_py2exe], [is_windows], [user_path]), as the values they return. *)
Record Env := {
  os_name : string;          (* os.name *)
  sys_platform : string;     (* sys.platform *)
  sys_executable : string;   (* sys.executable *)
  sys_prefix : string;       (* sys.prefix *)
  module_file : string;      (* __file__ of couchapp/generator.py *)
  is_py2exe : bool;          (* couchapp.util.is_py2exe() *)
  is_windows : bool;         (* couchapp.util.is_windows() *)
  user_path : list string;   (* couchapp.util.user_path() *)
  darwin_support : string;   (* os.path.expanduser of the Application Support directory *)
  cwd : key;                 (* the working directory of the process *)
  now : nat;                 (* the clock, for the modification time of written files *)
  is_root : bool;            (* os.geteuid() == 0 *)
}.

(** The names bound in the global namespace of the module once it is
    imported: by its import statements (lines 6 to 17), its assignments and
    its function definitions.  [from shutil import copy2, copytree] binds
    the two functions and not the module [shutil]. *)
Definition module_globals : list string :=
  [ "with_statement"; "logging"; "os"; "sys"; "copy2"; "copytree";
    "localdoc"; "AppError"; "is_py2exe"; "is_windows"; "relpath";
    "setup_dir"; "user_path"; "setup_dirs"; "__all__"; "logger";
    "DEFAULT_APP_TREE"; "TEMPLATE_TYPES"; "init_basic"; "init_template";
    "generate_function"; "copy_helper"; "find_template_dir"; "generate";
    "save_id" ].

(** Looking up a global name: [NameError] when the module does not bind it
    (none of the names looked up here is a builtin). *)
Definition load_global (name : string) : M unit :=
  if bool_decide (name ∈ module_globals) then ret tt
  else raise (NameError name).

(** The file mode of a file created by [open] (0644). *)
Definition default_mode : nat := 420.

(** The recursion limit of the interpreter ([sys.getrecursionlimit()]). *)
Definition recursion_limit : nat := 1000.

Section Os.
Variable env : Env.
Import Str PosixPath Fs.

Definition lookup_path (fs : fsmap) (p : string) : option node :=
  match resolve (cwd env) p with
  | Some k => fs !! k
  | None => None
  end.

(** [os.path.exists(p)] *)
Definition os_path_exists (p : string) : M bool :=
  fs <- get_fs ;;
  ret (match lookup_path fs p with Some _ => true | None => false end).

(** [os.path.isdir(p)] for a string [p] *)
Definition os_path_isdir (p : string) : M bool :=
  fs <- get_fs ;;
  ret (match lookup_path fs p with Some Dir => true | _ => false end).

(** [os.path.isdir(p)] for a value that may be [None]: [os.stat(None)]
    raises [TypeError], which [isdir] does not catch. *)
Definition os_path_isdir_value (p : option string) : M bool :=
  match p with
  | Some s => os_path_isdir s
  | None => raise (TypeError "coercing to Unicode: need string or buffer, NoneType found")
  end.

(** [os.listdir(p)] *)
Definition os_listdir (p : string) : M (list string) :=
  fs <- get_fs ;;
  match resolve (cwd env) p with
  | None => raise (OSError (Some ENOENT) p)
  | Some k =>
      match fs !! k with
      | Some Dir => ret (children fs k)
      | Some (File _ _) => raise (OSError (Some ENOTDIR) p)
      | None => raise (OSError (Some ENOENT) p)
      end
  end.

(** Creating the missing directories among [pre ++ [c1]],
    [pre ++ [c1; c2]], ... from the top. *)
Fixpoint ensure_dirs (pre : key) (rest : list string) (fs : fsmap)
    : errno + fsmap :=
  match rest with
  | [] => inr fs
  | c :: rest' =>
      let k := pre ++ [c] in
      match fs !! k with
      | Some Dir => ensure_dirs k rest' fs
      | Some (File _ _) => inl ENOTDIR
      | None => ensure_dirs k rest' (<[k := Dir]> fs)
      end
  end.

(** [os.makedirs] on a key: the leaf must not exist; the missing
    ancestors are created, then the leaf. *)
Definition makedirs_key (k : key) (fs : fsmap) : errno + fsmap :=
  match fs !! k with
  | Some _ => inl EEXIST
  | None =>
      match ensure_dirs [] (removelast k) fs with
      | inl e => inl e
      | inr fs' => inr (<[k := Dir]> fs')
      end
  end.

(** [os.makedirs(p)] *)
Definition os_makedirs (p : string) : M unit :=
  fs <- get_fs ;;
  match resolve (cwd env) p with
  | None => raise (OSError (Some ENOENT) p)
  | Some k =>
      match makedirs_key k fs with
      | inl e => raise (OSError (Some e) p)
      | inr fs' => put_fs fs'
      end
  end.

(** Whether the user may open a file of these metadata for reading, for
    writing: the owner's bits 0400 and 0200 of the mode, which root does
    not need. *)
Definition may_read (m : meta) : bool :=
  is_root env || Nat.testbit (st_mode m) 8.

Definition may_write (m : meta) : bool :=
  is_root env || Nat.testbit (st_mode m) 7.

(** [open(p, 'rb').read()] *)
Definition read_file (p : string) : M (string * meta) :=
  fs <- get_fs ;;
  match resolve (cwd env) p with
  | None => raise (IOError (Some ENOENT) p)
  | Some k =>
      match fs !! k with
      | Some (File d m) =>
          if may_read m then ret (d, m)
          else raise (IOError (Some EACCES) p)
      | Some Dir => raise (IOError (Some EISDIR) p)
      | None => raise (IOError (Some ENOENT) p)
      end
  end.

(** [open(p, 'wb').write(data)]: the file is created, or truncated if the
    user may write to it; its directory must exist. *)
Definition write_file (p : string) (data : string) : M unit :=
  fs <- get_fs ;;
  match resolve (cwd env) p with
  | None => raise (IOError (Some ENOENT) p)
  | Some k =>
      match fs !! k with
      | Some Dir => raise (IOError (Some EISDIR) p)
      | Some (File _ m) =>
          if may_write m
          then put_fs (<[k := File data (Meta (st_mode m) (now env))]> fs)
          else raise (IOError (Some EACCES) p)
      | None =>
          match k with
          | [] => raise (IOError (Some EISDIR) p)
          | _ =>
              match fs !! removelast k with
              | Some Dir =>
                  put_fs (<[k := File data (Meta default_mode (now env))]> fs)
              | Some (File _ _) => raise (IOError (Some ENOTDIR) p)
              | None => raise (IOError (Some ENOENT) p)
              end
          end
      end
  end.

(** [shutil._samefile(src, dst)]: both exist and are one file. *)
Definition samefile (fs : fsmap) (src dst : string) : bool :=
  match resolve (cwd env) src, resolve (cwd env) dst with
  | Some a, Some b =>
      bool_decide (a = b) &&
      match fs !! a with Some _ => true | None => false end
  | _, _ => false
  end.

(** [shutil.copyfile(src, dst)] *)
Definition copyfile (src dst : string) : M unit :=
  fs <- get_fs ;;
  if samefile fs src dst
  then raise (ShutilError [(src, dst, "are the same file")])
  else
    f <- read_file src ;;
    write_file dst f.1.

(** [shutil.copystat(src, dst)]: the mode and the times of [src] are set
    on [dst] (nothing is recorded for directories). *)
Definition copystat (src dst : string) : M unit :=
  fs <- get_fs ;;
  match resolve (cwd env) src, resolve (cwd env) dst with
  | Some a, Some b =>
      match fs !! a, fs !! b with
      | Some (File _ m), Some (File d _) => put_fs (<[b := File d m]> fs)
      | Some _, Some _ => ret tt
      | None, _ => raise (OSError (Some ENOENT) src)
      | _, None => raise (OSError (Some ENOENT) dst)
      end
  | None, _ => raise (OSError (Some ENOENT) src)
  | _, None => raise (OSError (Some ENOENT) dst)
  end.

(** [shutil.copy2(src, dst)] *)
Definition copy2 (src dst : string) : M unit :=
  b <- os_path_isdir dst ;;
  let dst := if b then join dst [basename src] else dst in
  copyfile src dst ;;
  copystat src dst.

(** The handler of the [try] in the loop of [shutil.copytree]: a
    [shutil.Error] extends the list of errors, another
    [EnvironmentError] is appended to it, anything else propagates. *)
Definition copytree_handler (srcname dstname : string)
    (errors : list (string * string * string)) (e : exn)
    : option (M (list (string * string * string))) :=
  match e with
  | ShutilError errs => Some (ret (errors ++ errs))
  | OSError _ why | IOError _ why => Some (ret (errors ++ [(srcname, dstname, why)]))
  | _ => None
  end.

(** The loop of [shutil.copytree] over the names of the source, given the
    function for the recursive call. *)
Fixpoint copytree_loop (rec : string → string → M unit) (src dst : string)
    (names : list string) (errors : list (string * string * string))
    : M (list (string * string * string)) :=
  match names with
  | [] => ret errors
  | name :: names' =>
      let srcname := join src [name] in
      let dstname := join dst [name] in
      errors' <- try_except
        (b <- os_path_isdir srcname ;;
         (if b then rec srcname dstname else copy2 srcname dstname) ;;
         ret errors)
        (copytree_handler srcname dstname errors) ;;
      copytree_loop rec src dst names' errors'
  end.

(** [shutil.copytree(src, dst)], with the depth the interpreter still
    allows. *)
Fixpoint copytree_depth (depth : nat) (src dst : string) : M unit :=
  match depth with
  | O => raise (RuntimeError "maximum recursion depth exceeded")
  | S depth' =>
      names <- os_listdir src ;;
      os_makedirs dst ;;
      errors <- copytree_loop (copytree_depth depth') src dst names [] ;;
      errors <- try_except (copystat src dst ;; ret errors)
        (λ e, match e with
              | OSError _ why => Some (ret (errors ++ [(src, dst, why)]))
              | _ => None
              end) ;;
      match errors with
      | [] => ret tt
      | _ => raise (ShutilError errors)
      end
  end.

Definition copytree (src dst : string) : M unit :=
  copytree_depth recursion_limit src dst.

End Os.

(** ** couchapp/generator.py *)

Definition DEFAULT_APP_TREE : list string :=
  ["_attachments"; "filters"; "lists"; "shows"; "updates"; "views"].

Definition TEMPLATE_TYPES : list string := ["app"; "functions"; "vendor"].

Definition func_list : list string :=
  ["view"; "list"; "show"; "filter"; "function"; "vendor"; "update"; "spatial"].

Section Generator.
Variable env : Env.
Import Str PosixPath Fs.

(** Modelled from the spec: [couchapp.util.setup_dir] is imported by the
    module and is not under src/.  The spec has it as
    [ensure_dir(path, require_empty)] of the path utilities (existence and
    emptiness checks, recursive directory creation): a directory that is
    present is used as it is, unless it must be empty and is not; a
    directory that is absent is created; anything else at the path is a
    directory-state error. *)
Definition setup_dir (path : string) (require_empty : bool) : M unit :=
  fs <- get_fs ;;
  match resolve (cwd env) path with
  | None => os_makedirs env path
  | Some k =>
      match fs !! k with
      | Some Dir =>
          if require_empty && negb (bool_decide (children fs k = []))
          then raise (AppError ("dir '" +:+ path +:+ "' is not empty"))
          else ret tt
      | Some (File _ _) => raise (AppError ("'" +:+ path +:+ "': File exists"))
      | None => os_makedirs env path
      end
  end.

(** Modelled from the spec: [couchapp.util.setup_dirs], not under src/;
    the spec's [ensure_dirs(paths)] is [ensure_dir] on each path in turn,
    requiring emptiness unless told otherwise. *)
Definition setup_dirs (paths : list string) (require_empty : bool) : M unit :=
  for_each paths (λ p, setup_dir p require_empty).

(** [save_id(app_path, name)] (lines 317 to 326) *)
Definition save_id (app_path name : string) : M unit :=
  write_file env (join app_path ["_id"]) name.

(** The loop of [find_template_dir] over the search paths (lines 284 to
    291). *)
Fixpoint find_first (tmpl_name tmpl_type : string) (paths : list string)
    : M (option string) :=
  match paths with
  | [] => ret None
  | path :: rest =>
      let path := normpath path in
      let path := join path ["templates"; tmpl_name; tmpl_type] in
      b <- os_path_isdir env path ;;
      if b then
        logger DEBUG ("template path match: " +:+ dq +:+ path +:+ dq) ;;
        ret (Some path)
      else
        logger DEBUG ("template search path: " +:+ dq +:+ path +:+ dq +:+ " not found") ;;
        find_first tmpl_name tmpl_type rest
  end.

(** The list [search_paths] built by [find_template_dir] (lines 258 to
    281). *)
Definition search_paths : list string :=
  let modpath := dirname (module_file env) in
  let search_paths := user_path env ++ [modpath; join modpath [".."]] in
  let search_paths :=
    if bool_decide (os_name env = "posix") then
      search_paths ++ ["/usr/share/couchapp"; "/usr/local/share/couchapp";
                       "/opt/couchapp"]
    else if is_py2exe env then
      search_paths ++ [dirname (sys_executable env)]
    else if is_windows env then
      search_paths ++ [join (sys_prefix env) ["Lib"; "site-packages"; "couchapp"]]
    else search_paths in
  if String.prefix "darwin" (sys_platform env)
  then search_paths ++ [darwin_support env]
  else search_paths.

(** [find_template_dir(tmpl_name, tmpl_type, raise_error)] (lines 211 to
    298); the defaults of the arguments are ['default'], [''] and
    [False]. *)
Definition find_template_dir (tmpl_name tmpl_type : string)
    (raise_error : bool) : M (option string) :=
  if truthy tmpl_type && negb (bool_decide (tmpl_type ∈ TEMPLATE_TYPES)) then
    raise (AppError ("invalid template type " +:+ dq +:+ tmpl_type +:+ dq))
  else
    let tmpl_name := if bool_decide (tmpl_name = "default") then "" else tmpl_name in
    r <- find_first tmpl_name tmpl_type search_paths ;;
    match r with
    | Some path => ret (Some path)
    | None =>
        if raise_error then
          logger INFO ("please use " +:+ dq +:+ "-d" +:+ dq +:+ " to checkout search paths.") ;;
          raise (AppError ("template " +:+ dq +:+ tmpl_name +:+ "/" +:+ tmpl_type
                           +:+ dq +:+ " not found."))
        else ret None
    end.

(** The body of the loop of [copy_helper] (lines 202 to 208). *)
Definition copy_entry (src dest p : string) : M unit :=
  let _src := join src [p] in
  let _dest := join dest [p] in
  b <- os_path_isdir env _src ;;
  if b then copytree env _src _dest else copy2 env _src _dest.

(** [copy_helper(src, dest)] (lines 175 to 208); [src] is [None] when the
    caller passes the result of a failed lookup. *)
Definition copy_helper (src : option string) (dest : string) : M unit :=
  match src with
  | None => b <- os_path_isdir_value env None ;; ret tt
  | Some src =>
      b <- os_path_isdir_value env (Some src) ;;
      if negb b then
        raise (OSError None ("source " +:+ dq +:+ src +:+ dq +:+ " is not a directory"))
      else
        setup_dir dest false ;;
        names <- os_listdir env src ;;
        for_each names (copy_entry src dest)
  end.

(** [bool(template_dir)] for the result of [find_template_dir]. *)
Definition truthy_value (v : option string) : bool :=
  match v with Some s => truthy s | None => false end.

(** [shutil.copy2(root, target_path)] as line 167 writes it: through the
    global name [shutil]. *)
Definition shutil_copy2 (src dst : string) : M unit :=
  load_global "shutil" ;; copy2 env src dst.

(** The call [generate_vendor(path, name, template)] of line 313: the
    name is looked up among the globals first, and the module has no
    function of that name to run. *)
Definition generate_vendor (path name : string) (template : option string)
    : M unit :=
  load_global "generate_vendor" ;; raise (NameError "generate_vendor").

(** The body of the loop of [generate_function] (lines 162 to 170). *)
Definition copy_function (template_dir : string) (functions_path : list string)
    (path : string) (f : string * string) : M unit :=
  let '(template, target) := f in
  let target_path := join path [target] in
  let root_path := [template_dir] ++ functions_path ++ [template] in
  let root := join_star root_path in
  try_except (shutil_copy2 root target_path)
    (λ _, Some (logger WARNING
                  (template +:+ " not found in " +:+ join_star (removelast root_path)))).

(** [try: os.makedirs(p) except: pass] *)
Definition try_makedirs (p : string) : M unit :=
  try_except (os_makedirs env p) (λ _, Some (ret tt)).

(** [template.split('/')] for a value that may be [None]. *)
Definition split_value (template : option string) : M (list string) :=
  match template with
  | Some t => ret (split_slash t)
  | None => raise (AttributeError "'NoneType' object has no attribute 'split'")
  end.

(** [generate_function(path, kind, name, template)] (lines 125 to 172) *)
Definition generate_function (path kind name : string)
    (template : option string) : M unit :=
  let with_template := truthy_value template in
  let functions_path := if with_template then [] else ["functions"] in
  template_dir <-
    (if with_template then
       parts <- split_value template ;;
       find_template_dir (join_star parts) "" false
     else find_template_dir "default" "" false) ;;
  match template_dir with
  | Some template_dir_ =>
      if negb (truthy template_dir_) then
        raise (AppError "Defaults templates not found. Check your install.")
      else if bool_decide (kind = "vendor") then
        let app_dir := join path ["vendor"; name] in
        try_makedirs app_dir ;;
        parts <- split_value template ;;
        let targetpath := join_star parts in
        copy_helper (Some path) targetpath
      else
        plan <-
          (if bool_decide (kind = "view") then
             let path := join path [kind +:+ "s"; name] in
             b <- os_path_exists env path ;;
             if b then raise (AppError ("The view " +:+ name +:+ " already exists"))
             else ret (path, [("map.js", "map.js"); ("reduce.js", "reduce.js")])
           else if bool_decide (kind = "function") then
             ret (path, [(name +:+ ".js", name +:+ ".js")])
           else if bool_decide (kind = "spatial") then
             ret (join path ["spatial"], [("spatial.js", name +:+ ".js")])
           else
             ret (join path [kind +:+ "s"], [(kind +:+ ".js", name +:+ ".js")])) ;;
        let '(path, functions) := plan in
        try_makedirs path ;;
        for_each functions (copy_function template_dir_ functions_path path)
  | None => raise (AppError "Defaults templates not found. Check your install.")
  end.

(** The body of the loop of [generate_function] (lines 162 to 170) with
    the callee of line 167 as a parameter: [call root target_path] is the
    call [shutil.copy2(root, target_path)] under one binding of the name
    [shutil].  The module's own binding gives [copy_function]. *)
Definition copy_function_with (call : string → string → M unit)
    (template_dir : string) (functions_path : list string)
    (path : string) (f : string * string) : M unit :=
  let '(template, target) := f in
  let target_path := join path [target] in
  let root_path := [template_dir] ++ functions_path ++ [template] in
  let root := join_star root_path in
  try_except (call root target_path)
    (λ _, Some (logger WARNING
                  (template +:+ " not found in " +:+ join_star (removelast root_path)))).

(** [generate_function(path, kind, name, template)] (lines 125 to 172)
    with the callee of line 167 as a parameter; the module's own binding
    gives [generate_function]. *)
Definition generate_function_with (call : string → string → M unit)
    (path kind name : string) (template : option string) : M unit :=
  let with_template := truthy_value template in
  let functions_path := if with_template then [] else ["functions"] in
  template_dir <-
    (if with_template then
       parts <- split_value template ;;
       find_template_dir (join_star parts) "" false
     else find_template_dir "default" "" false) ;;
  match template_dir with
  | Some template_dir_ =>
      if negb (truthy template_dir_) then
        raise (AppError "Defaults templates not found. Check your install.")
      else if bool_decide (kind = "vendor") then
        let app_dir := join path ["vendor"; name] in
        try_makedirs app_dir ;;
        parts <- split_value template ;;
        let targetpath := join_star parts in
        copy_helper (Some path) targetpath
      else
        plan <-
          (if bool_decide (kind = "view") then
             let path := join path [kind +:+ "s"; name] in
             b <- os_path_exists env path ;;
             if b then raise (AppError ("The view " +:+ name +:+ " already exists"))
             else ret (path, [("map.js", "map.js"); ("reduce.js", "reduce.js")])
           else if bool_decide (kind = "function") then
             ret (path, [(name +:+ ".js", name +:+ ".js")])
           else if bool_decide (kind = "spatial") then
             ret (join path ["spatial"], [("spatial.js", name +:+ ".js")])
           else
             ret (join path [kind +:+ "s"], [(kind +:+ ".js", name +:+ ".js")])) ;;
        let '(path, functions) := plan in
        try_makedirs path ;;
        for_each functions (copy_function_with call template_dir_ functions_path path)
  | None => raise (AppError "Defaults templates not found. Check your install.")
  end.

(** [generate(path, kind, name, **opts)] (lines 301 to 314); [name] may be
    [None], and [template] is [opts.get('template')]. *)
Definition generate (path kind : string) (name template : option string)
    : M unit :=
  if negb (bool_decide (kind ∈ func_list)) then
    raise (AppError ("Can't generate '" +:+ kind +:+ "' in your couchapp. "
                     +:+ "generator is unknown."))
  else
    match name with
    | None =>
        raise (AppError ("Can't generate '" +:+ kind +:+ "' function, "
                         +:+ "name is missing"))
    | Some name =>
        if bool_decide (kind = "vendor") then generate_vendor path name template
        else generate_function path kind name template
    end.

(** The first part of [init_template] (lines 99 to 110): the check of
    the template name, the copy of the app template, the standard tree. *)
Definition init_template_app (path template : string) : M unit :=
  if bool_decide (template ∈ TEMPLATE_TYPES) then
    raise (AppError "template name connot be ('app', 'functions', 'vendor').")
  else
    let tmpl_name := if truthy template then normpath template else "" in
    src_dir <- find_template_dir tmpl_name "app" true ;;
    copy_helper src_dir path ;;
    setup_dirs (map (λ n, join path [n]) DEFAULT_APP_TREE) false.

Section Collaborator.
(** [localdoc.document(path, create=True)]: the manifest-document
    collaborator, opaque to the generator. *)
Variable localdoc_document : string → bool → M unit.

(** [init_basic(path)] (lines 39 to 58) *)
Definition init_basic (path : string) : M unit :=
  setup_dir path true ;;
  setup_dirs (map (λ n, join path [n]) DEFAULT_APP_TREE) true ;;
  save_id path ("_design/" +:+ (split path).2) ;;
  localdoc_document path true.

(** [init_template(path, template)] (lines 61 to 122); the default of
    [template] is ['default']. *)
Definition init_template (path template : string) : M unit :=
  if bool_decide (template ∈ TEMPLATE_TYPES) then
    raise (AppError "template name connot be ('app', 'functions', 'vendor').")
  else
    let tmpl_name := if truthy template then normpath template else "" in
    src_dir <- find_template_dir tmpl_name "app" true ;;
    copy_helper src_dir path ;;
    setup_dirs (map (λ n, join path [n]) DEFAULT_APP_TREE) false ;;
    src_dir <- find_template_dir tmpl_name "vendor" false ;;
    src_dir <-
      match src_dir with
      | None =>
          logger DEBUG ("vendor not found in template set " +:+ dq +:+ tmpl_name
                        +:+ dq +:+ ". fallback to default vendor.") ;;
          find_template_dir "default" "vendor" false
      | Some _ => ret src_dir
      end ;;
    let vendor_dir := join path ["vendor"] in
    copy_helper src_dir vendor_dir ;;
    save_id path ("_design/" +:+ (split path).2) ;;
    localdoc_document path true.

End Collaborator.

End Generator.

(** ** Vocabulary of the properties *)

Section Vocabulary.
Variable env : Env.
Import Str PosixPath Fs.

(** Whether the path names a directory, a file, anything. *)
Definition dir_at (fs : fsmap) (p : string) : bool :=
  match lookup_path env fs p with Some Dir => true | _ => false end.

Definition exists_at (fs : fsmap) (p : string) : bool :=
  match lookup_path env fs p with Some _ => true | None => false end.

(** The template name after line 255. *)
Definition norm_name (tmpl_name : string) : string :=
  if bool_decide (tmpl_name = "default") then "" else tmpl_name.

(** The path probed for one search root. *)
Definition probe_path (tmpl_name tmpl_type root : string) : string :=
  join (normpath root) ["templates"; norm_name tmpl_name; tmpl_type].

(** The two trace messages of the resolver. *)
Definition miss_msg (p : string) : level * string :=
  (DEBUG, "template search path: " +:+ dq +:+ p +:+ dq +:+ " not found").
Definition hit_msg (p : string) : level * string :=
  (DEBUG, "template path match: " +:+ dq +:+ p +:+ dq).

(** The order of the search roots: the user paths, the directory of the
    module, its parent, the roots of the platform, and last the root of
    macOS. *)
Definition search_order : Prop :=
  ∃ specific,
    search_paths env =
      user_path env
      ++ [dirname (module_file env); join (dirname (module_file env)) [".."]]
      ++ specific
      ++ (if String.prefix "darwin" (sys_platform env)
          then [darwin_support env] else [])
    ∧ (os_name env = "posix" →
       specific = ["/usr/share/couchapp"; "/usr/local/share/couchapp";
                   "/opt/couchapp"])
    ∧ (os_name env ≠ "posix" → is_py2exe env = true →
       specific = [dirname (sys_executable env)])
    ∧ (os_name env ≠ "posix" → is_py2exe env = false → is_windows env = true →
       specific = [join (sys_prefix env) ["Lib"; "site-packages"; "couchapp"]])
    ∧ (os_name env ≠ "posix" → is_py2exe env = false → is_windows env = false →
       specific = []).

(** What a lookup of [tmpl_name] and [tmpl_type] from world [w] may
    answer: the probe path of the first search root where that path is a
    directory, after one trace line for each root looked at and nothing
    for the roots behind it; or, when no root has it, [None] or the error
    that [raise_error] asks for.  The file system is not touched. *)
Definition first_match (tmpl_name tmpl_type : string) (raise_error : bool)
    (w : world) (r : res (option string) * world) : Prop :=
  let probe := probe_path tmpl_name tmpl_type in
  w_fs r.2 = w_fs w ∧
  match r.1 with
  | Ok (Some p) =>
      ∃ before root after,
        search_paths env = before ++ root :: after ∧
        p = probe root ∧
        dir_at (w_fs w) p = true ∧
        Forall (λ r', dir_at (w_fs w) (probe r') = false) before ∧
        w_log r.2 = w_log w ++ map (λ r', miss_msg (probe r')) before
                            ++ [hit_msg p]
  | Ok None =>
      raise_error = false ∧
      Forall (λ r', dir_at (w_fs w) (probe r') = false) (search_paths env)
  | Raise e =>
      raise_error = true ∧
      Forall (λ r', dir_at (w_fs w) (probe r') = false) (search_paths env) ∧
      e = AppError ("template " +:+ dq +:+ norm_name tmpl_name +:+ "/"
                    +:+ tmpl_type +:+ dq +:+ " not found.")
  end.

(** One attempt of [generate_function] to copy a skeleton file, with the
warning it logs when the attempt raises. *)
Definition copy_attempt (src dst warning : string) : M unit :=
try_except (shutil_copy2 env src dst) (λ _, Some (logger WARNING warning)).

(** The warnings in the trace, in order. *)
Definition warnings (w : world) : list string :=
omap (λ e, match e.1 with WARNING => Some e.2 | _ => None end) (w_log w).

(** No search root has the template. *)
Definition no_template (fs : fsmap) (tmpl_name tmpl_type : string) : Prop :=
  Forall (λ root, dir_at fs (probe_path tmpl_name tmpl_type root) = false)
         (search_paths env).

End Vocabulary.

(** ** The vocabulary of the merge copier *)

Section CopyVocabulary.
Import Fs.

(** Nothing that was a directory stops being one. *)
Definition dirs_kept (fs fs' : fsmap) : Prop :=
∀ k, is_dir fs k = true → is_dir fs' k = true.

(** Every key whose entry differs lies at or below [r]. *)
Definition changes_under (r : key) (fs fs' : fsmap) : Prop :=
∀ k, fs' !! k ≠ fs !! k → r `prefix_of` k.

(** Where [copy2] writes the entry [p] of the source for the destination
directory [kd]: into the directory of that name, if there is one. *)
Definition copy_target (fs : fsmap) (kd : key) (p : string) : key :=
if is_dir fs (kd ++ [p]) then kd ++ [p; p] else kd ++ [p].

(** The file [p] of [ks] has its copy, content and metadata, at its
target under [kd]. *)
Definition copied (fs : fsmap) (ks kd : key) (p : string) : Prop :=
ks ++ [p] ≠ copy_target fs kd p ∧
∃ d m, fs !! (ks ++ [p]) = Some (File d m) ∧
       fs !! copy_target fs kd p = Some (File d m).

(** The top-level subdirectories of [ks]. *)
Definition subdirs (fs : fsmap) (ks : key) : list string :=
filter (λ c, is_dir fs (ks ++ [c]) = true) (children fs ks).

(** A file that the user may not write to. *)
Definition read_only (env : Env) (fs : fsmap) (k : key) : bool :=
match fs !! k with
| Some (File _ m) => negb (may_write env m)
| _ => false
end.

(** The top-level entries of [ks] at which a second copy stops: the
subdirectories, and the files that the user may not write to, whose copies
carry their mode. *)
Definition blocking (env : Env) (fs : fsmap) (ks : key) : list string :=
filter (λ c, is_dir fs (ks ++ [c]) || read_only env fs (ks ++ [c]) = true)
  (children fs ks).
End CopyVocabulary.

(** ** The vocabulary of the generator and of the invariants *)

Section GeneratorVocabulary.
Variable env : Env.
Import Str PosixPath Fs.

(** The template name that [generate_function] looks up (lines 127 to
132): the joined components of the template when one is given, the
default otherwise. *)
Definition lookup_name (template : option string) : string :=
match template with
| Some t => if truthy t then join_star (split_slash t) else "default"
| None => "default"
end.

(** The names of the skeleton files that a kind asks for (lines 139 to
156). *)
Definition skeletons (kind name : string) : list string :=
if bool_decide (kind = "view") then ["map.js"; "reduce.js"]
else if bool_decide (kind = "function") then [name +:+ ".js"]
else if bool_decide (kind = "spatial") then ["spatial.js"]
else [kind +:+ ".js"].

(** Every entry is kept as it is, and what appears is a directory. *)
Definition only_dirs_added (fs fs' : fsmap) : Prop :=
(∀ k n, fs !! k = Some n → fs' !! k = Some n) ∧
(∀ k, fs !! k = None → is_Some (fs' !! k) → fs' !! k = Some Dir).

(** The path names a file that the user may not write to. *)
Definition denied_at (fs : fsmap) (p : string) : bool :=
match lookup_path env fs p with
| Some (File _ m) => negb (may_write env m)
| _ => false
end.

(** The world after the resolver has looked at every root in vain. *)
Definition probed (tmpl_name tmpl_type : string) (w : world) : world :=
World (w_fs w)
  (w_log w ++ map (λ root, miss_msg (probe_path tmpl_name tmpl_type root))
                  (search_paths env)).
End GeneratorVocabulary.

Section KindVocabulary.
Import Str PosixPath.
(** The kinds whose artifacts get a directory of the kind (lines 151 to
156). *)
Definition dir_kinds : list string :=
["list"; "show"; "filter"; "update"; "spatial"].

(** The directory of a kind below the app (lines 152 and 155). *)
Definition kind_dir (kind : string) : string :=
if bool_decide (kind = "spatial") then "spatial" else kind +:+ "s".
End KindVocabulary.

Section InvariantVocabulary.
Import Fs.

(** An operation keeps the file system well formed, whatever it answers. *)
Definition keeps_wf {A} (m : M A) : Prop :=
∀ w, wf (w_fs w) → wf (w_fs (m w).2).

(** The tree at [kd] in [fs'] is the tree at [ks] in [fs]. *)
Definition same_tree (fs fs' : fsmap) (ks kd : key) : Prop :=
∀ rel, fs' !! (kd ++ rel) = fs !! (ks ++ rel).
End InvariantVocabulary.

Section TreeVocabulary.
(** Neither key lies at or above the other. *)
Definition apart (ks kd : key) : Prop :=
¬ ks `prefix_of` kd ∧ ¬ kd `prefix_of` ks.
End TreeVocabulary.

(** ** A sample installation *)

Module Sample.
Import Fs.

Definition posix_env : Env := {|
  os_name := "posix";
  sys_platform := "linux2";
  sys_executable := "/usr/bin/python";
  sys_prefix := "/usr";
  module_file := "/usr/lib/python2.7/site-packages/couchapp/generator.py";
  is_py2exe := false;
  is_windows := false;
  user_path := ["/home/u/.couchapp"];
  darwin_support := "/home/u/Library/Application Support/Couchapp";
  cwd := ["home"; "u"];
  now := 100;
  is_root := false;
|}.

(** A file system from absolute paths. *)
Definition mkfs (l : list (string * node)) : fsmap :=
  list_to_map (map (λ pn, (default [] (resolve [] pn.1), pn.2)) l).

Definition installed : list (string * node) := [
  ("/", Dir); ("/home", Dir); ("/home/u", Dir);
  ("/usr", Dir); ("/usr/share", Dir); ("/usr/share/couchapp", Dir);
  ("/usr/share/couchapp/templates", Dir);
  ("/usr/share/couchapp/templates/app", Dir);
  ("/usr/share/couchapp/templates/app/README.md", File "readme" (Meta 420 7));
  ("/usr/share/couchapp/templates/app/_attachments", Dir);
  ("/usr/share/couchapp/templates/app/_attachments/index.html",
     File "<html></html>" (Meta 420 8));
  ("/usr/share/couchapp/templates/functions", Dir);
  ("/usr/share/couchapp/templates/functions/map.js",
     File "function(doc){}" (Meta 420 9));
  ("/usr/share/couchapp/templates/functions/reduce.js",
     File "function(keys, values){}" (Meta 420 10));
  ("/usr/share/couchapp/templates/functions/foo.js",
     File "function(){}" (Meta 420 11));
  ("/usr/share/couchapp/templates/vendor", Dir);
  ("/usr/share/couchapp/templates/vendor/couchapp", Dir);
  ("/usr/share/couchapp/templates/vendor/couchapp/metadata.json",
     File "{}" (Meta 420 12))
].

(** The same installation without any [vendor] template. *)
Definition installed_no_vendor : list (string * node) := [
  ("/", Dir); ("/home", Dir); ("/home/u", Dir);
  ("/usr", Dir); ("/usr/share", Dir); ("/usr/share/couchapp", Dir);
  ("/usr/share/couchapp/templates", Dir);
  ("/usr/share/couchapp/templates/app", Dir);
  ("/usr/share/couchapp/templates/app/README.md", File "readme" (Meta 420 7));
  ("/usr/share/couchapp/templates/functions", Dir);
  ("/usr/share/couchapp/templates/functions/map.js",
     File "function(doc){}" (Meta 420 9))
].

(** The installation with a template set [mytmpl], which holds a vendor
package, and an app that [init_basic] has made. *)
Definition installed_with_app : list (string * node) :=
installed ++ [
("/usr/share/couchapp/templates/mytmpl", Dir);
("/usr/share/couchapp/templates/mytmpl/jquery.js",
File "/* jquery */" (Meta 420 20));
("/usr/share/couchapp/templates/mytmpl/plugins", Dir);
("/usr/share/couchapp/templates/mytmpl/plugins/form.js",
File "/* form */" (Meta 420 21));
("/home/u/app", Dir);
("/home/u/app/_id", File "_design/app" (Meta 420 30));
("/home/u/app/views", Dir)
].

(** The same platform, run from the [templates] directory of the
installation. *)
Definition env_in_templates : Env := {|
os_name := "posix";
sys_platform := "linux2";
sys_executable := "/usr/bin/python";
sys_prefix := "/usr";
module_file := "/usr/lib/python2.7/site-packages/couchapp/generator.py";
is_py2exe := false;
is_windows := false;
user_path := ["/home/u/.couchapp"];
darwin_support := "/home/u/Library/Application Support/Couchapp";
cwd := ["usr"; "share"; "couchapp"; "templates"];
now := 100;
is_root := false;
|}.

(** The installation with a directory [/home/u/fn] that holds an older
[map.js]. *)
Definition installed_with_copy : list (string * node) :=
installed ++ [
("/home/u/fn", Dir);
("/home/u/fn/map.js", File "old" (Meta 384 1))
].

(** The installation with a directory that holds a file without the write
bit (mode 0444). *)
Definition installed_read_only : list (string * node) :=
installed ++ [
("/home/u/ro", Dir);
("/home/u/ro/LICENSE", File "MIT" (Meta 292 5))
].

(** The installation with two apps whose [_id] the user may not open
freely: one without the write bit (mode 0444), one without the read bit
(mode 0200). *)
Definition installed_locked_id : list (string * node) :=
installed ++ [
("/home/u/app", Dir);
("/home/u/app/_id", File "_design/app" (Meta 292 30));
("/home/u/drop", Dir);
("/home/u/drop/_id", File "_design/drop" (Meta 128 31))
].

(** A machine without any installation of the templates. *)
Definition bare : list (string * node) := [
("/", Dir); ("/home", Dir); ("/home/u", Dir)
].

(** The installation with an app that has the view [byDate]. *)
Definition installed_with_view : list (string * node) :=
installed_with_app ++ [
("/home/u/app/views/byDate", Dir);
("/home/u/app/views/byDate/map.js", File "function(doc){}" (Meta 420 40))
].

Definition fs0 : fsmap := mkfs installed.
Definition w_read_only : world := World (mkfs installed_read_only) [].
Definition w_locked_id : world := World (mkfs installed_locked_id) [].
Definition w_bare : world := World (mkfs bare) [].
Definition w_with_view : world := World (mkfs installed_with_view) [].
Definition fs_with_copy : fsmap := mkfs installed_with_copy.
Definition w_with_copy : world := World fs_with_copy [].
Definition fs_with_app : fsmap := mkfs installed_with_app.
Definition w_with_app : world := World fs_with_app [].
Definition fs_no_vendor : fsmap := mkfs installed_no_vendor.
Definition w_no_vendor : world := World fs_no_vendor [].
Definition w0 : world := World fs0 [].

(** Modelled from the spec: [couchapp.localdoc] is not under src/.  The
    spec has the manifest-document collaborator add the configuration of
    the app to the App Directory, and the docstring of [init_basic] names
    the two files a basic app contains besides its directories,
    [.couchapprc] and [.couchappignore]. *)
Definition document_rc (env : Env) (path : string) (create : bool) : M unit :=
  if create then
    write_file env (PosixPath.join path [".couchapprc"]) "{}" ;;
    write_file env (PosixPath.join path [".couchappignore"]) "[]"
  else ret tt.

(** A collaborator that leaves the world alone. *)
Definition document_nop (path : string) (create : bool) : M unit := ret tt.

End Sample.

(** * Properties *)

(** ** The monad *)

Lemma bind_ok {A B} (m : M A) (k : A → M B) w a w1 :
  m w = (Ok a, w1) → bind m k w = k a w1.
Proof. intros H. unfold bind. by rewrite H. Qed.

Lemma bind_raise {A B} (m : M A) (k : A → M B) w e w1 :
  m w = (Raise e, w1) → bind m k w = (Raise e, w1).
Proof. intros H. unfold bind. by rewrite H. Qed.

Lemma bind_inv_ok {A B} (m : M A) (k : A → M B) w b w' :
  bind m k w = (Ok b, w') →
  ∃ a w1, m w = (Ok a, w1) ∧ k a w1 = (Ok b, w').
Proof.
  unfold bind. destruct (m w) as [[a|e] w1]; intros H; [eauto | discriminate].
Qed.

Lemma for_each_app {A} (l1 l2 : list A) (body : A → M unit) w w1 :
  for_each l1 body w = (Ok tt, w1) →
  for_each (l1 ++ l2) body w = for_each l2 body w1.
Proof.
  revert w. induction l1 as [|x l1 IH]; intros w H; simpl in *.
  - by inversion H.
  - apply bind_inv_ok in H as (a & w2 & Hx & Hrest).
    rewrite (bind_ok _ _ _ _ _ Hx). by apply IH.
Qed.

(** ** Paths *)

Section Paths.
Import Str PosixPath Fs.

Lemma append_cons c s t : String c s +:+ t = String c (s +:+ t).
Proof. reflexivity. Qed.

Lemma append_nil_l t : "" +:+ t = t.
Proof. reflexivity. Qed.

Lemma append_nil_r s : s +:+ "" = s.
Proof. induction s; rewrite ?append_cons, ?append_nil_l; congruence. Qed.

Lemma append_assoc s1 s2 s3 : (s1 +:+ s2) +:+ s3 = s1 +:+ s2 +:+ s3.
Proof. induction s1; rewrite ?append_cons, ?append_nil_l; congruence. Qed.

Ltac str_simpl := rewrite ?append_cons, ?append_nil_l; simpl.

Lemma split_slash_nonempty s : split_slash s ≠ [].
Proof. destruct s as [|c s]; simpl; [done|]. destruct (is_slash c); [done|].
       by destruct (split_slash s). Qed.

Lemma split_slash_app a b :
  split_slash (a +:+ String "/" b) = split_slash a ++ split_slash b.
Proof.
  induction a as [|c a IH]; str_simpl.
  - done.
  - destruct (is_slash c); rewrite IH; [done|].
    pose proof (split_slash_nonempty a).
    by destruct (split_slash a).
Qed.

Lemma split_slash_plain c : has_slash c = false → split_slash c = [c].
Proof.
  induction c as [|x c IH]; simpl; [done|].
  intros [Hx Hc]%orb_false_iff. rewrite Hx. by rewrite IH.
Qed.

Lemma endswith_slash_inv d :
  endswith_slash d = true → ∃ d', d = d' +:+ "/".
Proof.
  induction d as [|c d IH]; [done|]. simpl.
  destruct d as [|c' d].
  - intros Hc. exists "". str_simpl. f_equal.
    unfold is_slash in Hc. by apply Ascii.eqb_eq in Hc.
  - intros [d' Hd']%IH. exists (String c d'). str_simpl. by rewrite Hd'.
Qed.

Lemma startswith_slash_app d x :
  d ≠ "" → startswith_slash (d +:+ x) = startswith_slash d.
Proof. by destruct d. Qed.

Lemma plain_no_slash c : plain c = true → has_slash c = false.
Proof.
  unfold plain. rewrite !andb_true_iff, negb_true_iff. tauto.
Qed.

Lemma plain_walk k c : plain c = true → walk_step k c = k ++ [c].
Proof.
  unfold plain, walk_step.
  rewrite !andb_true_iff, !bool_decide_eq_true.
  intros [[[_ Hne] Hdot] Hdotdot].
  rewrite bool_decide_false by (intros [?|?]; done).
  by rewrite bool_decide_false.
Qed.

Lemma plain_startswith c : plain c = true → startswith_slash c = false.
Proof.
  intros H%plain_no_slash. destruct c as [|x c]; [done|]. simpl in *.
  by apply orb_false_iff in H as [? _].
Qed.

Lemma resolve_eq cwd x :
  x ≠ "" →
  resolve cwd x = Some (fold_left walk_step (split_slash x)
                          (if startswith_slash x then [] else cwd)).
Proof. by destruct x. Qed.

Lemma walk_empty k : walk_step k "" = k.
Proof. reflexivity. Qed.

(** The path of an entry of a directory names the key of the directory
    extended by the name. *)
Lemma resolve_join cwd d c k :
  resolve cwd d = Some k → plain c = true →
  resolve cwd (join d [c]) = Some (k ++ [c]).
Proof.
  intros Hd Hc. unfold join. simpl. unfold join_step.
  rewrite (plain_startswith _ Hc).
  assert (d ≠ "") as Hne by (by destruct d).
  assert (truthy d = true) as -> by (by destruct d).
  simpl.
  rewrite resolve_eq in Hd by done. injection Hd as <-.
  destruct (endswith_slash d) eqn:Hend.
  - apply endswith_slash_inv in Hend as [d' ->].
    rewrite resolve_eq by (destruct d'; done).
    rewrite append_assoc. str_simpl.
    rewrite (split_slash_app d' c), (split_slash_app d' "").
    rewrite (split_slash_plain c) by by apply plain_no_slash.
    rewrite !fold_left_app. simpl.
    rewrite (plain_walk _ _ Hc), walk_empty. f_equal.
    by destruct d'.
  - rewrite resolve_eq by (destruct d; done).
    change ("/" +:+ c) with (String "/" c).
    rewrite (split_slash_app d c).
    rewrite (split_slash_plain c) by by apply plain_no_slash.
    rewrite fold_left_app. simpl.
    rewrite (plain_walk _ _ Hc). f_equal.
    by rewrite startswith_slash_app.
Qed.

Lemma split_last_plain c : has_slash c = false → split_last c = ("", c).
Proof.
  induction c as [|x c IH]; simpl; [done|].
  intros [Hx Hc]%orb_false_iff. by rewrite IH, Hx.
Qed.

Lemma split_last_app d c :
  has_slash c = false →
  split_last (d +:+ String "/" c) = (d +:+ "/", c).
Proof.
  intros Hc. induction d as [|x d IH]; str_simpl.
  - by rewrite split_last_plain.
  - rewrite IH. by destruct d.
Qed.

Lemma basename_join d c : plain c = true → basename (join d [c]) = c.
Proof.
  intros Hc. pose proof (plain_no_slash _ Hc) as Hs.
  unfold basename, join. simpl. unfold join_step.
  rewrite (plain_startswith _ Hc).
  destruct (truthy d) eqn:Ht; simpl.
  - destruct (endswith_slash d) eqn:Hend.
    + apply endswith_slash_inv in Hend as [d' ->].
      rewrite append_assoc.
      change ("/" +:+ c) with (String "/" c).
      by rewrite split_last_app.
    + change ("/" +:+ c) with (String "/" c).
      by rewrite split_last_app.
  - destruct d; [|done]. rewrite append_nil_l. by rewrite split_last_plain.
Qed.

Lemma resolve_nonempty cwd p k : resolve cwd p = Some k → p ≠ "".
Proof. by destruct p. Qed.

End Paths.

(** ** Facts about the file system *)

Section FsFacts.
Import Fs.
Implicit Types (fs : fsmap) (k d : key) (c : string).

Lemma strip_prefix_app d k : strip_prefix d (d ++ k) = Some k.
Proof. induction d as [|x d IH]; simpl; [done|]. by rewrite bool_decide_true. Qed.

Lemma strip_prefix_Some d k r : strip_prefix d k = Some r → k = d ++ r.
Proof.
  revert k. induction d as [|x d IH]; intros [|y k]; simpl; try congruence.
  case_bool_decide; [|done]. intros ->%IH. by subst.
Qed.

Lemma child_name_Some d k c :
  child_name d k = Some c ↔ k = d ++ [c] ∧ plain c = true.
Proof.
  unfold child_name. split.
  - destruct (strip_prefix d k) as [[|c' [|]]|] eqn:H; try done.
    destruct (plain c') eqn:Hp; [|done].
    intros [= ->]. split; [by apply strip_prefix_Some|done].
  - intros [-> Hp]. by rewrite strip_prefix_app, Hp.
Qed.

Lemma elem_of_children fs d c :
  c ∈ children fs d ↔ plain c = true ∧ is_Some (fs !! (d ++ [c])).
Proof.
  unfold children. rewrite list_elem_of_omap. split.
  - intros ([k n] & Hin & Hc). simpl in Hc.
    apply child_name_Some in Hc as [-> Hp].
    apply elem_of_map_to_list in Hin. eauto.
  - intros [Hp [n Hn]]. exists (d ++ [c], n). split.
    + by apply elem_of_map_to_list.
    + simpl. by apply child_name_Some.
Qed.

Lemma NoDup_children fs d : NoDup (children fs d).
Proof.
  unfold children.
  pose proof (NoDup_fst_map_to_list fs) as Hnd.
  induction (map_to_list fs) as [|[k n] l IH]; simpl in *; [constructor|].
  apply NoDup_cons in Hnd as [Hk Hnd].
  destruct (child_name d k) as [c|] eqn:Hc; [|by apply IH].
  apply NoDup_cons. split; [|by apply IH].
  intros Hin. apply Hk.
  apply list_elem_of_omap in Hin as ([k' n'] & Hin & Hc'). simpl in Hc'.
  apply child_name_Some in Hc as [-> _]. apply child_name_Some in Hc' as [-> _].
  apply list_elem_of_fmap. by exists (d ++ [c], n').
Qed.

(** Two listings with the same entries are permutations of each other. *)
Lemma children_perm fs d l :
  NoDup l →
  (∀ c, c ∈ l ↔ plain c = true ∧ is_Some (fs !! (d ++ [c]))) →
  children fs d ≡ₚ l.
Proof.
  intros Hnd Hl. apply NoDup_Permutation; [apply NoDup_children|done|].
  intros c. by rewrite elem_of_children, Hl.
Qed.

Lemma children_same fs fs' d :
  (∀ c, fs' !! (d ++ [c]) = fs !! (d ++ [c])) → children fs' d ≡ₚ children fs d.
Proof.
  intros H. apply children_perm; [apply NoDup_children|].
  intros c. by rewrite elem_of_children, H.
Qed.

Lemma wf_plain_last fs k c :
  wf fs → is_Some (fs !! (k ++ [c])) → plain c = true.
Proof.
  intros [_ Hwf] [n Hn]. specialize (Hwf _ _ Hn). unfold wf_entry in Hwf.
  destruct (k ++ [c]) eqn:E; [by destruct k|]. rewrite <- E in Hwf.
  apply andb_true_iff in Hwf as [_ Hall].
  rewrite forallb_app in Hall. apply andb_true_iff in Hall as [_ Hc].
  simpl in Hc. by rewrite andb_true_r in Hc.
Qed.

Lemma children_nil fs d :
  wf fs → children fs d = [] ↔ ∀ c, fs !! (d ++ [c]) = None.
Proof.
  intros Hwf. split.
  - intros H c. destruct (fs !! (d ++ [c])) eqn:E; [|done].
    assert (c ∈ children fs d) as Hin.
    { apply elem_of_children. split; [|eauto].
      apply (wf_plain_last fs d); [done|eauto]. }
    rewrite H in Hin. by apply elem_of_nil in Hin.
  - intros H. apply elem_of_nil_inv. intros c Hin.
    apply elem_of_children in Hin as [_ [n Hn]]. by rewrite H in Hn.
Qed.

Lemma dirs_below_app fs pre a b :
  dirs_below fs pre (a ++ b) ↔ dirs_below fs pre a ∧ dirs_below fs (pre ++ a) b.
Proof.
  revert pre. induction a as [|c a IH]; intros pre; simpl.
  - rewrite app_nil_r. tauto.
  - rewrite IH, <- app_assoc. simpl. tauto.
Qed.

Lemma ensure_dirs_existing fs pre rest :
  dirs_below fs pre rest → ensure_dirs pre rest fs = inr fs.
Proof.
  revert pre. induction rest as [|c rest IH]; intros pre; simpl; [done|].
  intros [-> H]. by apply IH.
Qed.

Lemma ensure_dirs_app fs pre a b :
  ensure_dirs pre (a ++ b) fs =
  match ensure_dirs pre a fs with
  | inr fs' => ensure_dirs (pre ++ a) b fs'
  | inl e => inl e
  end.
Proof.
  revert pre fs. induction a as [|c a IH]; intros pre fs; simpl.
  - by rewrite app_nil_r.
  - destruct (fs !! (pre ++ [c])) as [[]|]; try done.
    all: rewrite IH, <- app_assoc; done.
Qed.

(** What a successful [ensure_dirs] leaves: the chain is there, what was
    there is kept, and what is new is a directory of the chain. *)
Lemma ensure_dirs_spec fs pre rest fs' :
  ensure_dirs pre rest fs = inr fs' →
  dirs_below fs' pre rest ∧
  (∀ k n, fs !! k = Some n → fs' !! k = Some n) ∧
  (∀ k, fs !! k = None → is_Some (fs' !! k) →
        fs' !! k = Some Dir ∧ ∃ i, 0 < i ≤ length rest ∧ k = pre ++ take i rest).
Proof.
  revert pre fs. induction rest as [|c rest IH]; intros pre fs; simpl.
  - intros [= ->]. split; [done|]. split; [done|].
    intros k -> [? ?]; done.
  - destruct (fs !! (pre ++ [c])) as [[]|] eqn:Hk; [done| |].
    + intros (Hb & Hkeep & Hnew)%IH. split; [|split].
      * split; [by apply Hkeep|done].
      * done.
      * intros k Hnone Hsome. destruct (Hnew k Hnone Hsome) as [Hd (i & Hi & ->)].
        split; [done|]. exists (S i). split; [lia|].
        by rewrite <- app_assoc.
    + intros (Hb & Hkeep & Hnew)%IH. split; [|split].
      * split; [|done]. apply Hkeep. by rewrite lookup_insert_eq.
      * intros k n Hkn. apply Hkeep.
        rewrite lookup_insert_ne; [done|congruence].
      * intros k Hnone Hsome.
        destruct (decide (k = pre ++ [c])) as [->|Hne].
        -- split; [apply Hkeep; by rewrite lookup_insert_eq|].
           exists 1. split; [lia|]. simpl. by rewrite take_0.
        -- destruct (Hnew k) as [Hd (i & Hi & ->)];
             [by rewrite lookup_insert_ne|done|].
           split; [done|]. exists (S i). split; [lia|].
           by rewrite <- app_assoc.
Qed.

Lemma dirs_below_insert_dir fs k pre rest :
  dirs_below fs pre rest → dirs_below (<[k := Dir]> fs) pre rest.
Proof.
  revert pre. induction rest as [|c rest IH]; intros pre; simpl; [done|].
  intros [Hc Hr]. split; [|by apply IH].
  destruct (decide (k = pre ++ [c])) as [->|Hne].
  - by rewrite lookup_insert_eq.
  - by rewrite lookup_insert_ne.
Qed.

Lemma makedirs_key_spec fs k fs' :
  makedirs_key k fs = inr fs' →
  fs !! k = None ∧ fs' !! k = Some Dir ∧ dirs_below fs' [] k ∧
  (∀ k' n, fs !! k' = Some n → fs' !! k' = Some n) ∧
  (∀ k', fs !! k' = None → is_Some (fs' !! k') →
         fs' !! k' = Some Dir ∧ k' `prefix_of` k).
Proof.
  unfold makedirs_key. destruct (fs !! k) eqn:Hk; [done|].
  destruct (ensure_dirs [] (removelast k) fs) as [e|fs1] eqn:He; [done|].
  intros [= <-]. apply ensure_dirs_spec in He as (Hb & Hkeep & Hnew).
  split; [done|]. split; [by rewrite lookup_insert_eq|]. split; [|split].
  - destruct k as [|c k _] using rev_ind; [done|].
    rewrite removelast_last in Hb. apply dirs_below_app. split.
    + by apply dirs_below_insert_dir.
    + simpl. by rewrite lookup_insert_eq.
  - intros k' n Hk'. rewrite lookup_insert_ne by congruence. by apply Hkeep.
  - intros k' Hnone Hsome. destruct (decide (k = k')) as [<-|Hne].
    + by rewrite lookup_insert_eq.
    + rewrite lookup_insert_ne in Hsome |- * by done.
      destruct (Hnew k' Hnone Hsome) as [Hd (i & _ & ->)].
      split; [done|]. simpl.
      exists (drop i (removelast k) ++ drop (length (removelast k)) k).
      rewrite app_assoc, take_drop.
      destruct k as [|c k _] using rev_ind; [done|].
      rewrite removelast_last, drop_app_length. done.
Qed.

(** Creating one directory in an existing chain. *)
Lemma makedirs_key_child fs d c :
  dirs_below fs [] d → fs !! (d ++ [c]) = None →
  makedirs_key (d ++ [c]) fs = inr (<[d ++ [c] := Dir]> fs).
Proof.
  intros Hd Hc. unfold makedirs_key. rewrite Hc, removelast_last.
  by rewrite (ensure_dirs_existing _ _ _ Hd).
Qed.

Lemma dirs_below_last fs pre rest :
  rest ≠ [] → dirs_below fs pre rest → fs !! (pre ++ rest) = Some Dir.
Proof.
  revert pre. induction rest as [|c rest IH]; intros pre Hne; [done|].
  simpl. intros [Hc Hrest]. destruct rest as [|c' rest].
  - done.
  - specialize (IH (pre ++ [c]) ltac:(done) Hrest).
    by rewrite <- app_assoc in IH.
Qed.

Lemma dirs_below_mono fs fs' pre rest :
  (∀ k n, fs !! k = Some n → fs' !! k = Some n) →
  dirs_below fs pre rest → dirs_below fs' pre rest.
Proof.
  intros Hkeep. revert pre. induction rest as [|c rest IH]; intros pre; simpl;
    [done|]. intros [Hc Hrest]. split; [by apply Hkeep|by apply IH].
Qed.

(** In a well-formed file system the ancestors of a directory are
    directories. *)
Lemma wf_dirs_below fs k :
  wf fs → is_Some (fs !! k) → dirs_below fs [] (removelast k).
Proof.
  intros [Hroot Hwf]. induction k as [|c k IH] using rev_ind; [done|].
  intros [n Hn]. rewrite removelast_last.
  specialize (Hwf _ _ Hn). unfold wf_entry in Hwf.
  destruct (k ++ [c]) eqn:E; [by destruct k|]. rewrite <- E in Hwf.
  rewrite removelast_last in Hwf. apply andb_true_iff in Hwf as [Hdir _].
  unfold is_dir in Hdir. destruct (fs !! k) as [[]|] eqn:Hk; try done.
  destruct k as [|c' k _] using rev_ind; [done|].
  rewrite removelast_last in IH.
  apply dirs_below_app. split; [by apply IH|]. simpl. by rewrite Hk.
Qed.

Lemma wf_no_orphan fs d c :
  wf fs → fs !! d = None → fs !! (d ++ [c]) = None.
Proof.
  intros [_ Hwf] Hd. destruct (fs !! (d ++ [c])) eqn:Hc; [|done].
  specialize (Hwf _ _ Hc). unfold wf_entry in Hwf.
  destruct (d ++ [c]) eqn:E; [by destruct d|]. rewrite <- E in Hwf.
  rewrite removelast_last in Hwf. apply andb_true_iff in Hwf as [Hdir _].
  unfold is_dir in Hdir. by rewrite Hd in Hdir.
Qed.

End FsFacts.

(** ** C1: the template resolver *)

Section Resolver.
Variable env : Env.
Import Str PosixPath Fs.

Lemma os_path_isdir_eq p w :
  os_path_isdir env p w = (Ok (dir_at env (w_fs w) p), w).
Proof. reflexivity. Qed.

Lemma find_first_cons n t path rest w :
  let p := join (normpath path) ["templates"; n; t] in
  find_first env n t (path :: rest) w =
  if dir_at env (w_fs w) p then (Ok (Some p), add_log w (hit_msg p))
  else find_first env n t rest (add_log w (miss_msg p)).
Proof.
  simpl. unfold bind at 1. rewrite os_path_isdir_eq.
  by destruct (dir_at env (w_fs w) _).
Qed.

Lemma find_first_spec n t paths w r w' :
  find_first env n t paths w = (r, w') →
  let probe root := join (normpath root) ["templates"; n; t] in
  w_fs w' = w_fs w ∧
  match r with
  | Ok (Some p) =>
      ∃ before root after,
        paths = before ++ root :: after ∧ p = probe root ∧
        dir_at env (w_fs w) p = true ∧
        Forall (λ r', dir_at env (w_fs w) (probe r') = false) before ∧
        w_log w' = w_log w ++ map (λ r', miss_msg (probe r')) before
                            ++ [hit_msg p]
  | Ok None =>
      Forall (λ r', dir_at env (w_fs w) (probe r') = false) paths ∧
      w_log w' = w_log w ++ map (λ r', miss_msg (probe r')) paths
  | Raise _ => False
  end.
Proof.
  intros H probe. revert w H.
  induction paths as [|path rest IH]; intros w H.
  - inversion H; subst. split; [done|]. split; [constructor|].
    simpl. by rewrite app_nil_r.
  - rewrite find_first_cons in H. fold (probe path) in H.
    destruct (dir_at env (w_fs w) (probe path)) eqn:Hd.
    + inversion H; subst. split; [done|].
      exists [], path, rest. repeat split; done.
    + apply IH in H as [Hfs H]. simpl in Hfs. split; [done|].
      destruct r as [[p|]|e]; [| |done].
      * destruct H as (before & root & after & -> & -> & Hdir & Hall & Hlog).
        exists (path :: before), root, after. repeat split; try done.
        -- by constructor.
        -- rewrite Hlog. simpl. by rewrite <- !app_assoc.
      * destruct H as [Hall Hlog]. split; [by constructor|].
        rewrite Hlog. simpl. by rewrite <- !app_assoc.
Qed.

Lemma search_paths_order : search_order env.
Proof.
  unfold search_order, search_paths.
  set (mac := if String.prefix "darwin" (sys_platform env)
              then [darwin_support env] else []).
  assert (∀ l, (if String.prefix "darwin" (sys_platform env)
                then l ++ [darwin_support env] else l) = l ++ mac) as Hmac.
  { intros l. unfold mac. destruct (String.prefix _ _); [done|].
    by rewrite app_nil_r. }
  rewrite Hmac. clear Hmac.
  case_bool_decide as Hos.
  - exists ["/usr/share/couchapp"; "/usr/local/share/couchapp"; "/opt/couchapp"].
    split; [by rewrite <- !app_assoc|].
    repeat split; intros; congruence.
  - destruct (is_py2exe env) eqn:Hpy; [|destruct (is_windows env) eqn:Hwin].
    + exists [dirname (sys_executable env)].
      split; [by rewrite <- !app_assoc|].
      repeat split; intros; congruence.
    + exists [join (sys_prefix env) ["Lib"; "site-packages"; "couchapp"]].
      split; [by rewrite <- !app_assoc|].
      repeat split; intros; congruence.
    + exists []. split; [by rewrite <- !app_assoc|].
      repeat split; intros; congruence.
Qed.
(** The resolver answers as [first_match] says. *)
Lemma find_template_dir_spec tmpl_name tmpl_type raise_error w :
  tmpl_type ∈ "" :: TEMPLATE_TYPES →
  first_match env tmpl_name tmpl_type raise_error w
    (find_template_dir env tmpl_name tmpl_type raise_error w).
Proof.
  intros Hty. unfold first_match, probe_path.
  destruct (find_template_dir env tmpl_name tmpl_type raise_error w)
    as [r w'] eqn:H.
  unfold find_template_dir in H.
  assert (truthy tmpl_type && negb (bool_decide (tmpl_type ∈ TEMPLATE_TYPES))
          = false) as Hguard.
  { apply elem_of_cons in Hty as [->|Hty]; [done|].
    rewrite bool_decide_true by done. by rewrite andb_false_r. }
  rewrite Hguard in H. fold (norm_name tmpl_name) in H.
  unfold bind in H.
  destruct (find_first env (norm_name tmpl_name) tmpl_type (search_paths env) w)
    as [r1 w1] eqn:Hff.
  apply find_first_spec in Hff as [Hfs Hff].
  destruct r1 as [[p|]|e]; [| |done].
  - inversion H; subst. simpl. done.
  - destruct Hff as [Hall Hlog].
    destruct raise_error; inversion H; subst; simpl; done.
Qed.

(** C1. For every template name and every valid template type, the
    resolver answers the probe path of the first search root, in the order
    user paths, module directory, its parent, platform roots, macOS root
    last, whose probe path is a directory; the roots behind the match are
    not looked at (they leave no line in the trace), and the answer is that
    one path. *)
Theorem C1_first_match tmpl_name tmpl_type raise_error w :
  tmpl_type ∈ "" :: TEMPLATE_TYPES →
  search_order env ∧
  first_match env tmpl_name tmpl_type raise_error w
    (find_template_dir env tmpl_name tmpl_type raise_error w).
Proof.
  intros Hty. split;
    [apply search_paths_order | by apply find_template_dir_spec].
Qed.

(** A lookup that need not succeed answers [None] when no root has the
    template. *)
Lemma find_template_dir_none tmpl_name tmpl_type w :
  tmpl_type ∈ "" :: TEMPLATE_TYPES →
  no_template env (w_fs w) tmpl_name tmpl_type →
  ∃ w', find_template_dir env tmpl_name tmpl_type false w = (Ok None, w')
        ∧ w_fs w' = w_fs w.
Proof.
  intros Hty Hno.
  destruct (find_template_dir_spec tmpl_name tmpl_type false w Hty) as [Hfs H].
  destruct (find_template_dir env tmpl_name tmpl_type false w) as [r w'].
  simpl in *. exists w'. split; [|done]. destruct r as [[p|]|e].
  - destruct H as (before & root & after & Hsp & -> & Hdir & _).
    unfold no_template in Hno. rewrite Hsp in Hno.
    apply Forall_app in Hno as [_ Hno]. apply Forall_cons in Hno as [Hno _].
    congruence.
  - done.
  - by destruct H.
Qed.

(** The resolver only writes to the trace. *)
Lemma find_template_dir_fs tmpl_name tmpl_type raise_error w :
  w_fs (find_template_dir env tmpl_name tmpl_type raise_error w).2 = w_fs w.
Proof.
  unfold find_template_dir.
  destruct (truthy tmpl_type && _); [done|].
  unfold bind.
  destruct (find_first env _ tmpl_type (search_paths env) w) as [r1 w1] eqn:Hff.
  apply find_first_spec in Hff as [Hfs _].
  destruct r1 as [[p|]|e]; try done.
  by destruct raise_error.
Qed.

End Resolver.

(** ** C8: the validation of [generate] *)

(** C8, as amended. A kind outside the fixed set fails with the
    unknown-kind error, and a name that is missing ([None]) fails with the
    missing-name error, both before anything is generated: the world is
    unchanged.  (The empty string is a name for this check.) *)
Theorem C8_generate_validation env path kind name template w :
  (kind ∉ func_list →
   generate env path kind name template w =
     (Raise (AppError ("Can't generate '" +:+ kind +:+ "' in your couchapp. "
                       +:+ "generator is unknown.")), w))
  ∧ (kind ∈ func_list → name = None →
     generate env path kind name template w =
       (Raise (AppError ("Can't generate '" +:+ kind +:+ "' function, "
                         +:+ "name is missing")), w)).
Proof.
  unfold generate. split.
  - intros Hk. by rewrite bool_decide_false.
  - intros Hk ->. by rewrite bool_decide_true.
Qed.

(** ** C9: the tree of [init_basic] *)

Section InitBasic.
Variable env : Env.
Import Str PosixPath Fs.

Lemma wfb_wf (fs : fsmap) : wfb fs = true → wf fs.
Proof.
  unfold wfb, wf. intros [Hroot Hall]%andb_true_iff. split; [done|].
  intros k n Hk. rewrite forallb_forall in Hall.
  apply (Hall (k, n)). apply list_elem_of_In. by apply elem_of_map_to_list.
Qed.

Lemma wf_dirs_to (fs : fsmap) k :
  wf fs → fs !! k = Some Dir → dirs_below fs [] k.
Proof.
  intros Hwf Hk. destruct k as [|c k _] using rev_ind; [done|].
  apply dirs_below_app. split.
  - pose proof (wf_dirs_below fs (k ++ [c]) Hwf (mk_is_Some _ _ Hk)) as H.
    by rewrite removelast_last in H.
  - simpl. done.
Qed.

Lemma os_makedirs_ok p k w fs' :
  resolve (cwd env) p = Some k → makedirs_key k (w_fs w) = inr fs' →
  os_makedirs env p w = (Ok tt, World fs' (w_log w)).
Proof. intros Hp Hk. unfold os_makedirs, bind, get_fs. by rewrite Hp, Hk. Qed.

Lemma os_makedirs_inv p w w' :
  os_makedirs env p w = (Ok tt, w') →
  ∃ k, resolve (cwd env) p = Some k ∧
       makedirs_key k (w_fs w) = inr (w_fs w') ∧ w_log w' = w_log w.
Proof.
  unfold os_makedirs, bind, get_fs.
  destruct (resolve (cwd env) p) as [k|]; [|done].
  destruct (makedirs_key k (w_fs w)) as [e|fs'] eqn:Hk; [done|].
  intros [= <-]. eauto.
Qed.

(** A successful [setup_dir] that requires emptiness leaves an empty
    directory at the end of a chain of directories. *)
Lemma setup_dir_empty p w w' :
  wf (w_fs w) → setup_dir env p true w = (Ok tt, w') →
  ∃ k, resolve (cwd env) p = Some k ∧
       w_fs w' !! k = Some Dir ∧ dirs_below (w_fs w') [] k ∧
       (∀ c, w_fs w' !! (k ++ [c]) = None) ∧ w_log w' = w_log w.
Proof.
  intros Hwf. unfold setup_dir, bind at 1, get_fs.
  destruct (resolve (cwd env) p) as [k|] eqn:Hp.
  - destruct (w_fs w !! k) as [[|]|] eqn:Hk.
    + done.
    + simpl. case_bool_decide as Hc; [|done]. simpl. unfold ret.
      intros [= <-].
      exists k. split; [done|]. split; [done|].
      split; [by apply wf_dirs_to|]. split; [by apply children_nil|done].
    + intros (k' & Hp' & Hmk & Hlog)%os_makedirs_inv.
      rewrite Hp in Hp'. injection Hp' as <-.
      apply makedirs_key_spec in Hmk as (_ & Hdir & Hb & Hkeep & Hnew).
      exists k. split; [done|]. split; [done|]. split; [done|].
      split; [|done].
      intros c. destruct (w_fs w' !! (k ++ [c])) eqn:Hc; [|done].
      destruct (Hnew (k ++ [c])) as [_ Hpre]; [|done|].
      * by apply wf_no_orphan.
      * apply prefix_length in Hpre. rewrite length_app in Hpre.
        simpl in Hpre. lia.
  - intros (k' & Hp' & _)%os_makedirs_inv. congruence.
Qed.

(** [setup_dir] on a missing entry of a directory creates it. *)
Lemma setup_dir_child p d c b w :
  resolve (cwd env) p = Some (d ++ [c]) →
  dirs_below (w_fs w) [] d → w_fs w !! (d ++ [c]) = None →
  setup_dir env p b w = (Ok tt, World (<[d ++ [c] := Dir]> (w_fs w)) (w_log w)).
Proof.
  intros Hp Hd Hc. unfold setup_dir, bind at 1, get_fs. rewrite Hp, Hc.
  apply (os_makedirs_ok _ (d ++ [c])); [done|]. by apply makedirs_key_child.
Qed.

Lemma with_dirs_other fs d names k :
  (∀ n, n ∈ names → k ≠ d ++ [n]) → with_dirs fs d names !! k = fs !! k.
Proof.
  revert fs. induction names as [|n names IH]; intros fs Hk; simpl; [done|].
  unfold with_dirs in *. simpl. rewrite IH.
  - rewrite lookup_insert_ne; [done|]. intros Heq. apply (Hk n); [left|done].
  - intros n' Hn'. apply Hk. by right.
Qed.

Lemma with_dirs_entry fs d names n :
  n ∈ names → with_dirs fs d names !! (d ++ [n]) = Some Dir.
Proof.
  revert fs. induction names as [|n' names IH]; intros fs Hn; [by inversion Hn|].
  unfold with_dirs in *. simpl.
  destruct (decide (n ∈ names)) as [Hin|Hnin]; [by apply IH|].
  apply elem_of_cons in Hn as [->|?]; [|done].
  fold (with_dirs (<[d ++ [n'] := Dir]> fs) d names).
  rewrite with_dirs_other; [by rewrite lookup_insert_eq|].
  intros n Hn Heq. apply app_inj_tail in Heq as [_ ->]. done.
Qed.

Lemma with_dirs_below fs d names pre rest :
  dirs_below fs pre rest → dirs_below (with_dirs fs d names) pre rest.
Proof.
  revert fs. induction names as [|n names IH]; intros fs H; [done|].
  unfold with_dirs in *. simpl. apply IH. by apply dirs_below_insert_dir.
Qed.

Lemma setup_dirs_children path d names b w :
  resolve (cwd env) path = Some d →
  dirs_below (w_fs w) [] d →
  Forall (λ n, plain n = true) names → NoDup names →
  (∀ n, n ∈ names → w_fs w !! (d ++ [n]) = None) →
  setup_dirs env (map (λ n, join path [n]) names) b w =
    (Ok tt, World (with_dirs (w_fs w) d names) (w_log w)).
Proof.
  intros Hp. revert w. unfold setup_dirs.
  induction names as [|n names IH]; intros w Hd Hplain Hnd Hnone; simpl.
  - by destruct w.
  - apply Forall_cons in Hplain as [Hn Hplain].
    apply NoDup_cons in Hnd as [Hnin Hnd].
    erewrite bind_ok; last first.
    { apply setup_dir_child; [by apply resolve_join|done|].
      apply Hnone. by left. }
    rewrite IH; try done.
    + by apply dirs_below_insert_dir.
    + simpl. intros n' Hn'. rewrite lookup_insert_ne.
      * apply Hnone. by right.
      * intros Heq. apply app_inj_tail in Heq as [_ ->]. done.
Qed.

(** [save_id] into a directory that has no [_id] yet. *)
Lemma save_id_new path d name w :
  resolve (cwd env) path = Some d →
  w_fs w !! d = Some Dir → w_fs w !! (d ++ ["_id"]) = None →
  save_id env path name w =
    (Ok tt, World (<[d ++ ["_id"] := File name (Meta default_mode (now env))]>
                     (w_fs w)) (w_log w)).
Proof.
  intros Hp Hd Hid. unfold save_id, write_file, bind, get_fs.
  rewrite (resolve_join _ _ "_id" _ Hp) by done. rewrite Hid.
  destruct (d ++ ["_id"]) eqn:E; [by destruct d|]. rewrite <- E.
  by rewrite removelast_last, Hd.
Qed.

(** C9, as amended. After a successful [init_basic(P)], at the point
    where the manifest collaborator is called, listing [P] yields exactly
    the six directories of the standard tree and the file [_id], whose
    content is [_design/] followed by the base name of [P]; the final
    world is what the collaborator makes of that one. *)
Theorem C9_init_basic_tree document path w :
  wf (w_fs w) →
  (init_basic env document path w).1 = Ok tt →
  ∃ d w1,
    resolve (cwd env) path = Some d ∧
    children (w_fs w1) d ≡ₚ "_id" :: DEFAULT_APP_TREE ∧
    (∀ n, n ∈ DEFAULT_APP_TREE → w_fs w1 !! (d ++ [n]) = Some Dir) ∧
    w_fs w1 !! (d ++ ["_id"]) =
      Some (File ("_design/" +:+ (split path).2) (Meta default_mode (now env))) ∧
    document path true w1 = (Ok tt, (init_basic env document path w).2).
Proof.
  intros Hwf Hok.
  destruct (init_basic env document path w) as [r w'] eqn:Hrun.
  simpl in Hok. subst r. unfold init_basic in Hrun.
  apply bind_inv_ok in Hrun as ([] & w0 & Hsd & Hrun).
  apply setup_dir_empty in Hsd as (d & Hp & Hd & Hchain & Hempty & Hlog);
    [|done].
  assert (NoDup ("_id" :: DEFAULT_APP_TREE)) as Hnd.
  { apply (bool_decide_unpack _). vm_compute. exact I. }
  pose proof Hnd as [Hid Hnd']%NoDup_cons.
  set (fs2 := with_dirs (w_fs w0) d DEFAULT_APP_TREE).
  assert (∀ c, c ∉ DEFAULT_APP_TREE → fs2 !! (d ++ [c]) = None) as Hother.
  { intros c Hc. unfold fs2. rewrite with_dirs_other; [done|].
    intros n Hn Heq. apply app_inj_tail in Heq as [_ <-]. done. }
  assert (fs2 !! d = Some Dir) as Hd2.
  { unfold fs2. rewrite with_dirs_other; [done|].
    intros n _ Heq. apply (f_equal length) in Heq.
    rewrite length_app in Heq. simpl in Heq. lia. }
  rewrite (bind_ok _ _ _ _ _
             (setup_dirs_children path d DEFAULT_APP_TREE true w0 Hp Hchain
                ltac:(by repeat constructor) Hnd' (λ n _, Hempty n))) in Hrun.
  rewrite (bind_ok _ _ _ _ _
             (save_id_new path d _ (World fs2 (w_log w0)) Hp Hd2
                (Hother "_id" Hid))) in Hrun.
  simpl w_fs in Hrun. simpl w_log in Hrun.
  set (idf := File _ _) in Hrun. set (w1 := World _ _) in Hrun.
  exists d, w1. split; [done|].
  change (w_fs w1) with (<[d ++ ["_id"] := idf]> fs2).
  split; [|split; [|split]].
  - assert (Forall (λ n, plain n = true) DEFAULT_APP_TREE) as Hplain
      by (by repeat constructor).
    rewrite Forall_forall in Hplain.
    apply children_perm; [done|].
    intros c. destruct (decide (c = "_id")) as [->|Hne].
    { rewrite lookup_insert_eq. split; [eauto|intros _; by left]. }
    rewrite lookup_insert_ne
      by (intros Heq; by apply app_inj_tail in Heq as [_ ?]).
    rewrite elem_of_cons.
    destruct (decide (c ∈ DEFAULT_APP_TREE)) as [Hin|Hnin].
    + unfold fs2. rewrite with_dirs_entry by done. split; eauto.
    + rewrite Hother by done.
      split; [intros [?|?]; done|by intros [_ [? ?]]].
  - intros n Hn. rewrite lookup_insert_ne.
    + by apply with_dirs_entry.
    + intros Heq. apply app_inj_tail in Heq as [_ <-]. done.
  - by rewrite lookup_insert_eq.
  - done.
Qed.

End InitBasic.

(** The witness of C9: a basic app in the sample installation. *)
Lemma C9_witness :
  Fs.wf (w_fs Sample.w0) ∧
  (init_basic Sample.posix_env Sample.document_nop "/home/u/app" Sample.w0).1
    = Ok tt ∧
  ∃ d w1,
    Fs.resolve (cwd Sample.posix_env) "/home/u/app" = Some d ∧
    Fs.children (w_fs w1) d ≡ₚ "_id" :: DEFAULT_APP_TREE ∧
    (∀ n, n ∈ DEFAULT_APP_TREE → w_fs w1 !! (d ++ [n]) = Some Dir) ∧
    w_fs w1 !! (d ++ ["_id"]) =
      Some (File ("_design/" +:+ (PosixPath.split "/home/u/app").2)
              (Meta default_mode (now Sample.posix_env))) ∧
    Sample.document_nop "/home/u/app" true w1 =
      (Ok tt, (init_basic Sample.posix_env Sample.document_nop "/home/u/app"
                 Sample.w0).2).
Proof.
  assert (Fs.wf (w_fs Sample.w0)) as Hwf.
  { apply wfb_wf. vm_compute. reflexivity. }
  assert ((init_basic Sample.posix_env Sample.document_nop "/home/u/app"
             Sample.w0).1 = Ok tt) as Hok.
  { vm_compute. reflexivity. }
  split; [exact Hwf|]. split; [exact Hok|].
  exact (C9_init_basic_tree Sample.posix_env Sample.document_nop "/home/u/app"
           Sample.w0 Hwf Hok).
Defined.

(** The counterexample to C9 as stated: with the collaborator that writes
    the two configuration files, a successful [init_basic] leaves nine
    entries in the directory, not seven. *)
Lemma C9_counterexample :
  let r := init_basic Sample.posix_env (Sample.document_rc Sample.posix_env)
             "/home/u/app" Sample.w0 in
  r.1 = Ok tt ∧
  ".couchapprc" ∈ Fs.children (w_fs r.2) ["home"; "u"; "app"] ∧
  ¬ (Fs.children (w_fs r.2) ["home"; "u"; "app"] ≡ₚ "_id" :: DEFAULT_APP_TREE).
Proof.
  split; [by vm_compute|]. split.
  - apply elem_of_children. vm_compute. eauto.
  - intros H%Permutation_length. vm_compute in H. discriminate.
Qed.

(** ** C10: [init_template] without any vendor template *)

Section InitTemplate.
Variable env : Env.
Import Str PosixPath Fs.

(** A successful [setup_dir] leaves a directory and keeps what was
    there. *)
Lemma setup_dir_spec p b w w' :
  setup_dir env p b w = (Ok tt, w') →
  dir_at env (w_fs w') p = true ∧
  (∀ k n, w_fs w !! k = Some n → w_fs w' !! k = Some n).
Proof.
  unfold setup_dir, bind at 1, get_fs, dir_at, lookup_path.
  destruct (resolve (cwd env) p) as [k|] eqn:Hp.
  - destruct (w_fs w !! k) as [[|]|] eqn:Hk.
    + done.
    + destruct (b && _); [done|]. unfold ret. intros [= <-]. by rewrite Hk.
    + intros (k' & Hp' & Hmk & Hlog)%os_makedirs_inv.
      rewrite Hp in Hp'. injection Hp' as <-.
      apply makedirs_key_spec in Hmk as (_ & Hdir & _ & Hkeep & _).
      by rewrite Hdir.
  - intros (k' & Hp' & _)%os_makedirs_inv. congruence.
Qed.

Lemma setup_dirs_spec paths b w w' :
  setup_dirs env paths b w = (Ok tt, w') →
  Forall (λ p, dir_at env (w_fs w') p = true) paths ∧
  (∀ k n, w_fs w !! k = Some n → w_fs w' !! k = Some n).
Proof.
  unfold setup_dirs. revert w.
  induction paths as [|p paths IH]; intros w; simpl.
  - unfold ret. intros [= <-]. by split.
  - intros ([] & w1 & Hp & Hrest)%bind_inv_ok.
    apply setup_dir_spec in Hp as [Hdir Hkeep1].
    apply IH in Hrest as [Hall Hkeep2]. split.
    + constructor; [|done]. unfold dir_at, lookup_path in *.
      destruct (resolve (cwd env) p) as [k|]; [|done].
      destruct (w_fs w1 !! k) as [[|]|] eqn:Hk; try done.
      by rewrite (Hkeep2 _ _ Hk).
    + intros k n Hk. by apply Hkeep2, Hkeep1.
Qed.

(** [init_template] is its first part followed by the vendor part. *)
Lemma init_template_split document path template w :
  init_template env document path template w =
  bind (init_template_app env path template) (λ _,
    let tmpl_name := if truthy template then normpath template else "" in
    src_dir <- find_template_dir env tmpl_name "vendor" false ;;
    src_dir <-
      match src_dir with
      | None =>
          logger DEBUG ("vendor not found in template set " +:+ dq +:+ tmpl_name
                        +:+ dq +:+ ". fallback to default vendor.") ;;
          find_template_dir env "default" "vendor" false
      | Some _ => ret src_dir
      end ;;
    copy_helper env src_dir (join path ["vendor"]) ;;
    save_id env path ("_design/" +:+ (split path).2) ;;
    document path true) w.
Proof.
  unfold init_template, init_template_app.
  destruct (bool_decide (template ∈ TEMPLATE_TYPES)); [done|].
  unfold bind.
  destruct (find_template_dir env _ "app" true w) as [[src|e] w1]; [|done].
  destruct (copy_helper env src path w1) as [[[]|e] w2]; [|done].
  by destruct (setup_dirs env _ false w2) as [[[]|e] w3].
Qed.

(** C10. When the first part of [init_template] has succeeded (the app
    template is copied, the standard tree is there) and no search root has a
    vendor directory for the requested set or for the default set,
    [init_template] fails with the [TypeError] that [copy_helper] meets on
    the [None] it is given, not with a template-not-found error, and the
    file system is left as the first part made it, standard tree
    included. *)
Theorem C10_no_vendor_template document path template w :
  (init_template_app env path template w).1 = Ok tt →
  let tmpl_name := if truthy template then normpath template else "" in
  let w3 := (init_template_app env path template w).2 in
  no_template env (w_fs w3) tmpl_name "vendor" →
  no_template env (w_fs w3) "default" "vendor" →
  let r := init_template env document path template w in
  r.1 = Raise (TypeError "coercing to Unicode: need string or buffer, NoneType found")
  ∧ w_fs r.2 = w_fs w3
  ∧ Forall (λ n, dir_at env (w_fs r.2) (join path [n]) = true) DEFAULT_APP_TREE.
Proof.
  intros Happ tmpl_name w3 Hno Hnod r.
  subst w3. destruct (init_template_app env path template w) as [r3 w3] eqn:Hrun.
  simpl in *. subst r3.
  destruct (find_template_dir_none env tmpl_name "vendor" w3) as (w4 & Hv & Hfs4);
    [by right; right; right; left|done|].
  set (w4' := add_log w4 (DEBUG, "vendor not found in template set " +:+ dq
                 +:+ tmpl_name +:+ dq +:+ ". fallback to default vendor.")).
  destruct (find_template_dir_none env "default" "vendor" w4')
    as (w5 & Hd & Hfs5); [by right; right; right; left|by simpl; rewrite Hfs4|].
  assert (r = (Raise (TypeError
            "coercing to Unicode: need string or buffer, NoneType found"), w5))
    as ->.
  { unfold r. rewrite init_template_split. fold tmpl_name.
    rewrite (bind_ok _ _ _ _ _ Hrun). rewrite (bind_ok _ _ _ _ _ Hv).
    unfold bind at 1. unfold bind at 1.
    change (logger DEBUG ?m w4) with (Ok tt, add_log w4 (DEBUG, m)).
    cbv iota beta. fold w4'. by rewrite Hd. }
  simpl. split; [done|].
  assert (w_fs w5 = w_fs w3) as -> by (by rewrite Hfs5; simpl; rewrite Hfs4).
  split; [done|].
  unfold init_template_app in Hrun.
  destruct (bool_decide (template ∈ TEMPLATE_TYPES)); [done|].
  apply bind_inv_ok in Hrun as (src & w1 & _ & Hrun).
  apply bind_inv_ok in Hrun as ([] & w2 & _ & Hrun).
  apply setup_dirs_spec in Hrun as [Hall _].
  by apply Forall_fmap in Hall.
Qed.
End InitTemplate.

(** The witness of C10: the sample installation without vendor templates. *)
Lemma C10_witness :
  (init_template_app Sample.posix_env "/home/u/app" "default"
     Sample.w_no_vendor).1 = Ok tt ∧
  let tmpl_name := if Str.truthy "default" then PosixPath.normpath "default" else "" in
  let w3 := (init_template_app Sample.posix_env "/home/u/app" "default"
               Sample.w_no_vendor).2 in
  no_template Sample.posix_env (w_fs w3) tmpl_name "vendor" ∧
  no_template Sample.posix_env (w_fs w3) "default" "vendor" ∧
  let r := init_template Sample.posix_env Sample.document_nop "/home/u/app"
             "default" Sample.w_no_vendor in
  r.1 = Raise (TypeError "coercing to Unicode: need string or buffer, NoneType found")
  ∧ w_fs r.2 = w_fs w3
  ∧ Forall (λ n, dir_at Sample.posix_env (w_fs r.2) (PosixPath.join "/home/u/app" [n]) = true)
      DEFAULT_APP_TREE.
Proof.
  assert ((init_template_app Sample.posix_env "/home/u/app" "default"
             Sample.w_no_vendor).1 = Ok tt) as Happ.
  { vm_compute. reflexivity. }
  assert (no_template Sample.posix_env
            (w_fs (init_template_app Sample.posix_env "/home/u/app" "default"
                     Sample.w_no_vendor).2)
            (if Str.truthy "default" then PosixPath.normpath "default" else "")
            "vendor") as Hno.
  { apply (bool_decide_unpack _). vm_compute. exact I. }
  assert (no_template Sample.posix_env
            (w_fs (init_template_app Sample.posix_env "/home/u/app" "default"
                     Sample.w_no_vendor).2) "default" "vendor") as Hnod.
  { apply (bool_decide_unpack _). vm_compute. exact I. }
  split; [exact Happ|]. split; [exact Hno|]. split; [exact Hnod|].
  exact (C10_no_vendor_template Sample.posix_env Sample.document_nop
           "/home/u/app" "default" Sample.w_no_vendor Happ Hno Hnod).
Defined.

(** The witness of C1: the default app template of the sample
    installation. *)
Lemma C1_witness :
  "app" ∈ "" :: TEMPLATE_TYPES ∧
  search_order Sample.posix_env ∧
  first_match Sample.posix_env "default" "app" true Sample.w0
    (find_template_dir Sample.posix_env "default" "app" true Sample.w0).
Proof.
  assert ("app" ∈ "" :: TEMPLATE_TYPES) as Hty by (right; left).
  split; [exact Hty|].
  exact (C1_first_match Sample.posix_env "default" "app" true Sample.w0 Hty).
Defined.

(** The witness of C8: an unknown kind, and a known kind without a name. *)
Lemma C8_witness :
  ("widget" ∉ func_list) ∧ ("view" ∈ func_list) ∧
  generate Sample.posix_env "/home/u/app" "widget" (Some "x") None Sample.w0 =
    (Raise (AppError ("Can't generate '" +:+ "widget" +:+ "' in your couchapp. "
                      +:+ "generator is unknown.")), Sample.w0) ∧
  generate Sample.posix_env "/home/u/app" "view" None None Sample.w0 =
    (Raise (AppError ("Can't generate '" +:+ "view" +:+ "' function, "
                      +:+ "name is missing")), Sample.w0).
Proof.
  assert ("widget" ∉ func_list) as Hw.
  { apply (bool_decide_unpack _). vm_compute. exact I. }
  assert ("view" ∈ func_list) as Hv by left.
  split; [exact Hw|]. split; [exact Hv|]. split.
  - exact (proj1 (C8_generate_validation Sample.posix_env "/home/u/app" "widget"
                    (Some "x") None Sample.w0) Hw).
  - exact (proj2 (C8_generate_validation Sample.posix_env "/home/u/app" "view"
                    None None Sample.w0) Hv eq_refl).
Defined.

(** The counterexample to C8 as stated: the empty name is not refused; the
    generation runs and creates the directory of the kind. *)
Lemma C8_counterexample :
  let r := generate Sample.posix_env "/home/u/app" "list" (Some "") None
             Sample.w0 in
  r.1 = Ok tt ∧
  dir_at Sample.posix_env (w_fs Sample.w0) "/home/u/app/lists" = false ∧
  dir_at Sample.posix_env (w_fs r.2) "/home/u/app/lists" = true.
Proof. by vm_compute. Qed.

(** ** C3, C6, C7: [generate_function] *)

Section GenerateFunction.
Variable env : Env.
Import Str PosixPath Fs.

(** The module binds neither [shutil] nor [generate_vendor]. *)
Lemma shutil_unbound : "shutil" ∉ module_globals.
Proof. apply (bool_decide_unpack _). vm_compute. exact I. Qed.

Lemma generate_vendor_unbound : "generate_vendor" ∉ module_globals.
Proof. apply (bool_decide_unpack _). vm_compute. exact I. Qed.

(** Every copy that [generate_function] attempts stops at the lookup of
[shutil]: the file system is left alone and the warning is logged. *)
Lemma copy_attempt_skips src dst warning w :
copy_attempt env src dst warning w = (Ok tt, add_log w (WARNING, warning)).
Proof. reflexivity. Qed.

Lemma copy_function_attempt d fp path template target :
copy_function env d fp path (template, target) =
copy_attempt env (join d (fp ++ [template])) (join path [target])
(template +:+ " not found in " +:+ join d fp).
Proof.
unfold copy_function, copy_attempt.
change ([d] ++ fp ++ [template]) with ((d :: fp) ++ [template]).
by rewrite removelast_last.
Qed.

Lemma for_each_copy_function d fp path functions w :
let r := for_each functions (copy_function env d fp path) w in
r.1 = Ok tt ∧ w_fs r.2 = w_fs w.
Proof.
revert w. induction functions as [|[t g] fs IH]; intros w; [done|].
cbn [for_each].
rewrite (bind_ok _ _ w tt (add_log w (WARNING, t +:+ " not found in " +:+ join d fp))).
- apply (IH (add_log w _)).
- by rewrite copy_function_attempt.
Qed.

Lemma join_step_truthy a b : truthy a = true → truthy (join_step a b) = true.
Proof.
intros Ha. unfold join_step. destruct (startswith_slash b) eqn:Hb.
- by destruct b.
- destruct a; [done|]. by destruct (negb _ || _).
Qed.

Lemma normpath_truthy p : truthy (normpath p) = true.
Proof.
unfold normpath. destruct p; [done|].
by destruct (match initial_slashes _ with 0 => _ | _ => _ end).
Qed.

Lemma find_template_dir_truthy tmpl_name raise_error w d w1 :
find_template_dir env tmpl_name "" raise_error w = (Ok (Some d), w1) →
truthy d = true.
Proof.
intros H.
pose proof (find_template_dir_spec env tmpl_name "" raise_error w
              ltac:(left)) as [_ Hm].
rewrite H in Hm. simpl in Hm.
destruct Hm as (before & root & after & _ & -> & _).
unfold probe_path, join. simpl.
do 3 apply join_step_truthy. apply normpath_truthy.
Qed.




End GenerateFunction.



(** Where the file lands when the callee of line 167 is [shutil.copy2]
itself, as under [import shutil]: in the app directory, beside [_id], and
not in a [functions] directory. *)
Example function_lands_in_app :
let r := generate_function_with Sample.posix_env (copy2 Sample.posix_env)
           "/home/u/app" "function" "foo" None Sample.w_with_app in
r.1 = Ok tt ∧
w_fs r.2 !! ["home"; "u"; "app"; "foo.js"] =
  Some (File "function(){}" (Meta 420 11)) ∧
warnings r.2 = [] ∧
exists_at Sample.posix_env (w_fs r.2) "/home/u/app/functions" = false.
Proof. by vm_compute. Qed.

(** Where the copy that kind [function] attempts lands when it is carried
out by [shutil.copy2] itself: in the app directory, beside [_id]. *)
Example function_copy_lands_in_app :
let r := copy2 Sample.posix_env "/usr/share/couchapp/templates/functions/foo.js"
           (PosixPath.join "/home/u/app" ["foo" +:+ ".js"]) Sample.w_with_app in
r.1 = Ok tt ∧
w_fs r.2 !! ["home"; "u"; "app"; "foo.js"] =
  Some (File "function(){}" (Meta 420 11)) ∧
exists_at Sample.posix_env (w_fs r.2) "/home/u/app/functions/foo.js" = false.
Proof. by vm_compute. Qed.

(** C3. The run of the code on the claim's input: generating the view
[byDate] into a fresh app succeeds and creates the directory
[views/byDate], but neither [map.js] nor [reduce.js], which the template
has, is copied: both copies stop at the unbound name [shutil] and only log
a warning.  The second generation fails because the view exists. *)
Theorem C3_view_generation :
let r1 := generate Sample.posix_env "/home/u/app" "view" (Some "byDate") None
            Sample.w0 in
let r2 := generate Sample.posix_env "/home/u/app" "view" (Some "byDate") None
            r1.2 in
exists_at Sample.posix_env (w_fs Sample.w0)
  "/usr/share/couchapp/templates/functions/map.js" = true ∧
exists_at Sample.posix_env (w_fs Sample.w0)
  "/usr/share/couchapp/templates/functions/reduce.js" = true ∧
r1.1 = Ok tt ∧
dir_at Sample.posix_env (w_fs r1.2) "/home/u/app/views/byDate" = true ∧
Fs.children (w_fs r1.2) ["home"; "u"; "app"; "views"; "byDate"] = [] ∧
warnings r1.2 =
  ["map.js not found in /usr/share/couchapp/templates/functions";
   "reduce.js not found in /usr/share/couchapp/templates/functions"] ∧
r2.1 = Raise (AppError "The view byDate already exists").
Proof. by vm_compute. Qed.

(** C6. The run of the code on the claim's input: with a functions
template that has [map.js] and no [reduce.js], generating a view does not
fail and warns about [reduce.js]; but it warns about [map.js] as well and
produces no [map.js] at the destination. *)
Theorem C6_missing_skeleton :
let r := generate Sample.posix_env "/home/u/app" "view" (Some "byDate") None
           Sample.w_no_vendor in
exists_at Sample.posix_env (w_fs Sample.w_no_vendor)
  "/usr/share/couchapp/templates/functions/map.js" = true ∧
exists_at Sample.posix_env (w_fs Sample.w_no_vendor)
  "/usr/share/couchapp/templates/functions/reduce.js" = false ∧
r.1 = Ok tt ∧
warnings r.2 =
  ["map.js not found in /usr/share/couchapp/templates/functions";
   "reduce.js not found in /usr/share/couchapp/templates/functions"] ∧
dir_at Sample.posix_env (w_fs r.2) "/home/u/app/views/byDate" = true ∧
exists_at Sample.posix_env (w_fs r.2) "/home/u/app/views/byDate/map.js" = false.
Proof. by vm_compute. Qed.

(** ** C4, C5: vendor generation *)

(** C4. The run of the code on vendor generation.  Through [generate],
every vendor generation stops at the unbound name [generate_vendor] with
the world unchanged.  Through the vendor branch of [generate_function],
[vendor/jquery] is created and left empty, and it is the app directory
that is copied, into the directory that the template argument names. *)
Theorem C4_vendor_generation :
(∀ env path name template w,
   generate env path "vendor" (Some name) template w =
     (Raise (NameError "generate_vendor"), w)) ∧
let r := generate_function Sample.env_in_templates "/home/u/app" "vendor"
           "jquery" (Some "mytmpl") Sample.w_with_app in
exists_at Sample.env_in_templates (w_fs Sample.w_with_app) "mytmpl/jquery.js" = true ∧
r.1 = Ok tt ∧
dir_at Sample.env_in_templates (w_fs r.2) "/home/u/app/vendor/jquery" = true ∧
Fs.children (w_fs r.2) ["home"; "u"; "app"; "vendor"; "jquery"] = [] ∧
exists_at Sample.env_in_templates (w_fs r.2) "mytmpl/_id" = true.
Proof. split; [done|by vm_compute]. Qed.

(** C5. The run of the code that writes into a template set: called on
the template set [mytmpl] from the [templates] directory, the vendor branch
of [generate_function] resolves the set, then copies the content of the app
into it. *)
Theorem C5_template_set_written :
let r := generate_function Sample.env_in_templates "/home/u/app" "vendor"
           "jquery" (Some "mytmpl") Sample.w_with_app in
(find_template_dir Sample.env_in_templates "mytmpl" "" false
   Sample.w_with_app).1 = Ok (Some "/usr/share/couchapp/templates/mytmpl/") ∧
w_fs Sample.w_with_app
  !! ["usr"; "share"; "couchapp"; "templates"; "mytmpl"; "_id"] = None ∧
r.1 = Ok tt ∧
w_fs r.2 !! ["usr"; "share"; "couchapp"; "templates"; "mytmpl"; "_id"] =
  Some (File "_design/app" (Meta 420 30)) ∧
w_fs r.2 !! ["usr"; "share"; "couchapp"; "templates"; "mytmpl"; "views"] =
  Some Dir.
Proof. by vm_compute. Qed.

(** ** C2: the merge copier *)

Section CopyHelper.
Variable env : Env.
Import Str PosixPath Fs.
Implicit Types (fs : fsmap) (k ks kd : key) (p : string) (w : world).

Lemma dirs_kept_refl fs : dirs_kept fs fs.
Proof. by intros k. Qed.

Lemma dirs_kept_trans fs1 fs2 fs3 :
dirs_kept fs1 fs2 → dirs_kept fs2 fs3 → dirs_kept fs1 fs3.
Proof. intros H1 H2 k Hk. by apply H2, H1. Qed.

Lemma changes_under_refl r fs : changes_under r fs fs.
Proof. by intros k. Qed.

Lemma changes_under_trans r fs1 fs2 fs3 :
changes_under r fs1 fs2 → changes_under r fs2 fs3 → changes_under r fs1 fs3.
Proof.
intros H1 H2 k Hk.
destruct (decide (fs2 !! k = fs1 !! k)) as [Heq|Hne]; [|by apply H1].
apply H2. by rewrite Heq.
Qed.

Lemma changes_under_weaken r r' fs fs' :
r `prefix_of` r' → changes_under r' fs fs' → changes_under r fs fs'.
Proof. intros Hr H k Hk. etrans; [done|by apply H]. Qed.

Lemma dirs_kept_insert_file fs k d m :
is_dir fs k = false → dirs_kept fs (<[k := File d m]> fs).
Proof.
intros Hk k' Hk'. unfold is_dir in *.
destruct (decide (k = k')) as [->|Hne]; [by rewrite Hk' in Hk|].
by rewrite lookup_insert_ne.
Qed.

Lemma is_dir_insert_file fs t d m k :
is_dir fs t = false → is_dir (<[t := File d m]> fs) k = is_dir fs k.
Proof.
intros Ht. unfold is_dir in *. destruct (decide (t = k)) as [->|Hne].
- rewrite lookup_insert_eq. by destruct (fs !! k) as [[]|].
- by rewrite lookup_insert_ne.
Qed.

Lemma dirs_kept_insert_dir fs k : dirs_kept fs (<[k := Dir]> fs).
Proof.
intros k' Hk'. unfold is_dir in *.
destruct (decide (k = k')) as [->|Hne]; [by rewrite lookup_insert_eq|].
by rewrite lookup_insert_ne.
Qed.

Lemma changes_under_insert fs k n : changes_under k fs (<[k := n]> fs).
Proof.
intros k' Hk'. destruct (decide (k = k')) as [->|Hne]; [done|].
by rewrite lookup_insert_ne in Hk'.
Qed.

Lemma dirs_below_kept fs fs' pre rest :
dirs_kept fs fs' → dirs_below fs pre rest → dirs_below fs' pre rest.
Proof.
intros Hk. revert pre. induction rest as [|c rest IH]; intros pre; simpl; [done|].
intros [Hc Hr]. split; [|by apply IH].
specialize (Hk (pre ++ [c])). unfold is_dir in Hk. rewrite Hc in Hk.
specialize (Hk eq_refl). by destruct (fs' !! (pre ++ [c])) as [[]|].
Qed.

(** The world after a [try] whose handlers only compute, and after a
computation followed by a [return]. *)
Lemma try_except_snd {A} (m : M A) (h : exn → option (M A)) w :
(∀ e m', h e = Some m' → ∀ w1, (m' w1).2 = w1) →
(try_except m h w).2 = (m w).2.
Proof.
intros Hh. unfold try_except. destruct (m w) as [[a|e] w1]; [done|].
destruct (h e) as [m'|] eqn:He; [|done]. by apply (Hh e).
Qed.

Lemma bind_ret_snd {A B} (m : M A) (b : B) w :
(bind m (λ _, ret b) w).2 = (m w).2.
Proof. unfold bind. by destruct (m w) as [[a|e] w1]. Qed.

Lemma copytree_handler_snd srcname dstname errors e m' w1 :
copytree_handler srcname dstname errors e = Some m' → (m' w1).2 = w1.
Proof. destruct e; simpl; intros [= <-]; done. Qed.

(** [copy2] step by step, once the paths are resolved. *)
Lemma copy2_unfold src dst a b p w :
resolve (cwd env) src = Some a → resolve (cwd env) dst = Some b →
basename src = p → plain p = true →
let fs := w_fs w in
let t := if is_dir fs b then b ++ [p] else b in
∃ dst', resolve (cwd env) dst' = Some t ∧
copy2 env src dst w =
  if bool_decide (a = t) && bool_decide (is_Some (fs !! a))
  then (Raise (ShutilError [(src, dst', "are the same file")]), w)
  else
    match fs !! a with
    | Some (File d m) =>
        if may_read env m then
          match write_file env dst' d w with
          | (Ok _, w1) => copystat env src dst' w1
          | (Raise e, w1) => (Raise e, w1)
          end
        else (Raise (IOError (Some EACCES) src), w)
    | Some Dir => (Raise (IOError (Some EISDIR) src), w)
    | None => (Raise (IOError (Some ENOENT) src), w)
    end.
Proof.
intros Ha Hb Hp Hplain fs t.
exists (if is_dir fs b then join dst [p] else dst). split.
{ unfold t. destruct (is_dir fs b); [by apply resolve_join|done]. }
unfold copy2, bind at 1, os_path_isdir, bind at 1, get_fs, ret, lookup_path.
rewrite Hb, Hp. fold fs. fold (is_dir fs b).
set (dst' := if is_dir fs b then join dst [p] else dst).
assert (resolve (cwd env) dst' = Some t) as Ht.
{ unfold t, dst'. destruct (is_dir fs b); [by apply resolve_join|done]. }
unfold copyfile, bind at 1, bind at 1, get_fs, samefile. rewrite Ha, Ht.
fold fs.
assert (match fs !! a with Some _ => true | None => false end
        = bool_decide (is_Some (fs !! a))) as ->.
{ destruct (fs !! a); [by rewrite bool_decide_true|].
  rewrite bool_decide_false; [done|]. by intros [? ?]. }
destruct (bool_decide (a = t) && bool_decide (is_Some (fs !! a))); [done|].
unfold bind at 1, read_file, bind at 1, get_fs. rewrite Ha. fold fs.
destruct (fs !! a) as [[d m|]|]; [|done|done].
by destruct (may_read env m).
Qed.

(** What [copy2] does to the entry [p]: it fails and leaves the world as
it is, or it writes the file, content and metadata, at its target. *)
Lemma copy2_inv src dst a b p w r w' :
resolve (cwd env) src = Some a → resolve (cwd env) dst = Some b →
basename src = p → plain p = true →
copy2 env src dst w = (r, w') →
let fs := w_fs w in
let t := if is_dir fs b then b ++ [p] else b in
(w' = w ∧ ∃ e, r = Raise e) ∨
(r = Ok tt ∧ a ≠ t ∧ is_dir fs t = false ∧
 ∃ d m, fs !! a = Some (File d m) ∧
        w' = World (<[t := File d m]> fs) (w_log w)).
Proof.
intros Ha Hb Hp Hplain Hrun. cbv zeta.
destruct (copy2_unfold src dst a b p w Ha Hb Hp Hplain) as (dst' & Ht & Heq).
cbv zeta in Ht, Heq. rewrite Heq in Hrun. clear Heq.
unfold write_file, bind at 1, get_fs in Hrun. rewrite Ht in Hrun.
remember (w_fs w) as fs eqn:Hfs.
remember (if is_dir fs b then b ++ [p] else b) as t eqn:Htdef.
destruct (bool_decide (a = t) && bool_decide (is_Some (fs !! a))) eqn:Hsame.
{ injection Hrun as <- <-. left. eauto. }
destruct (fs !! a) as [[d m|]|] eqn:Hfa;
  [|injection Hrun as <- <-; left; eauto..].
destruct (may_read env m) eqn:Hread; [|injection Hrun as <- <-; left; eauto].
assert (a ≠ t) as Hne.
{ intros Heq. rewrite bool_decide_true in Hsame by done.
  rewrite bool_decide_true in Hsame; [done|eauto]. }
assert (∀ m', copystat env src dst' (World (<[t := File d m']> fs) (w_log w)) =
          (Ok tt, World (<[t := File d m]> fs) (w_log w))) as Hstat.
{ intros m'. unfold copystat, bind, get_fs. rewrite Ha, Ht. cbn [w_fs w_log].
  rewrite lookup_insert_ne by done. rewrite Hfa, lookup_insert_eq.
  unfold put_fs. cbn [w_fs w_log]. by rewrite insert_insert_eq. }
destruct (fs !! t) as [[d' m'|]|] eqn:Hft.
- destruct (may_write env m') eqn:Hwrite;
    [|injection Hrun as <- <-; left; eauto].
  unfold put_fs in Hrun. rewrite Hstat in Hrun.
  injection Hrun as <- <-. right. repeat split; try done.
  + unfold is_dir. by rewrite Hft.
  + eauto.
- injection Hrun as <- <-. left. eauto.
- destruct t as [|c0 t0] eqn:Et; [injection Hrun as <- <-; left; eauto|].
  rewrite <- Et in *.
  destruct (fs !! removelast t) as [[|]|] eqn:Hpar;
    [injection Hrun as <- <-; left; eauto| |injection Hrun as <- <-; left; eauto].
  unfold put_fs in Hrun. rewrite Hstat in Hrun.
  injection Hrun as <- <-. right. repeat split; try done.
  + unfold is_dir. by rewrite Hft.
  + eauto.
Qed.

(** Copying again a file that has its copy changes nothing. *)
Lemma copy2_again src dst a b p w d m :
resolve (cwd env) src = Some a → resolve (cwd env) dst = Some b →
basename src = p → plain p = true →
let fs := w_fs w in
let t := if is_dir fs b then b ++ [p] else b in
a ≠ t → fs !! a = Some (File d m) → fs !! t = Some (File d m) →
may_read env m = true → may_write env m = true →
copy2 env src dst w = (Ok tt, w).
Proof.
intros Ha Hb Hp Hplain. cbv zeta.
destruct (copy2_unfold src dst a b p w Ha Hb Hp Hplain) as (dst' & Ht & ->).
cbv zeta in Ht |- *.
unfold write_file, bind at 1, get_fs. rewrite Ht.
remember (w_fs w) as fs eqn:Hfs.
remember (if is_dir fs b then b ++ [p] else b) as t eqn:Htdef.
intros Hne Hfa Hft Hread Hwrite.
rewrite bool_decide_false by done. simpl. rewrite Hfa, Hread, Hft, Hwrite.
unfold put_fs. unfold copystat, bind, get_fs. rewrite Ha, Ht. cbn [w_fs w_log].
rewrite lookup_insert_ne by done. rewrite Hfa, lookup_insert_eq.
unfold put_fs. cbn [w_fs w_log]. rewrite insert_insert_eq, insert_id by done.
subst fs. by destruct w.
Qed.

(** A file that [copy2] has copied is one the user may read. *)
Lemma copy2_readable src dst a b p w w' d m :
resolve (cwd env) src = Some a → resolve (cwd env) dst = Some b →
basename src = p → plain p = true →
w_fs w !! a = Some (File d m) →
copy2 env src dst w = (Ok tt, w') → may_read env m = true.
Proof.
intros Ha Hb Hp Hplain Hfa.
destruct (copy2_unfold src dst a b p w Ha Hb Hp Hplain) as (dst' & _ & ->).
cbv zeta. destruct (bool_decide _ && bool_decide _); [done|].
rewrite Hfa. by destruct (may_read env m).
Qed.

(** Copying again a file whose copy the user may not write to is
refused, and changes nothing. *)
Lemma copy2_denied src dst a b p w d m :
resolve (cwd env) src = Some a → resolve (cwd env) dst = Some b →
basename src = p → plain p = true →
let fs := w_fs w in
let t := if is_dir fs b then b ++ [p] else b in
a ≠ t → fs !! a = Some (File d m) → fs !! t = Some (File d m) →
may_read env m = true → may_write env m = false →
∃ dst', resolve (cwd env) dst' = Some t ∧
        copy2 env src dst w = (Raise (IOError (Some EACCES) dst'), w).
Proof.
intros Ha Hb Hp Hplain. cbv zeta.
destruct (copy2_unfold src dst a b p w Ha Hb Hp Hplain) as (dst' & Ht & ->).
cbv zeta in Ht |- *.
remember (w_fs w) as fs eqn:Hfs.
remember (if is_dir fs b then b ++ [p] else b) as t eqn:Htdef.
intros Hne Hfa Hft Hread Hwrite. exists dst'. split; [done|].
rewrite bool_decide_false by done. simpl. rewrite Hfa, Hread.
unfold write_file, bind at 1, get_fs. rewrite Ht, <- Hfs, Hft, Hwrite. done.
Qed.

(** Whatever its outcome, [copy2] keeps the directories and writes at or
below its destination only. *)
Lemma copy2_effect src dst a b p w :
resolve (cwd env) src = Some a → resolve (cwd env) dst = Some b →
basename src = p → plain p = true →
let w' := (copy2 env src dst w).2 in
dirs_kept (w_fs w) (w_fs w') ∧ changes_under b (w_fs w) (w_fs w').
Proof.
intros Ha Hb Hp Hplain.
destruct (copy2 env src dst w) as [r w'] eqn:Hrun. simpl.
destruct (copy2_inv _ _ _ _ _ _ _ _ Ha Hb Hp Hplain Hrun)
  as [[-> _]|(_ & _ & Hnd & d & m & _ & ->)].
- split; [apply dirs_kept_refl|apply changes_under_refl].
- simpl. split.
  + by apply dirs_kept_insert_file.
  + eapply changes_under_weaken; [|apply changes_under_insert].
    destruct (is_dir (w_fs w) b); [by apply prefix_app_r|done].
Qed.

(** [os.makedirs] below a chain of directories: it refuses a leaf that
exists, and creates it otherwise. *)
Lemma os_makedirs_leaf path k w :
resolve (cwd env) path = Some k →
dirs_below (w_fs w) [] (removelast k) →
os_makedirs env path w =
  match w_fs w !! k with
  | Some _ => (Raise (OSError (Some EEXIST) path), w)
  | None => (Ok tt, World (<[k := Dir]> (w_fs w)) (w_log w))
  end.
Proof.
intros Hk Hchain. unfold os_makedirs, bind, get_fs. rewrite Hk.
unfold makedirs_key. destruct (w_fs w !! k); [done|].
by rewrite (ensure_dirs_existing _ _ _ Hchain).
Qed.

Lemma copystat_effect src dst b w :
resolve (cwd env) dst = Some b →
let w' := (copystat env src dst w).2 in
dirs_kept (w_fs w) (w_fs w') ∧ changes_under b (w_fs w) (w_fs w').
Proof.
intros Hb. unfold copystat, bind, get_fs. rewrite Hb.
assert (dirs_kept (w_fs w) (w_fs w) ∧ changes_under b (w_fs w) (w_fs w)) as Hsame
  by (split; [apply dirs_kept_refl|apply changes_under_refl]).
destruct (resolve (cwd env) src) as [a|]; [|done].
destruct (w_fs w !! a) as [[d m|]|] eqn:Hfa; [| |done].
- destruct (w_fs w !! b) as [[d' m'|]|] eqn:Hfb; [|done|done].
  cbn [put_fs snd w_fs]. split.
  + apply dirs_kept_insert_file. unfold is_dir. by rewrite Hfb.
  + apply changes_under_insert.
- by destruct (w_fs w !! b).
Qed.

(** The chain of directories down to [k], [k] included. *)
Lemma dirs_below_snoc fs k c :
dirs_below fs [] (k ++ [c]) ↔ dirs_below fs [] k ∧ fs !! (k ++ [c]) = Some Dir.
Proof. rewrite dirs_below_app. simpl. tauto. Qed.

Section CopyTree.
Variable rec : string → string → M unit.
Variables (src dst : string) (ksrc kdst : key).
Hypothesis Hsrc : resolve (cwd env) src = Some ksrc.
Hypothesis Hdst : resolve (cwd env) dst = Some kdst.
Hypothesis Hrec : ∀ name w,
  plain name = true →
  dirs_below (w_fs w) [] kdst →
  let w' := (rec (join src [name]) (join dst [name]) w).2 in
  dirs_kept (w_fs w) (w_fs w') ∧ changes_under (kdst ++ [name]) (w_fs w) (w_fs w').

(** The loop of [copytree] keeps the directories and writes below the
destination only, whatever happens to the single entries. *)
Lemma copytree_loop_effect names errors w :
Forall (λ n, plain n = true) names →
dirs_below (w_fs w) [] kdst →
let w' := (copytree_loop env rec src dst names errors w).2 in
dirs_kept (w_fs w) (w_fs w') ∧ changes_under kdst (w_fs w) (w_fs w').
Proof.
revert errors w. induction names as [|name names IH]; intros errors w Hplain Hchain.
{ split; [apply dirs_kept_refl|apply changes_under_refl]. }
apply Forall_cons in Hplain as [Hname Hplain].
cbn [copytree_loop]. cbv zeta.
set (step := try_except _ _).
assert (dirs_kept (w_fs w) (w_fs (step w).2) ∧
        changes_under (kdst ++ [name]) (w_fs w) (w_fs (step w).2)) as [Hk Hc].
{ unfold step. rewrite try_except_snd
    by (intros e m' He w1; by eapply copytree_handler_snd).
  rewrite (bind_ok _ _ _ _ _ (os_path_isdir_eq env _ w)).
  destruct (dir_at env (w_fs w) (join src [name])).
  - rewrite (bind_ret_snd (rec (join src [name]) (join dst [name])) errors w).
    by apply Hrec.
  - rewrite (bind_ret_snd (copy2 env (join src [name]) (join dst [name])) errors w).
    apply (copy2_effect _ _ (ksrc ++ [name]) (kdst ++ [name]) name).
    + by apply resolve_join.
    + by apply resolve_join.
    + by apply basename_join.
    + done. }
destruct (step w) as [[errors'|e] w1] eqn:Hstep; cbn [snd] in *.
- rewrite (bind_ok _ _ _ _ _ Hstep).
  assert (dirs_below (w_fs w1) [] kdst) as Hchain1 by (by eapply dirs_below_kept).
  destruct (IH errors' w1 Hplain Hchain1) as [Hk' Hc']. split.
  + by apply (dirs_kept_trans _ (w_fs w1)).
  + apply (changes_under_trans _ _ (w_fs w1)); [|done].
    apply (changes_under_weaken _ (kdst ++ [name])); [|done].
    by apply prefix_app_r.
- rewrite (bind_raise _ _ _ _ _ Hstep). cbn [snd].
  split; [done|]. apply (changes_under_weaken _ (kdst ++ [name])); [|done].
  by apply prefix_app_r.
Qed.

End CopyTree.

Lemma os_listdir_inv path w r w' :
os_listdir env path w = (r, w') →
w' = w ∧
∀ names, r = Ok names →
  ∃ k, resolve (cwd env) path = Some k ∧ is_dir (w_fs w) k = true ∧
       names = children (w_fs w) k.
Proof.
unfold os_listdir, bind, get_fs, is_dir.
destruct (resolve (cwd env) path) as [k|]; [|by intros [= <- <-]].
destruct (w_fs w !! k) as [[]|] eqn:Hk; intros [= <- <-]; split; try done.
intros names [= <-]. exists k. by rewrite Hk.
Qed.

Lemma os_listdir_dir path k w :
resolve (cwd env) path = Some k → is_dir (w_fs w) k = true →
os_listdir env path w = (Ok (children (w_fs w) k), w).
Proof.
intros Hk Hd. unfold os_listdir, bind, get_fs. rewrite Hk.
unfold is_dir in Hd. by destruct (w_fs w !! k) as [[]|].
Qed.

Lemma children_plain fs k : Forall (λ n, plain n = true) (children fs k).
Proof. apply Forall_forall. intros c Hc. by apply elem_of_children in Hc as [? _]. Qed.

(** [copytree] keeps the directories and writes at or below its
destination only, whatever its outcome; when it succeeds, the destination
was absent and is a directory afterwards. *)
Lemma copytree_depth_effect depth src dst kdst w :
resolve (cwd env) dst = Some kdst →
dirs_below (w_fs w) [] (removelast kdst) →
let r := copytree_depth env depth src dst w in
dirs_kept (w_fs w) (w_fs r.2) ∧ changes_under kdst (w_fs w) (w_fs r.2) ∧
(r.1 = Ok tt → w_fs w !! kdst = None ∧ is_dir (w_fs r.2) kdst = true).
Proof.
revert src dst kdst w.
induction depth as [|depth IH]; intros src dst kdst w Hdst Hchain.
{ cbn. split; [apply dirs_kept_refl|]. split; [apply changes_under_refl|done]. }
cbv zeta. cbn [copytree_depth].
assert (dirs_kept (w_fs w) (w_fs w) ∧ changes_under kdst (w_fs w) (w_fs w))
  as [Hrefl1 Hrefl2] by (split; [apply dirs_kept_refl|apply changes_under_refl]).
destruct (os_listdir env src w) as [[names|e] w0] eqn:Hls;
  apply os_listdir_inv in Hls as Hinv; destruct Hinv as [-> Hnames];
  [rewrite (bind_ok _ _ _ _ _ Hls)|by rewrite (bind_raise _ _ _ _ _ Hls)].
destruct (Hnames names eq_refl) as (ksrc & Hsrc & Hsrcdir & ->). clear Hnames.
pose proof (os_makedirs_leaf dst kdst w Hdst Hchain) as Hmk.
destruct (w_fs w !! kdst) as [n|] eqn:Hfree;
  [by rewrite (bind_raise _ _ _ _ _ Hmk)|rewrite (bind_ok _ _ _ _ _ Hmk)].
clear Hmk.
set (w1 := World (<[kdst := Dir]> (w_fs w)) (w_log w)).
assert (dirs_below (w_fs w1) [] kdst) as Hchain1.
{ destruct kdst as [|c k' _] using rev_ind; [done|].
  rewrite removelast_last in Hchain. apply dirs_below_snoc. split.
  - by apply dirs_below_insert_dir.
  - cbn. by rewrite lookup_insert_eq. }
assert (dirs_kept (w_fs w) (w_fs w1) ∧ changes_under kdst (w_fs w) (w_fs w1))
  as [Hk1 Hc1] by (split; [apply dirs_kept_insert_dir|apply changes_under_insert]).
assert (is_dir (w_fs w1) kdst = true) as Hd1
  by (unfold is_dir; cbn; by rewrite lookup_insert_eq).
pose proof (copytree_loop_effect (copytree_depth env depth) src dst ksrc kdst
              Hsrc Hdst) as Hloop.
specialize (Hloop (λ name w Hname Hch,
  let H := IH (join src [name]) (join dst [name]) (kdst ++ [name]) w
             (resolve_join _ _ _ _ Hdst Hname)
             ltac:(by rewrite removelast_last) in
  conj (proj1 H) (proj1 (proj2 H)))).
specialize (Hloop (children (w_fs w) ksrc) [] w1 (children_plain _ _) Hchain1).
cbv zeta in Hloop. destruct Hloop as [Hk2 Hc2].
set (loop := copytree_loop env (copytree_depth env depth) src dst
               (children (w_fs w) ksrc) []) in *.
assert (∀ w2, (w2 = (loop w1).2) →
        dirs_kept (w_fs w) (w_fs w2) ∧ changes_under kdst (w_fs w) (w_fs w2) ∧
        is_dir (w_fs w2) kdst = true) as Hafter.
{ intros w2 ->. split; [by apply (dirs_kept_trans _ (w_fs w1))|].
  split; [by apply (changes_under_trans _ _ (w_fs w1))|by apply Hk2]. }
destruct (loop w1) as [[errors|e] w2] eqn:Hrun.
2:{ rewrite (bind_raise _ _ _ _ _ Hrun). cbn [fst snd].
    destruct (Hafter w2 eq_refl) as (? & ? & ?). done. }
rewrite (bind_ok _ _ _ _ _ Hrun).
destruct (Hafter w2 eq_refl) as (Hk3 & Hc3 & Hd3).
set (stat := try_except _ _).
assert ((stat w2).2 = (copystat env src dst w2).2) as Hstat.
{ unfold stat. rewrite try_except_snd.
  - apply bind_ret_snd.
  - intros e m'. destruct e; try done. intros [= <-]. done. }
pose proof (copystat_effect src dst kdst w2 Hdst) as [Hk4 Hc4].
rewrite <- Hstat in Hk4, Hc4.
destruct (stat w2) as [[errs|e] w3] eqn:Hstat_run; cbn [snd] in *.
- rewrite (bind_ok _ _ _ _ _ Hstat_run).
  assert (∀ (m : M unit), (m w3).2 = w3 →
          dirs_kept (w_fs w) (w_fs (m w3).2) ∧
          changes_under kdst (w_fs w) (w_fs (m w3).2) ∧
          ((m w3).1 = Ok tt → (None : option node) = None ∧ is_dir (w_fs (m w3).2) kdst = true))
    as Hfin.
  { intros m ->. split; [by apply (dirs_kept_trans _ (w_fs w2))|].
    split; [by apply (changes_under_trans _ _ (w_fs w2))|].
    intros _. split; [done|]. by apply Hk4. }
  by destruct errs; apply Hfin.
- rewrite (bind_raise _ _ _ _ _ Hstat_run). cbn [fst snd].
  split; [by apply (dirs_kept_trans _ (w_fs w2))|].
  split; [by apply (changes_under_trans _ _ (w_fs w2))|done].
Qed.

(** The collision: [copytree] onto a destination that exists. *)
Lemma copytree_exists src dst ksrc kdst w :
resolve (cwd env) src = Some ksrc → is_dir (w_fs w) ksrc = true →
resolve (cwd env) dst = Some kdst →
dirs_below (w_fs w) [] (removelast kdst) →
is_Some (w_fs w !! kdst) →
copytree env src dst w = (Raise (OSError (Some EEXIST) dst), w).
Proof.
intros Hsrc Hsd Hdst Hchain [n Hn].
unfold copytree. change recursion_limit with (S 999). cbn [copytree_depth].
rewrite (bind_ok _ _ _ _ _ (os_listdir_dir src ksrc w Hsrc Hsd)).
pose proof (os_makedirs_leaf dst kdst w Hdst Hchain) as Hmk.
rewrite Hn in Hmk. by rewrite (bind_raise _ _ _ _ _ Hmk).
Qed.

Lemma prefix_snoc_inv {A} (l1 l2 : list A) x :
l1 `prefix_of` l2 ++ [x] → l1 = l2 ++ [x] ∨ l1 `prefix_of` l2.
Proof.
intros [k Hk]. destruct k as [|y k _] using rev_ind.
- left. by rewrite app_nil_r in Hk.
- right. rewrite app_assoc in Hk. apply app_inj_tail in Hk as [-> _].
  by apply prefix_app_r.
Qed.

Lemma dirs_below_prefix fs k k' :
dirs_below fs [] k → k' `prefix_of` k → k' ≠ [] → fs !! k' = Some Dir.
Proof.
intros Hchain [r ->] Hne. apply dirs_below_app in Hchain as [Hk' _].
by apply (dirs_below_last fs [] k').
Qed.

(** Two entries of a directory cannot both lie above one key. *)
Lemma prefix_entry_inj kd p q k :
kd ++ [p] `prefix_of` k → kd ++ [q] `prefix_of` k → p = q.
Proof.
intros [r1 ->] [r2 Heq]. rewrite <- !app_assoc in Heq.
apply app_inv_head in Heq. by injection Heq.
Qed.

Section CopyLoop.
Variables (src dest : string) (ks kd : key).
Hypothesis Hsrc : resolve (cwd env) src = Some ks.
Hypothesis Hdest : resolve (cwd env) dest = Some kd.

Lemma copy_target_under fs p : kd ++ [p] `prefix_of` copy_target fs kd p.
Proof.
unfold copy_target. destruct (is_dir fs (kd ++ [p])); [|done].
exists [p]. by rewrite <- app_assoc.
Qed.

(** One round of the loop of [copy_helper]. *)
Lemma copy_entry_spec p w r w' :
plain p = true →
dirs_below (w_fs w) [] kd →
copy_entry env src dest p w = (r, w') →
dirs_kept (w_fs w) (w_fs w') ∧
changes_under (kd ++ [p]) (w_fs w) (w_fs w') ∧
(r = Ok tt →
 if is_dir (w_fs w) (ks ++ [p])
 then w_fs w !! (kd ++ [p]) = None ∧ is_dir (w_fs w') (kd ++ [p]) = true
 else copied (w_fs w') ks kd p ∧
      ∃ n, w_fs w' = <[copy_target (w_fs w) kd p := n]> (w_fs w) ∧
           ks ++ [p] ≠ copy_target (w_fs w) kd p).
Proof.
intros Hp Hchain. unfold copy_entry. cbv zeta.
pose proof (resolve_join _ _ _ _ Hsrc Hp) as Ha.
pose proof (resolve_join _ _ _ _ Hdest Hp) as Hb.
rewrite (bind_ok _ _ _ _ _ (os_path_isdir_eq env _ w)).
unfold dir_at, lookup_path. rewrite Ha. fold (is_dir (w_fs w) (ks ++ [p])).
destruct (is_dir (w_fs w) (ks ++ [p])) eqn:Hdir.
- intros Hrun. unfold copytree in Hrun.
  pose proof (copytree_depth_effect recursion_limit (join src [p]) (join dest [p])
                (kd ++ [p]) w Hb ltac:(by rewrite removelast_last)) as Heff.
  cbv zeta in Heff. rewrite Hrun in Heff. cbn [fst snd] in Heff.
  destruct Heff as (Hk & Hc & Hok). done.
- intros Hrun.
  pose proof (copy2_effect _ _ _ _ p w Ha Hb (basename_join _ _ Hp) Hp) as Heff.
  cbv zeta in Heff. rewrite Hrun in Heff. cbn [snd] in Heff.
  destruct Heff as [Hk Hc]. split; [done|]. split; [done|].
  intros ->.
  destruct (copy2_inv _ _ _ _ p w _ _ Ha Hb (basename_join _ _ Hp) Hp Hrun)
    as [[_ [e He]]|(_ & Hne & Hnd & d & m & Hfa & ->)]; [done|].
  rewrite <- app_assoc in Hne, Hnd. cbn [app] in Hne, Hnd.
  fold (copy_target (w_fs w) kd p) in Hne, Hnd.
  cbn [w_fs]. rewrite <- app_assoc. cbn [app].
  fold (copy_target (w_fs w) kd p).
  split; [|eauto].
  assert (copy_target (<[copy_target (w_fs w) kd p := File d m]> (w_fs w)) kd p
          = copy_target (w_fs w) kd p) as Htarget.
  { unfold copy_target at 1. by rewrite is_dir_insert_file. }
  unfold copied. rewrite Htarget. split; [done|]. exists d, m.
  rewrite lookup_insert_ne by done. by rewrite lookup_insert_eq.
Qed.

(** A successful round leaves the entries of the source alone. *)
Lemma copy_entry_source p w w' c :
plain p = true →
dirs_below (w_fs w) [] kd → dirs_below (w_fs w) [] ks →
is_Some (w_fs w !! (ks ++ [p])) →
copy_entry env src dest p w = (Ok tt, w') →
w_fs w' !! (ks ++ [c]) = w_fs w !! (ks ++ [c]).
Proof.
intros Hp Hkd Hks Hex Hrun.
destruct (copy_entry_spec p w _ _ Hp Hkd Hrun) as (Hk & Hc & Hok).
specialize (Hok eq_refl).
destruct (decide (w_fs w' !! (ks ++ [c]) = w_fs w !! (ks ++ [c]))) as [|Hne];
  [done|exfalso].
destruct (is_dir (w_fs w) (ks ++ [p])) eqn:Hdir.
- destruct Hok as [Hfree _]. apply Hc in Hne.
  apply prefix_snoc_inv in Hne as [Heq|Hpre].
  + apply app_inj_tail in Heq as [-> ->]. rewrite Hfree in Hex. by destruct Hex.
  + rewrite (dirs_below_prefix _ _ _ Hks Hpre) in Hfree; [done|by destruct kd].
- destruct Hok as (_ & n & Hfs & Hsame). rewrite Hfs in Hne.
  destruct (decide (copy_target (w_fs w) kd p = ks ++ [c])) as [Heq|Hneq];
    [|by rewrite lookup_insert_ne in Hne].
  apply Hsame. rewrite Heq. f_equal. f_equal.
  pose proof (copy_target_under (w_fs w) p) as Hun. rewrite Heq in Hun.
  unfold copy_target in Heq. destruct (is_dir (w_fs w) (kd ++ [p])).
  + change [p; p] with ([p] ++ [p]) in Heq. rewrite app_assoc in Heq.
    by apply app_inj_tail in Heq as [_ ->].
  + by apply app_inj_tail in Heq as [_ ->].
Qed.

(** The loop of [copy_helper], when it succeeds: the entries of the source
are left alone, every write lies below the destination entry of a name of
the list, every directory of the list was absent at the destination and is
there now, and every file of the list has its copy. *)
Lemma copy_loop_spec names w w' :
NoDup names → Forall (λ p, plain p = true) names →
dirs_below (w_fs w) [] kd → dirs_below (w_fs w) [] ks →
(∀ p, p ∈ names → is_Some (w_fs w !! (ks ++ [p]))) →
for_each names (copy_entry env src dest) w = (Ok tt, w') →
dirs_kept (w_fs w) (w_fs w') ∧
(∀ c, w_fs w' !! (ks ++ [c]) = w_fs w !! (ks ++ [c])) ∧
(∀ k, w_fs w' !! k ≠ w_fs w !! k → ∃ p, p ∈ names ∧ kd ++ [p] `prefix_of` k) ∧
(∀ p, p ∈ names →
   if is_dir (w_fs w) (ks ++ [p])
   then w_fs w !! (kd ++ [p]) = None ∧ is_dir (w_fs w') (kd ++ [p]) = true
   else copied (w_fs w') ks kd p).
Proof.
revert w. induction names as [|p names IH]; intros w Hnd Hplain Hkd Hks Hex Hrun.
{ injection Hrun as <-. split; [apply dirs_kept_refl|]. split; [done|].
  split; [done|]. intros p Hp. by apply elem_of_nil in Hp. }
apply NoDup_cons in Hnd as [Hp_fresh Hnd].
apply Forall_cons in Hplain as [Hp Hplain].
cbn [for_each] in Hrun. apply bind_inv_ok in Hrun as ([] & wa & Hstep & Hrest).
destruct (copy_entry_spec p w _ _ Hp Hkd Hstep) as (Hk1 & Hc1 & Hok1).
specialize (Hok1 eq_refl).
assert (∀ c, w_fs wa !! (ks ++ [c]) = w_fs w !! (ks ++ [c])) as Hsrc1.
{ intros c. apply (copy_entry_source p); try done. apply Hex. by left. }
destruct (IH wa Hnd Hplain) as (Hk2 & Hsrc2 & Hc2 & Hall2); try done.
{ by apply (dirs_below_kept (w_fs w)). }
{ by apply (dirs_below_kept (w_fs w)). }
{ intros q Hq. rewrite Hsrc1. apply Hex. by right. }
(* what lies below the destination entry of [p] is not touched by the rest *)
assert (∀ k, kd ++ [p] `prefix_of` k → w_fs w' !! k = w_fs wa !! k) as Hkeep_p.
{ intros k Hpre.
  destruct (decide (w_fs w' !! k = w_fs wa !! k)) as [|Hne]; [done|exfalso].
  apply Hc2 in Hne as (q & Hq & Hpre').
  rewrite (prefix_entry_inj _ _ _ _ Hpre Hpre') in Hp_fresh. done. }
split; [by apply (dirs_kept_trans _ (w_fs wa))|].
split; [intros c; by rewrite Hsrc2, Hsrc1|].
split.
{ intros k Hne.
  destruct (decide (w_fs wa !! k = w_fs w !! k)) as [Heq|Hne1].
  - rewrite <- Heq in Hne. apply Hc2 in Hne as (q & Hq & Hpre).
    exists q. split; [by right|done].
  - exists p. split; [by left|by apply Hc1]. }
intros q Hq. apply elem_of_cons in Hq as [->|Hq].
- destruct (is_dir (w_fs w) (ks ++ [p])) eqn:Hdir.
  + destruct Hok1 as [Hfree Hd]. split; [done|]. by apply Hk2.
  + destruct Hok1 as [(Hne & d & m & Hfa & Hft) _].
    assert (copy_target (w_fs w') kd p = copy_target (w_fs wa) kd p) as Ht.
    { unfold copy_target, is_dir. by rewrite Hkeep_p. }
    unfold copied. rewrite Ht. split; [done|]. exists d, m.
    rewrite Hsrc2. split; [done|].
    rewrite Hkeep_p; [done|apply copy_target_under].
- specialize (Hall2 q Hq).
  assert (is_dir (w_fs wa) (ks ++ [q]) = is_dir (w_fs w) (ks ++ [q])) as Hsame
    by (unfold is_dir; by rewrite Hsrc1).
  rewrite Hsame in Hall2.
  destruct (is_dir (w_fs w) (ks ++ [q])); [|done].
  destruct Hall2 as [Hfree Hd]. split; [|done].
  destruct (decide (w_fs wa !! (kd ++ [q]) = w_fs w !! (kd ++ [q]))) as [Heq|Hne];
    [by rewrite <- Heq|exfalso].
  apply Hc1 in Hne. apply prefix_snoc_inv in Hne as [Heq|Hpre].
  + apply app_inj_tail in Heq as [_ ->]. done.
  + apply prefix_length in Hpre. rewrite length_app in Hpre. simpl in Hpre. lia.
Qed.

(** The files of the list, when the loop succeeds, are files that the
user may read. *)
Lemma copy_loop_readable names w w' :
NoDup names → Forall (λ p, plain p = true) names →
dirs_below (w_fs w) [] kd → dirs_below (w_fs w) [] ks →
(∀ p, p ∈ names → is_Some (w_fs w !! (ks ++ [p]))) →
for_each names (copy_entry env src dest) w = (Ok tt, w') →
∀ p d m, p ∈ names → w_fs w !! (ks ++ [p]) = Some (File d m) →
         may_read env m = true.
Proof.
revert w. induction names as [|p0 names IH]; intros w Hnd Hplain Hkd Hks Hex Hrun.
{ intros p d m Hp. by apply elem_of_nil in Hp. }
apply NoDup_cons in Hnd as [Hfresh Hnd].
apply Forall_cons in Hplain as [Hp0 Hplain].
cbn [for_each] in Hrun.
apply bind_inv_ok in Hrun as ([] & w1 & Hstep & Hrest).
destruct (copy_entry_spec p0 w _ _ Hp0 Hkd Hstep) as (Hk1 & _ & _).
assert (∀ c, w_fs w1 !! (ks ++ [c]) = w_fs w !! (ks ++ [c])) as Hsame.
{ intros c. apply (copy_entry_source p0); try done. apply Hex. by left. }
intros p d m [->|Hp]%elem_of_cons Hfile.
- revert Hstep. unfold copy_entry. cbv zeta.
  pose proof (resolve_join _ _ _ _ Hsrc Hp0) as Ha.
  pose proof (resolve_join _ _ _ _ Hdest Hp0) as Hb.
  rewrite (bind_ok _ _ _ _ _ (os_path_isdir_eq env _ w)).
  unfold dir_at, lookup_path. rewrite Ha, Hfile.
  apply (copy2_readable _ _ (ks ++ [p0]) (kd ++ [p0]) p0 w w1 d m Ha Hb
           (basename_join _ _ Hp0) Hp0 Hfile).
- apply (IH w1 Hnd Hplain) with (p := p) (d := d); try done.
  + by eapply dirs_below_kept.
  + by eapply dirs_below_kept.
  + intros q Hq. rewrite Hsame. apply Hex. by right.
  + by rewrite Hsame.
Qed.

(** Copying again the files that have their copies, and that the user may
read and write, changes nothing. *)
Lemma copy_loop_again names w :
Forall (λ p, plain p = true) names →
(∀ p, p ∈ names →
   is_dir (w_fs w) (ks ++ [p]) = false ∧
   read_only env (w_fs w) (ks ++ [p]) = false ∧ copied (w_fs w) ks kd p) →
(∀ p d m, p ∈ names → w_fs w !! (ks ++ [p]) = Some (File d m) →
          may_read env m = true) →
for_each names (copy_entry env src dest) w = (Ok tt, w).
Proof.
induction names as [|p names IH]; intros Hplain Hall Hread; [done|].
apply Forall_cons in Hplain as [Hp Hplain].
cbn [for_each]. rewrite (bind_ok _ _ w tt w).
- apply IH; [done| |].
  + intros q Hq. apply Hall. by right.
  + intros q d m Hq. apply Hread. by right.
- destruct (Hall p ltac:(by left)) as (Hdir & Hro & Hne & d & m & Hfa & Hft).
  unfold copy_entry. cbv zeta.
  pose proof (resolve_join _ _ _ _ Hsrc Hp) as Ha.
  pose proof (resolve_join _ _ _ _ Hdest Hp) as Hb.
  rewrite (bind_ok _ _ _ _ _ (os_path_isdir_eq env _ w)).
  unfold dir_at, lookup_path. rewrite Ha. fold (is_dir (w_fs w) (ks ++ [p])).
  rewrite Hdir.
  assert (may_write env m = true) as Hwrite.
  { unfold read_only in Hro. rewrite Hfa in Hro. by destruct (may_write env m). }
  apply (copy2_again _ _ (ks ++ [p]) (kd ++ [p]) p w d m Ha Hb
           (basename_join _ _ Hp) Hp).
  all: rewrite <- ?app_assoc; cbn [app]; fold (copy_target (w_fs w) kd p);
    try done.
  by apply (Hread p d m); [left|].
Qed.

(** Copying again a file that has its copy, and that the user may not
write to, is refused at the copy. *)
Lemma copy_entry_denied p w :
plain p = true →
is_dir (w_fs w) (ks ++ [p]) = false →
read_only env (w_fs w) (ks ++ [p]) = true → copied (w_fs w) ks kd p →
(∀ d m, w_fs w !! (ks ++ [p]) = Some (File d m) → may_read env m = true) →
∃ t, resolve (cwd env) t = Some (copy_target (w_fs w) kd p) ∧
     copy_entry env src dest p w = (Raise (IOError (Some EACCES) t), w).
Proof.
intros Hp Hdir Hro (Hne & d & m & Hfa & Hft) Hread.
unfold copy_entry. cbv zeta.
pose proof (resolve_join _ _ _ _ Hsrc Hp) as Ha.
pose proof (resolve_join _ _ _ _ Hdest Hp) as Hb.
rewrite (bind_ok _ _ _ _ _ (os_path_isdir_eq env _ w)).
unfold dir_at, lookup_path. rewrite Ha. fold (is_dir (w_fs w) (ks ++ [p])).
rewrite Hdir.
assert (may_write env m = false) as Hwrite.
{ unfold read_only in Hro. rewrite Hfa in Hro. by destruct (may_write env m). }
pose proof (copy2_denied _ _ (ks ++ [p]) (kd ++ [p]) p w d m Ha Hb
              (basename_join _ _ Hp) Hp) as Hdenied.
cbv zeta in Hdenied. rewrite <- !app_assoc in Hdenied. cbn [app] in Hdenied.
fold (copy_target (w_fs w) kd p) in Hdenied.
apply Hdenied; try done. by apply (Hread d m).
Qed.

End CopyLoop.

(** [setup_dir] on a directory that is there. *)
Lemma setup_dir_existing path k w :
resolve (cwd env) path = Some k → w_fs w !! k = Some Dir →
setup_dir env path false w = (Ok tt, w).
Proof.
intros Hp Hk. unfold setup_dir, bind, get_fs. by rewrite Hp, Hk.
Qed.

(** A successful [setup_dir] that takes the directory as it is. *)
Lemma setup_dir_dest path w w' :
wf (w_fs w) → setup_dir env path false w = (Ok tt, w') →
∃ k, resolve (cwd env) path = Some k ∧
     w_fs w' !! k = Some Dir ∧ dirs_below (w_fs w') [] k ∧
     dirs_kept (w_fs w) (w_fs w') ∧
     (∀ k', w_fs w' !! k' ≠ w_fs w !! k' → k' `prefix_of` k).
Proof.
intros Hwf. unfold setup_dir, bind at 1, get_fs.
destruct (resolve (cwd env) path) as [k|] eqn:Hp.
- destruct (w_fs w !! k) as [[|]|] eqn:Hk.
  + done.
  + cbn. unfold ret. intros [= <-]. exists k.
    split; [done|]. split; [done|]. split; [by apply wf_dirs_to|].
    split; [apply dirs_kept_refl|done].
  + intros (k' & Hp' & Hmk & Hlog)%os_makedirs_inv.
    rewrite Hp in Hp'. injection Hp' as <-.
    apply makedirs_key_spec in Hmk as (_ & Hdir & Hb & Hkeep & Hnew).
    exists k. split; [done|]. split; [done|]. split; [done|]. split.
    * intros k' Hk'. unfold is_dir in *.
      destruct (w_fs w !! k') as [[]|] eqn:E; try done.
      by rewrite (Hkeep _ _ E).
    * intros k' Hne. destruct (w_fs w !! k') as [n|] eqn:E.
      -- by rewrite (Hkeep _ _ E) in Hne.
      -- destruct (w_fs w' !! k') as [n|] eqn:E'; [|done].
         apply (Hnew k' E). by rewrite E'.
- intros (k' & Hp' & _)%os_makedirs_inv. congruence.
Qed.

(** A list splits at its first element that satisfies a test. *)
Lemma split_first {A} (f : A → bool) (l : list A) x :
x ∈ l → f x = true →
∃ l1 y l2, l = l1 ++ y :: l2 ∧ Forall (λ z, f z = false) l1 ∧ f y = true.
Proof.
intros Hx Hfx. induction l as [|a l IH]; [by apply elem_of_nil in Hx|].
destruct (f a) eqn:Hfa.
- exists [], a, l. by repeat split.
- apply elem_of_cons in Hx as [->|Hx]; [congruence|].
  destruct (IH Hx) as (l1 & y & l2 & -> & Hall & Hy).
  exists (a :: l1), y, l2. repeat split; [by constructor|done].
Qed.

Lemma subdirs_nil fs ks :
subdirs fs ks = [] ↔ ∀ p, p ∈ children fs ks → is_dir fs (ks ++ [p]) = false.
Proof.
unfold subdirs. split.
- intros H p Hp. destruct (is_dir fs (ks ++ [p])) eqn:Hd; [|done].
  by destruct (filter_nil_not_elem_of _ _ p H).
- intros H. apply elem_of_nil_inv. intros p [Hd Hp]%list_elem_of_filter.
  rewrite (H p Hp) in Hd. done.
Qed.

Lemma dir_at_inv fs path :
dir_at env fs path = true →
∃ k, resolve (cwd env) path = Some k ∧ fs !! k = Some Dir.
Proof.
unfold dir_at, lookup_path. destruct (resolve (cwd env) path) as [k|]; [|done].
destruct (fs !! k) as [[]|] eqn:Hk; try done. eauto.
Qed.

(** [copy_helper] on a source and a destination that are directories is the
loop over the listing of the source. *)
Lemma copy_helper_dirs src dest ks kd w :
resolve (cwd env) src = Some ks → w_fs w !! ks = Some Dir →
resolve (cwd env) dest = Some kd → w_fs w !! kd = Some Dir →
copy_helper env (Some src) dest w =
for_each (children (w_fs w) ks) (copy_entry env src dest) w.
Proof.
intros Hs Hsd Hd Hdd. unfold copy_helper, os_path_isdir_value.
rewrite (bind_ok _ _ _ _ _ (os_path_isdir_eq env _ w)).
unfold dir_at, lookup_path. rewrite Hs, Hsd. cbn [negb].
rewrite (bind_ok _ _ _ _ _ (setup_dir_existing dest kd w Hd Hdd)).
rewrite (bind_ok _ _ _ _ _ (os_listdir_dir src ks w Hs ltac:(by unfold is_dir; rewrite Hsd))).
done.
Qed.

Lemma blocking_nil fs ks :
blocking env fs ks = [] ↔
∀ p, p ∈ children fs ks →
     is_dir fs (ks ++ [p]) = false ∧ read_only env fs (ks ++ [p]) = false.
Proof.
unfold blocking. split.
- intros H p Hp.
  destruct (is_dir fs (ks ++ [p]) || read_only env fs (ks ++ [p])) eqn:Hb.
  + by destruct (filter_nil_not_elem_of _ _ p H).
  + by apply orb_false_iff in Hb.
- intros H. apply elem_of_nil_inv. intros p [Hb Hp]%list_elem_of_filter.
  destruct (H p Hp) as [H1 H2]. by rewrite H1, H2 in Hb.
Qed.

(** C2, as amended. Whenever a first [copy_helper(src, dest)] succeeds:
every top-level subdirectory of the source was absent at the destination
and is there now; every top-level file of the source has its copy, content
and metadata, at the destination; and a second call with the same
arguments succeeds, changing nothing, exactly when the source has no
top-level subdirectory and no top-level file that the user may not write
to.  Otherwise it stops, the file system unchanged, at one such entry
of the listing: on a subdirectory with the collision of [copytree],
the directory being at the destination; on a file with the refusal of
[open], the copy carrying the mode of its source. *)
Theorem C2_copy_helper_twice src dest w :
wf (w_fs w) →
(copy_helper env (Some src) dest w).1 = Ok tt →
let w1 := (copy_helper env (Some src) dest w).2 in
let r2 := copy_helper env (Some src) dest w1 in
∃ ks kd,
  resolve (cwd env) src = Some ks ∧ resolve (cwd env) dest = Some kd ∧
  (∀ p, p ∈ children (w_fs w1) ks →
     if is_dir (w_fs w1) (ks ++ [p])
     then w_fs w !! (kd ++ [p]) = None ∧ is_dir (w_fs w1) (kd ++ [p]) = true
     else copied (w_fs w1) ks kd p) ∧
  (r2.1 = Ok tt ↔ blocking env (w_fs w1) ks = []) ∧
  (blocking env (w_fs w1) ks = [] → r2 = (Ok tt, w1)) ∧
  (blocking env (w_fs w1) ks ≠ [] →
   ∃ p, p ∈ blocking env (w_fs w1) ks ∧ r2.2 = w1 ∧
        if is_dir (w_fs w1) (ks ++ [p])
        then r2.1 = Raise (OSError (Some EEXIST) (join dest [p]))
        else ∃ t, resolve (cwd env) t = Some (copy_target (w_fs w1) kd p) ∧
                  r2.1 = Raise (IOError (Some EACCES) t)).
Proof.
intros Hwf Hok. cbv zeta.
destruct (copy_helper env (Some src) dest w) as [r1 w1] eqn:Hrun.
cbn [fst snd] in *. subst r1.
unfold copy_helper, os_path_isdir_value in Hrun.
rewrite (bind_ok _ _ _ _ _ (os_path_isdir_eq env _ w)) in Hrun.
destruct (dir_at env (w_fs w) src) eqn:Hsd; [|done]. cbn [negb] in Hrun.
apply dir_at_inv in Hsd as (ks & Hs & Hsdir).
apply bind_inv_ok in Hrun as ([] & w0 & Hsetup & Hrun).
apply bind_inv_ok in Hrun as (names & w0' & Hls & Hloop).
apply setup_dir_dest in Hsetup as (kd & Hd & Hddir & Hchain_d & Hkept0 & Hframe0);
  [|done].
apply os_listdir_inv in Hls as [-> Hnames].
destruct (Hnames names eq_refl) as (ks' & Hs' & Hsdir0 & ->). clear Hnames.
rewrite Hs in Hs'. injection Hs' as <-.
assert (dirs_below (w_fs w0) [] ks) as Hchain_s.
{ apply (dirs_below_kept (w_fs w)); [done|]. by apply wf_dirs_to. }
destruct (copy_loop_spec src dest ks kd Hs Hd (children (w_fs w0) ks) w0 w1)
  as (Hkept1 & Hsrc1 & Hframe1 & Hall1); try done.
{ apply NoDup_children. }
{ apply children_plain. }
{ intros p Hp. by apply elem_of_children in Hp as [_ ?]. }
(* the listing of the source is the same after the first call *)
assert (∀ p, p ∈ children (w_fs w1) ks ↔ p ∈ children (w_fs w0) ks) as Hlist.
{ intros p. by rewrite !elem_of_children, Hsrc1. }
assert (∀ p, is_dir (w_fs w1) (ks ++ [p]) = is_dir (w_fs w0) (ks ++ [p])) as Hkind.
{ intros p. unfold is_dir. by rewrite Hsrc1. }
assert (w_fs w1 !! ks = Some Dir) as Hsdir1.
{ specialize (Hkept1 ks Hsdir0). unfold is_dir in Hkept1.
  by destruct (w_fs w1 !! ks) as [[]|]. }
assert (w_fs w1 !! kd = Some Dir) as Hddir1.
{ assert (is_dir (w_fs w0) kd = true) as H0 by (unfold is_dir; by rewrite Hddir).
  specialize (Hkept1 kd H0). unfold is_dir in Hkept1.
  by destruct (w_fs w1 !! kd) as [[]|]. }
assert (∀ p, p ∈ children (w_fs w1) ks →
          if is_dir (w_fs w1) (ks ++ [p])
          then w_fs w0 !! (kd ++ [p]) = None ∧ is_dir (w_fs w1) (kd ++ [p]) = true
          else copied (w_fs w1) ks kd p) as Hdone.
{ intros p Hp. rewrite Hkind. apply Hall1. by apply Hlist. }
rewrite (copy_helper_dirs src dest ks kd w1 Hs Hsdir1 Hd Hddir1).
exists ks, kd. split; [done|]. split; [done|].
split.
{ intros p Hp. specialize (Hdone p Hp).
  destruct (is_dir (w_fs w1) (ks ++ [p])); [|done].
  destruct Hdone as [Hfree Hdir]. split; [|done].
  destruct (decide (w_fs w0 !! (kd ++ [p]) = w_fs w !! (kd ++ [p]))) as [Heq|Hne];
    [by rewrite <- Heq|exfalso].
  apply Hframe0 in Hne. apply prefix_length in Hne.
  rewrite length_app in Hne. simpl in Hne. lia. }
assert (∀ p d m, p ∈ children (w_fs w1) ks →
          w_fs w1 !! (ks ++ [p]) = Some (File d m) → may_read env m = true)
  as Hreadable.
{ intros p d m Hp Hfile. rewrite Hsrc1 in Hfile.
  apply (copy_loop_readable src dest ks kd Hs Hd (children (w_fs w0) ks) w0 w1)
    with (p := p) (d := d); try done.
  - apply NoDup_children.
  - apply children_plain.
  - intros q Hq. by apply elem_of_children in Hq as [_ ?].
  - by apply Hlist. }
set (stops := λ c, is_dir (w_fs w1) (ks ++ [c])
                   || read_only env (w_fs w1) (ks ++ [c])).
assert (∀ names, Forall (λ p, plain p = true) names →
          (∀ p, p ∈ names → p ∈ children (w_fs w1) ks) →
          Forall (λ p, stops p = false) names →
          for_each names (copy_entry env src dest) w1 = (Ok tt, w1)) as Hagain.
{ intros names Hplain Hin Hfree.
  apply (copy_loop_again src dest ks kd Hs Hd); [done| |].
  - intros p Hp. rewrite Forall_forall in Hfree.
    pose proof (Hfree p Hp) as Hstop. unfold stops in Hstop.
    apply orb_false_iff in Hstop as [Hnd Hro].
    split; [done|]. split; [done|].
    specialize (Hdone p (Hin p Hp)). by rewrite Hnd in Hdone.
  - intros p d m Hp. apply Hreadable. by apply Hin. }
assert (blocking env (w_fs w1) ks = [] →
        for_each (children (w_fs w1) ks) (copy_entry env src dest) w1 = (Ok tt, w1))
  as Hnone.
{ intros Hb. apply Hagain; [apply children_plain|done|].
  apply Forall_forall. intros p Hp.
  destruct (proj1 (blocking_nil _ _) Hb p Hp) as [H1 H2].
  unfold stops. by rewrite H1, H2. }
assert (blocking env (w_fs w1) ks ≠ [] →
        ∃ p, p ∈ blocking env (w_fs w1) ks ∧
             (for_each (children (w_fs w1) ks) (copy_entry env src dest) w1).2 = w1 ∧
             if is_dir (w_fs w1) (ks ++ [p])
             then (for_each (children (w_fs w1) ks) (copy_entry env src dest) w1).1
                  = Raise (OSError (Some EEXIST) (join dest [p]))
             else ∃ t, resolve (cwd env) t = Some (copy_target (w_fs w1) kd p) ∧
                       (for_each (children (w_fs w1) ks) (copy_entry env src dest)
                          w1).1 = Raise (IOError (Some EACCES) t)) as Hsome.
{ intros Hb.
  destruct (blocking env (w_fs w1) ks) as [|d0 rest0] eqn:Hbs; [done|].
  assert (d0 ∈ blocking env (w_fs w1) ks) as Hd0 by (rewrite Hbs; by left).
  unfold blocking in Hd0. apply list_elem_of_filter in Hd0 as [Hd0stop Hd0in].
  destruct (split_first stops _ d0 Hd0in Hd0stop)
    as (F & d & rest & Hsplit & HF & Hstop).
  assert (d ∈ children (w_fs w1) ks) as Hdin
    by (rewrite Hsplit; apply elem_of_app; right; by left).
  exists d. split.
  { rewrite <- Hbs. unfold blocking. by apply list_elem_of_filter. }
  pose proof (children_plain (w_fs w1) ks) as Hplain.
  rewrite Hsplit in Hplain. apply Forall_app in Hplain as [HplainF Hplaind].
  apply Forall_cons in Hplaind as [Hplaind _].
  rewrite Hsplit.
  rewrite (for_each_app F (d :: rest) _ w1 w1).
  2:{ apply Hagain; [done| |done].
      intros p Hp. rewrite Hsplit. apply elem_of_app. by left. }
  cbn [for_each].
  destruct (is_dir (w_fs w1) (ks ++ [d])) eqn:Hddir'.
  - assert (copy_entry env src dest d w1 =
            (Raise (OSError (Some EEXIST) (join dest [d])), w1)) as Hstep.
    { unfold copy_entry. cbv zeta.
      rewrite (bind_ok _ _ _ _ _ (os_path_isdir_eq env _ w1)).
      unfold dir_at, lookup_path. rewrite (resolve_join _ _ _ _ Hs Hplaind).
      fold (is_dir (w_fs w1) (ks ++ [d])). rewrite Hddir'.
      apply (copytree_exists _ _ (ks ++ [d]) (kd ++ [d])).
      - by apply resolve_join.
      - done.
      - by apply resolve_join.
      - rewrite removelast_last. by apply (dirs_below_kept (w_fs w0)).
      - specialize (Hdone d Hdin). rewrite Hddir' in Hdone.
        destruct Hdone as [_ Hex]. unfold is_dir in Hex.
        destruct (w_fs w1 !! (kd ++ [d])); [eauto|done]. }
    by rewrite (bind_raise _ _ _ _ _ Hstep).
  - unfold stops in Hstop. rewrite Hddir' in Hstop. cbn [orb] in Hstop.
    specialize (Hdone d Hdin). rewrite Hddir' in Hdone.
    destruct (copy_entry_denied src dest ks kd Hs Hd d w1 Hplaind Hddir' Hstop
                Hdone) as (t & Ht & Hstep).
    { intros d' m'. by apply Hreadable. }
    rewrite (bind_raise _ _ _ _ _ Hstep). cbn [fst snd]. eauto. }
split; [|split; [done|done]].
split.
- intros Hok2. destruct (blocking env (w_fs w1) ks) as [|d0 rest0] eqn:Hbs; [done|].
  destruct Hsome as (d & _ & _ & Hfail); [done|].
  destruct (is_dir (w_fs w1) (ks ++ [d])).
  + by rewrite Hfail in Hok2.
  + destruct Hfail as (t & _ & Hfail). by rewrite Hfail in Hok2.
- intros Hb. by rewrite (Hnone Hb).
Qed.

End CopyHelper.

Lemma C2_witness :
Fs.wf (w_fs Sample.w_with_copy) ∧
(copy_helper Sample.posix_env (Some "/usr/share/couchapp/templates/functions")
   "/home/u/fn" Sample.w_with_copy).1 = Ok tt ∧
let w1 := (copy_helper Sample.posix_env
             (Some "/usr/share/couchapp/templates/functions") "/home/u/fn"
             Sample.w_with_copy).2 in
let r2 := copy_helper Sample.posix_env
            (Some "/usr/share/couchapp/templates/functions") "/home/u/fn" w1 in
∃ ks kd,
  Fs.resolve (cwd Sample.posix_env) "/usr/share/couchapp/templates/functions"
    = Some ks ∧
  Fs.resolve (cwd Sample.posix_env) "/home/u/fn" = Some kd ∧
  (∀ p, p ∈ Fs.children (w_fs w1) ks →
     if Fs.is_dir (w_fs w1) (ks ++ [p])
     then w_fs Sample.w_with_copy !! (kd ++ [p]) = None ∧
          Fs.is_dir (w_fs w1) (kd ++ [p]) = true
     else copied (w_fs w1) ks kd p) ∧
  (r2.1 = Ok tt ↔ blocking Sample.posix_env (w_fs w1) ks = []) ∧
  (blocking Sample.posix_env (w_fs w1) ks = [] → r2 = (Ok tt, w1)) ∧
  (blocking Sample.posix_env (w_fs w1) ks ≠ [] →
   ∃ p, p ∈ blocking Sample.posix_env (w_fs w1) ks ∧ r2.2 = w1 ∧
        if Fs.is_dir (w_fs w1) (ks ++ [p])
        then r2.1 = Raise (OSError (Some EEXIST) (PosixPath.join "/home/u/fn" [p]))
        else ∃ t, Fs.resolve (cwd Sample.posix_env) t
                    = Some (copy_target (w_fs w1) kd p) ∧
                  r2.1 = Raise (IOError (Some EACCES) t)).
Proof.
assert (Fs.wf (w_fs Sample.w_with_copy)) as Hwf.
{ apply wfb_wf. vm_compute. reflexivity. }
assert ((copy_helper Sample.posix_env
           (Some "/usr/share/couchapp/templates/functions") "/home/u/fn"
           Sample.w_with_copy).1 = Ok tt) as Hok.
{ vm_compute. reflexivity. }
split; [exact Hwf|]. split; [exact Hok|].
exact (C2_copy_helper_twice Sample.posix_env
         "/usr/share/couchapp/templates/functions" "/home/u/fn"
         Sample.w_with_copy Hwf Hok).
Defined.

(** The claim as worded fails where the destination is the source: the
source has no top-level subdirectory, and the first call stops at its first
file, which [shutil.copyfile] refuses to copy onto itself. *)
Lemma C2_counterexample :
let src := "/usr/share/couchapp/templates/functions" in
let r1 := copy_helper Sample.posix_env (Some src) src Sample.w0 in
dir_at Sample.posix_env (w_fs Sample.w0) src = true ∧
Fs.children (w_fs Sample.w0)
  ["usr"; "share"; "couchapp"; "templates"; "functions"] =
  ["map.js"; "foo.js"; "reduce.js"] ∧
subdirs (w_fs Sample.w0)
  ["usr"; "share"; "couchapp"; "templates"; "functions"] = [] ∧
r1.1 = Raise (ShutilError
                [("/usr/share/couchapp/templates/functions/map.js",
                  "/usr/share/couchapp/templates/functions/map.js",
                  "are the same file")]).
Proof. by vm_compute. Qed.

(** A file of the same name at the destination is overwritten, content and
metadata, and the second call succeeds as the first. *)
Example copy_helper_overwrites :
let src := "/usr/share/couchapp/templates/functions" in
let r1 := copy_helper Sample.posix_env (Some src) "/home/u/fn"
            Sample.w_with_copy in
let r2 := copy_helper Sample.posix_env (Some src) "/home/u/fn" r1.2 in
w_fs Sample.w_with_copy !! ["home"; "u"; "fn"; "map.js"] =
  Some (File "old" (Meta 384 1)) ∧
r1.1 = Ok tt ∧
w_fs r1.2 !! ["home"; "u"; "fn"; "map.js"] =
  Some (File "function(doc){}" (Meta 420 9)) ∧
r2.1 = Ok tt.
Proof. by vm_compute. Qed.

(** A source with a file that lacks the write bit: the copy carries the
mode, and the second call, by a user who is not root, is refused at the
copy. *)
Example copy_helper_read_only :
let r1 := copy_helper Sample.posix_env (Some "/home/u/ro") "/home/u/out"
            Sample.w_read_only in
let r2 := copy_helper Sample.posix_env (Some "/home/u/ro") "/home/u/out" r1.2 in
r1.1 = Ok tt ∧
w_fs r1.2 !! ["home"; "u"; "out"; "LICENSE"] = Some (File "MIT" (Meta 292 5)) ∧
subdirs (w_fs r1.2) ["home"; "u"; "ro"] = [] ∧
blocking Sample.posix_env (w_fs r1.2) ["home"; "u"; "ro"] = ["LICENSE"] ∧
r2.1 = Raise (IOError (Some EACCES) "/home/u/out/LICENSE").
Proof. by vm_compute. Qed.

(** A source with a top-level subdirectory: the second call stops at the
subdirectory that the first call has copied. *)
Example copy_helper_collision :
let src := "/usr/share/couchapp/templates/app" in
let r1 := copy_helper Sample.posix_env (Some src) "/home/u/a2" Sample.w0 in
let r2 := copy_helper Sample.posix_env (Some src) "/home/u/a2" r1.2 in
r1.1 = Ok tt ∧
subdirs (w_fs r1.2) ["usr"; "share"; "couchapp"; "templates"; "app"] =
  ["_attachments"] ∧
r2.1 = Raise (OSError (Some EEXIST) "/home/u/a2/_attachments").
Proof. by vm_compute. Qed.

(** * Further properties of the module *)

(** ** The resolver, the generator and [save_id] *)

Section ResolverMore.
Variable env : Env.
Import Str PosixPath Fs.

Lemma find_template_dir_not_found_eq tmpl_name tmpl_type raise_error w :
tmpl_type ∈ "" :: TEMPLATE_TYPES →
no_template env (w_fs w) tmpl_name tmpl_type →
find_template_dir env tmpl_name tmpl_type raise_error w =
  if raise_error
  then (Raise (AppError ("template " +:+ dq +:+ norm_name tmpl_name +:+ "/"
                         +:+ tmpl_type +:+ dq +:+ " not found.")),
        add_log (probed env tmpl_name tmpl_type w)
          (INFO, "please use " +:+ dq +:+ "-d" +:+ dq
                 +:+ " to checkout search paths."))
  else (Ok None, probed env tmpl_name tmpl_type w).
Proof.
intros Hty Hno. unfold find_template_dir.
assert (truthy tmpl_type && negb (bool_decide (tmpl_type ∈ TEMPLATE_TYPES))
        = false) as ->.
{ apply elem_of_cons in Hty as [->|Hty]; [done|].
  rewrite bool_decide_true by done. by rewrite andb_false_r. }
fold (norm_name tmpl_name).
destruct (find_first env (norm_name tmpl_name) tmpl_type (search_paths env) w)
  as [r1 w1] eqn:Hff.
pose proof Hff as Hspec. apply find_first_spec in Hspec as [Hfs Hspec].
assert (r1 = Ok None ∧ w1 = probed env tmpl_name tmpl_type w) as [-> ->].
{ destruct r1 as [[p|]|e]; [| |done].
  - destruct Hspec as (before & root & after & Hsp & -> & Hdir & _).
    unfold no_template in Hno. rewrite Hsp in Hno.
    apply Forall_app in Hno as [_ Hno]. apply Forall_cons in Hno as [Hno _].
    unfold probe_path in Hno. congruence.
  - destruct Hspec as [_ Hlog]. split; [done|].
    destruct w1 as [fs1 log1]. unfold probed. simpl in *. by subst. }
rewrite (bind_ok _ _ _ _ _ Hff).
by destruct raise_error.
Qed.

(** X1. When no search root has the template, the resolver has looked at
every root, in order, leaving one trace line for each; it then answers
[None], or, when asked to raise, logs the hint about [-d] and raises the
not-found error that names the template. *)
Theorem find_template_dir_not_found tmpl_name tmpl_type raise_error w :
tmpl_type ∈ "" :: TEMPLATE_TYPES →
no_template env (w_fs w) tmpl_name tmpl_type →
find_template_dir env tmpl_name tmpl_type raise_error w =
  if raise_error
  then (Raise (AppError ("template " +:+ dq +:+ norm_name tmpl_name +:+ "/"
                         +:+ tmpl_type +:+ dq +:+ " not found.")),
        add_log (probed env tmpl_name tmpl_type w)
          (INFO, "please use " +:+ dq +:+ "-d" +:+ dq
                 +:+ " to checkout search paths."))
  else (Ok None, probed env tmpl_name tmpl_type w).
Proof. apply find_template_dir_not_found_eq. Qed.

(** X2. The resolver fails in two ways only.  A template type that is
neither empty nor one of [app], [functions], [vendor] is refused before
anything is looked at, the world unchanged; and any other failure is the
not-found error, raised when the caller asked for it and no search root
has the template. *)
Theorem find_template_dir_failures tmpl_name tmpl_type raise_error w :
let r := find_template_dir env tmpl_name tmpl_type raise_error w in
let invalid :=
  AppError ("invalid template type " +:+ dq +:+ tmpl_type +:+ dq) in
let missing :=
  AppError ("template " +:+ dq +:+ norm_name tmpl_name +:+ "/" +:+ tmpl_type
            +:+ dq +:+ " not found.") in
(tmpl_type ≠ "" → (tmpl_type ∉ TEMPLATE_TYPES) → r = (Raise invalid, w)) ∧
(∀ e, r.1 = Raise e →
   (tmpl_type ≠ "" ∧ (tmpl_type ∉ TEMPLATE_TYPES) ∧ e = invalid) ∨
   (tmpl_type ∈ "" :: TEMPLATE_TYPES ∧ raise_error = true ∧
    no_template env (w_fs w) tmpl_name tmpl_type ∧ e = missing)).
Proof.
cbv zeta.
assert (tmpl_type ≠ "" → tmpl_type ∉ TEMPLATE_TYPES →
        find_template_dir env tmpl_name tmpl_type raise_error w =
          (Raise (AppError ("invalid template type " +:+ dq +:+ tmpl_type +:+ dq)),
           w)) as Hinvalid.
{ intros Hne Hty. unfold find_template_dir.
  rewrite bool_decide_false by done. destruct tmpl_type; [done|]. reflexivity. }
split; [done|]. intros e He.
destruct (decide (tmpl_type ∈ "" :: TEMPLATE_TYPES)) as [Hty|Hty].
- right.
  pose proof (find_template_dir_spec env tmpl_name tmpl_type raise_error w Hty)
    as [_ Hm].
  rewrite He in Hm. destruct Hm as (-> & Hno & ->). done.
- left.
  assert (tmpl_type ≠ "") as Hne by (intros ->; apply Hty; by left).
  assert (tmpl_type ∉ TEMPLATE_TYPES) as Hnt by (intros H; apply Hty; by right).
  rewrite (Hinvalid Hne Hnt) in He. injection He as <-. done.
Qed.

End ResolverMore.

Section GenerateMore.
Variable env : Env.
Import Str PosixPath Fs.

Lemma only_dirs_added_refl fs : only_dirs_added fs fs.
Proof. split; [done|]. intros k Hk [n Hn]. congruence. Qed.

Lemma only_dirs_added_eq fs fs' : fs' = fs → only_dirs_added fs fs'.
Proof. intros ->. apply only_dirs_added_refl. Qed.

Lemma os_makedirs_raise p w e w' :
os_makedirs env p w = (Raise e, w') → w' = w.
Proof.
unfold os_makedirs, bind, get_fs.
destruct (resolve (cwd env) p) as [k|]; [|by intros [= _ <-]].
destruct (makedirs_key k (w_fs w)) as [e'|fs']; [by intros [= _ <-]|done].
Qed.

(** [try: os.makedirs(p) except: pass] never fails, logs nothing, and
adds directories at most. *)
Lemma try_makedirs_effect p w :
∃ w', try_makedirs env p w = (Ok tt, w') ∧ w_log w' = w_log w ∧
      only_dirs_added (w_fs w) (w_fs w').
Proof.
unfold try_makedirs, try_except.
destruct (os_makedirs env p w) as [[[]|e] w'] eqn:H.
- exists w'. split; [done|].
  apply os_makedirs_inv in H as (k & _ & Hmk & Hlog). split; [done|].
  apply makedirs_key_spec in Hmk as (_ & _ & _ & Hkeep & Hnew).
  split; [done|]. intros k' Hnone Hsome. by apply Hnew.
- apply os_makedirs_raise in H as ->. exists w. split; [done|].
  split; [done|]. apply only_dirs_added_refl.
Qed.

(** The lookup of [generate_function] is the resolver on [lookup_name]. *)
Lemma generate_function_lookup template w :
(if truthy_value template
 then parts <- split_value template ;;
      find_template_dir env (join_star parts) "" false
 else find_template_dir env "default" "" false) w =
find_template_dir env (lookup_name template) "" false w.
Proof.
destruct template as [t|]; simpl; [|done]. by destruct (truthy t).
Qed.

(** The resolver does not raise when it is not asked to. *)
Lemma find_template_dir_no_raise tmpl_name w e w1 :
find_template_dir env tmpl_name "" false w ≠ (Raise e, w1).
Proof.
intros H.
pose proof (find_template_dir_spec env tmpl_name "" false w ltac:(left))
  as [_ Hm].
rewrite H in Hm. simpl in Hm. by destruct Hm.
Qed.

(** The copies of [generate_function] log one warning each and nothing
else. *)
Lemma for_each_copy_function_log d fp path functions w :
for_each functions (copy_function env d fp path) w =
(Ok tt,
 World (w_fs w)
   (w_log w ++ map (λ f, (WARNING, f.1 +:+ " not found in " +:+ join d fp))
                   functions)).
Proof.
revert w. induction functions as [|[t g] fs IH]; intros w.
- simpl. rewrite app_nil_r. by destruct w.
- cbn [for_each].
  rewrite (bind_ok _ _ w tt (add_log w (WARNING, t +:+ " not found in " +:+ join d fp))).
  + rewrite IH. unfold add_log. cbn [w_fs w_log map fst].
    by rewrite <- app_assoc.
  + by rewrite copy_function_attempt.
Qed.

Lemma os_path_exists_eq p w :
os_path_exists env p w = (Ok (exists_at env (w_fs w) p), w).
Proof. reflexivity. Qed.

(** The end of [generate_function] (lines 157 to 170). *)
Lemma generate_function_tail d fp p functions w1 :
(try_makedirs env p ;; for_each functions (copy_function env d fp p)) w1 =
let w2 := (try_makedirs env p w1).2 in
(Ok tt,
 World (w_fs w2)
   (w_log w2 ++ map (λ f, (WARNING, f.1 +:+ " not found in " +:+ join d fp))
                    functions)).
Proof.
destruct (try_makedirs_effect p w1) as (w2 & Hmk & _).
rewrite (bind_ok _ _ _ _ _ Hmk). rewrite Hmk. cbn [snd].
apply for_each_copy_function_log.
Qed.

(** What [generate_function] does once the template directory [d] is
found, for a kind that is not [vendor]: the check of the view, the
directory of the target, one warning for each skeleton. *)
Lemma generate_function_found path kind name template w d w1 :
kind ≠ "vendor" →
find_template_dir env (lookup_name template) "" false w = (Ok (Some d), w1) →
let fp := if truthy_value template then [] else ["functions"] in
let target :=
  if bool_decide (kind = "view") then join path [kind +:+ "s"; name]
  else if bool_decide (kind = "function") then path
  else if bool_decide (kind = "spatial") then join path ["spatial"]
  else join path [kind +:+ "s"] in
generate_function env path kind name template w =
  if bool_decide (kind = "view") && exists_at env (w_fs w1) target
  then (Raise (AppError ("The view " +:+ name +:+ " already exists")), w1)
  else
    let w2 := (try_makedirs env target w1).2 in
    (Ok tt,
     World (w_fs w2)
       (w_log w2 ++ map (λ t, (WARNING, t +:+ " not found in " +:+ join d fp))
                        (skeletons kind name))).
Proof.
intros Hk Hfind fp target.
pose proof (find_template_dir_truthy _ _ _ _ _ _ Hfind) as Hd.
unfold generate_function.
pose proof (generate_function_lookup template w) as Hl. rewrite Hfind in Hl.
rewrite (bind_ok _ _ _ _ _ Hl). rewrite Hd. cbn [negb].
rewrite (bool_decide_false (kind = "vendor")) by done.
fold fp. subst target. unfold skeletons.
case_bool_decide as Hview.
- cbn [andb].
  destruct (exists_at env (w_fs w1) (join path [kind +:+ "s"; name])) eqn:He.
  + apply bind_raise.
    rewrite (bind_ok _ _ _ _ _ (os_path_exists_eq _ w1)). by rewrite He.
  + rewrite (bind_ok _ _ w1 (join path [kind +:+ "s"; name],
                              [("map.js", "map.js"); ("reduce.js", "reduce.js")])
               w1).
    * by rewrite generate_function_tail.
    * rewrite (bind_ok _ _ _ _ _ (os_path_exists_eq _ w1)). by rewrite He.
- cbn [andb]. case_bool_decide as Hfun; [|case_bool_decide as Hsp].
  + rewrite (bind_ok _ _ w1 (path, [(name +:+ ".js", name +:+ ".js")]) w1)
      by reflexivity.
    by rewrite generate_function_tail.
  + rewrite (bind_ok _ _ w1 (join path ["spatial"],
                              [("spatial.js", name +:+ ".js")]) w1)
      by reflexivity.
    by rewrite generate_function_tail.
  + rewrite (bind_ok _ _ w1 (join path [kind +:+ "s"],
                              [(kind +:+ ".js", name +:+ ".js")]) w1)
      by reflexivity.
    by rewrite generate_function_tail.
Qed.

Lemma warnings_log w w' l :
w_log w' = w_log w ++ l →
warnings w' =
warnings w ++ omap (λ e, match e.1 with WARNING => Some e.2 | _ => None end) l.
Proof. unfold warnings. intros ->. by rewrite omap_app. Qed.

Lemma warnings_debug (msgs : list string) :
omap (λ e : level * string, match e.1 with WARNING => Some e.2 | _ => None end)
  (map (λ m, (DEBUG, m)) msgs) = [].
Proof. by induction msgs. Qed.

(** A successful lookup logs no warning and leaves the file system. *)
Lemma find_template_dir_found tmpl_name w d w1 :
find_template_dir env tmpl_name "" false w = (Ok (Some d), w1) →
w_fs w1 = w_fs w ∧ warnings w1 = warnings w ∧ dir_at env (w_fs w) d = true.
Proof.
intros H.
pose proof (find_template_dir_spec env tmpl_name "" false w ltac:(left))
  as [Hfs Hm].
rewrite H in Hfs, Hm. simpl in Hfs, Hm. split; [done|].
destruct Hm as (before & root & after & _ & _ & Hdir & _ & Hlog).
split; [|done].
rewrite (warnings_log w w1 _ Hlog). rewrite omap_app.
unfold miss_msg, hit_msg. rewrite <- (map_map _ (λ m, (DEBUG, m))).
rewrite warnings_debug. simpl. by rewrite app_nil_r.
Qed.

(** For a kind that is not [vendor], [generate_function] keeps every
entry of the file system and adds directories at most. *)
Lemma generate_function_no_file path kind name template w :
kind ≠ "vendor" →
only_dirs_added (w_fs w) (w_fs (generate_function env path kind name template w).2).
Proof.
intros Hk.
destruct (find_template_dir env (lookup_name template) "" false w)
  as [[[d|]|e] w1] eqn:Hfind.
- rewrite (generate_function_found _ _ _ _ _ _ _ Hk Hfind).
  apply find_template_dir_found in Hfind as (Hfs & _ & _).
  destruct (bool_decide (kind = "view") && _).
  + apply only_dirs_added_eq. done.
  + cbv zeta. cbn [snd w_fs]. rewrite <- Hfs.
    match goal with |- context [try_makedirs env ?p w1] =>
      destruct (try_makedirs_effect p w1) as (w2 & -> & _ & Hadd) end.
    done.
- pose proof (find_template_dir_fs env (lookup_name template) "" false w) as Hfs.
  rewrite Hfind in Hfs. simpl in Hfs.
  unfold generate_function.
  pose proof (generate_function_lookup template w) as Hl. rewrite Hfind in Hl.
  rewrite (bind_ok _ _ _ _ _ Hl). by apply only_dirs_added_eq.
- by apply find_template_dir_no_raise in Hfind.
Qed.

(** X3. Without a template directory in any search root,
[generate_function] fails with the error about the default templates,
whatever the kind, after the resolver has looked at every root; the file
system is as before. *)
Theorem generate_function_no_templates path kind name template w :
no_template env (w_fs w) (lookup_name template) "" →
generate_function env path kind name template w =
  (Raise (AppError "Defaults templates not found. Check your install."),
   probed env (lookup_name template) "" w).
Proof.
intros Hno.
pose proof (find_template_dir_not_found_eq env (lookup_name template) "" false w
              ltac:(left) Hno) as Hfind.
cbv iota in Hfind.
unfold generate_function.
pose proof (generate_function_lookup template w) as Hl. rewrite Hfind in Hl.
by rewrite (bind_ok _ _ _ _ _ Hl).
Qed.

(** X4. Once the template directory is found, generating a view fails
with the already-exists error exactly when [<path>/views/<name>] exists,
and then only the trace of the lookup is added; otherwise the call
succeeds and the file system is what the attempt to create that directory
leaves. *)
Theorem generate_function_view_exists path name template w d :
(find_template_dir env (lookup_name template) "" false w).1 = Ok (Some d) →
let w1 := (find_template_dir env (lookup_name template) "" false w).2 in
let target := join path ["views"; name] in
let r := generate_function env path "view" name template w in
(exists_at env (w_fs w) target = true →
 r = (Raise (AppError ("The view " +:+ name +:+ " already exists")), w1)) ∧
(exists_at env (w_fs w) target = false →
 r.1 = Ok tt ∧ w_fs r.2 = w_fs (try_makedirs env target w1).2).
Proof.
destruct (find_template_dir env (lookup_name template) "" false w)
  as [r0 w1] eqn:Hfind.
cbn [fst snd]. intros ->. cbv zeta.
rewrite (generate_function_found path "view" name template w d w1
           ltac:(discriminate) Hfind).
apply find_template_dir_found in Hfind as (Hfs & _ & _).
rewrite bool_decide_true by done. cbn [andb].
change (join path ["view" +:+ "s"; name]) with (join path ["views"; name]).
rewrite Hfs. split; intros ->; done.
Qed.

(** X5. Whatever its arguments and whatever it answers, [generate] writes
no file: every entry of the file system is kept as it is, and what appears
is a directory. *)
Theorem generate_writes_no_file path kind name template w :
only_dirs_added (w_fs w) (w_fs (generate env path kind name template w).2).
Proof.
unfold generate. case_bool_decide as Hkind; cbn [negb];
  [|apply only_dirs_added_refl].
destruct name as [n|]; [|apply only_dirs_added_refl].
case_bool_decide as Hv; [apply only_dirs_added_refl|].
by apply generate_function_no_file.
Qed.

(** X6. Every successful [generate_function] of a kind other than
[vendor] has found a template directory [d] and has logged, for each
skeleton of the kind, the warning that the skeleton was not found in [d]
(in [d/functions] when no template is named), whether the skeleton is there
or not. *)
Theorem generate_function_warns path kind name template w :
kind ≠ "vendor" →
(generate_function env path kind name template w).1 = Ok tt →
∃ d, (find_template_dir env (lookup_name template) "" false w).1 = Ok (Some d) ∧
     warnings (generate_function env path kind name template w).2 =
       warnings w ++
       map (λ t, t +:+ " not found in " +:+
                 join d (if truthy_value template then [] else ["functions"]))
           (skeletons kind name).
Proof.
intros Hk Hok.
destruct (find_template_dir env (lookup_name template) "" false w)
  as [[[d|]|e] w1] eqn:Hfind.
- exists d. split; [done|].
  rewrite (generate_function_found _ _ _ _ _ _ _ Hk Hfind) in Hok |- *.
  apply find_template_dir_found in Hfind as (_ & Hw & _).
  destruct (bool_decide (kind = "view") && _); [done|].
  cbv zeta. 
  match goal with |- context [try_makedirs env ?p w1] =>
    destruct (try_makedirs_effect p w1) as (w2 & Hmk & Hlog & _) end.
  rewrite Hmk. cbn [snd].
  rewrite (warnings_log w1 _
             (map (λ t, (WARNING, t +:+ " not found in " +:+
                       join d (if truthy_value template then [] else ["functions"])))
                  (skeletons kind name)));
    [|cbn [w_log]; by rewrite Hlog].
  rewrite Hw. f_equal.
  induction (skeletons kind name) as [|t l IH]; [done|].
  cbn [map omap]. cbn [fst snd]. by rewrite <- IH.
- exfalso. unfold generate_function in Hok.
  pose proof (generate_function_lookup template w) as Hl. rewrite Hfind in Hl.
  by rewrite (bind_ok _ _ _ _ _ Hl) in Hok.
- by apply find_template_dir_no_raise in Hfind.
Qed.

(** X7. Kind [vendor] without a template: once the default template
directory is found and the attempt to create [<path>/vendor/<name>] is made,
the call stops at [template.split] with the [AttributeError] of [None]. *)
Theorem generate_function_vendor_no_template path name w d :
(find_template_dir env "default" "" false w).1 = Ok (Some d) →
let w1 := (find_template_dir env "default" "" false w).2 in
generate_function env path "vendor" name None w =
  (Raise (AttributeError "'NoneType' object has no attribute 'split'"),
   (try_makedirs env (join path ["vendor"; name]) w1).2).
Proof.
destruct (find_template_dir env "default" "" false w) as [r0 w1] eqn:Hfind.
cbn [fst snd]. intros ->.
pose proof (find_template_dir_truthy _ _ _ _ _ _ Hfind) as Hd.
unfold generate_function. cbn [truthy_value].
rewrite (bind_ok _ _ _ _ _ Hfind). rewrite Hd. cbn [negb].
rewrite bool_decide_true by done.
destruct (try_makedirs_effect (join path ["vendor"; name]) w1) as (w2 & Hmk & _).
rewrite (bind_ok _ _ _ _ _ Hmk). rewrite Hmk. reflexivity.
Qed.

End GenerateMore.

Section SaveId.
Variable env : Env.
Import Str PosixPath Fs.

(** What [open(p, 'wb').write(data)] does when it succeeds. *)
Lemma write_file_inv p data w w' :
write_file env p data w = (Ok tt, w') →
∃ k m, resolve (cwd env) p = Some k ∧
       w_fs w !! k ≠ Some Dir ∧
       (w_fs w !! k = None → k ≠ [] ∧ w_fs w !! removelast k = Some Dir) ∧
       m = Meta (match w_fs w !! k with
                 | Some (File _ m0) => st_mode m0
                 | _ => default_mode
                 end) (now env) ∧
       w' = World (<[k := File data m]> (w_fs w)) (w_log w).
Proof.
unfold write_file, bind, get_fs, put_fs.
destruct (resolve (cwd env) p) as [k|]; [|done].
destruct (w_fs w !! k) as [[d m|]|] eqn:Hk; [|done|].
- destruct (may_write env m); [|done].
  intros [= <-]. exists k, (Meta (st_mode m) (now env)). rewrite Hk.
  by repeat split.
- destruct k as [|c k]; [done|].
  destruct (w_fs w !! removelast (c :: k)) as [[|]|] eqn:Hp; try done.
  intros [= <-]. exists (c :: k), (Meta default_mode (now env)). rewrite Hk.
  by repeat split.
Qed.

(** A file that has been written over is one the user may write to. *)
Lemma write_file_writable p data w w' k d m :
write_file env p data w = (Ok tt, w') →
resolve (cwd env) p = Some k → w_fs w !! k = Some (File d m) →
may_write env m = true.
Proof.
unfold write_file, bind, get_fs, put_fs. intros Hrun Hp Hk.
rewrite Hp, Hk in Hrun. by destruct (may_write env m).
Qed.

(** A failed write leaves the world as it was. *)
Lemma write_file_raise p data w e w' :
write_file env p data w = (Raise e, w') →
w' = w ∧ ∃ n, e = IOError (Some n) p.
Proof.
unfold write_file, bind, get_fs, put_fs.
destruct (resolve (cwd env) p) as [k|]; [|intros [= <- <-]; eauto].
destruct (w_fs w !! k) as [[d m|]|] eqn:Hk; [|intros [= <- <-]; eauto|].
{ destruct (may_write env m); [done|intros [= <- <-]; eauto]. }
destruct k as [|c k]; [intros [= <- <-]; eauto|].
destruct (w_fs w !! removelast (c :: k)) as [[|]|] eqn:Hp;
  [intros [= <- <-]; eauto|done|intros [= <- <-]; eauto].
Qed.

(** The mode of a new file lets its owner read and write. *)
Lemma default_mode_open m :
st_mode m = default_mode → may_read env m = true ∧ may_write env m = true.
Proof.
intros Hm. unfold may_read, may_write. rewrite Hm.
split; apply orb_true_iff; by right.
Qed.

(** The outcome of a write does not depend on the data. *)
Lemma write_file_twice p d1 d2 w :
(write_file env p d1 ;; write_file env p d2) w = write_file env p d2 w.
Proof.
destruct (write_file env p d1 w) as [[[]|e] w1] eqn:H1.
- rewrite (bind_ok _ _ _ _ _ H1).
  pose proof H1 as H1'.
  apply write_file_inv in H1 as (k & m & Hp & Hnd & Hnew & -> & ->).
  unfold write_file, bind, get_fs, put_fs. rewrite Hp. cbn [w_fs w_log].
  rewrite lookup_insert_eq. rewrite insert_insert_eq. cbn [st_mode].
  destruct (w_fs w !! k) as [[d m|]|] eqn:Hk; [|done|].
  + rewrite (write_file_writable _ _ _ _ _ _ _ H1' Hp Hk).
    unfold may_write. cbn [st_mode].
    fold (may_write env m).
    by rewrite (write_file_writable _ _ _ _ _ _ _ H1' Hp Hk).
  + destruct (default_mode_open (Meta default_mode (now env)) eq_refl)
      as [_ ->].
    destruct (Hnew eq_refl) as [Hne Hdir]. destruct k as [|c k]; [done|].
    by rewrite Hdir.
- rewrite (bind_raise _ _ _ _ _ H1).
  revert H1. unfold write_file, bind, get_fs, put_fs.
  destruct (resolve (cwd env) p) as [k|]; [|done].
  destruct (w_fs w !! k) as [[d m|]|] eqn:Hk; [|done|].
  { by destruct (may_write env m). }
  destruct k as [|c k]; [done|].
  by destruct (w_fs w !! removelast (c :: k)) as [[|]|] eqn:Hp.
Qed.

(** X8. A successful [save_id] changes one entry of the file system, the
file [_id] of the app path, and reading that file back gives the name that
was saved, stamped with the time of the write, to a user who may read the
file; a file that [save_id] has created is one its user may read, and
otherwise the file keeps its mode and the read is refused when the mode
does not allow it. *)
Theorem save_id_read_back path name w :
(save_id env path name w).1 = Ok tt →
let w' := (save_id env path name w).2 in
∃ k m, resolve (cwd env) (join path ["_id"]) = Some k ∧
       st_mtime m = now env ∧
       w' = World (<[k := File name m]> (w_fs w)) (w_log w) ∧
       (w_fs w !! k = None → may_read env m = true) ∧
       (∀ d m0, w_fs w !! k = Some (File d m0) → st_mode m = st_mode m0) ∧
       read_file env (join path ["_id"]) w' =
         if may_read env m then (Ok (name, m), w')
         else (Raise (IOError (Some EACCES) (join path ["_id"])), w').
Proof.
destruct (save_id env path name w) as [r w'] eqn:Hrun. cbn [fst snd].
intros ->. revert Hrun.
unfold save_id. intros (k & m & Hp & _ & _ & Hm & ->)%write_file_inv.
exists k, m. split; [done|]. split; [by rewrite Hm|]. split; [done|].
split; [|split].
- intros Hnone. rewrite Hnone in Hm.
  by apply default_mode_open; rewrite Hm.
- intros d m0 Hold. rewrite Hold in Hm. by rewrite Hm.
- unfold read_file, bind, get_fs. rewrite Hp. cbn [w_fs].
  rewrite lookup_insert_eq. by destruct (may_read env m).
Qed.

(** X9. Saving an identifier twice is saving the second one: the later
write wins, and a failure of the first is the failure of the second. *)
Theorem save_id_last_wins path name1 name2 w :
(save_id env path name1 ;; save_id env path name2) w = save_id env path name2 w.
Proof. apply write_file_twice. Qed.

(** X10. In a well-formed file system [save_id] on a non-empty path
succeeds exactly when the path is a directory and its [_id] is neither a
directory nor a file that the user may not write to; when it fails it
raises [IOError] for the path of [_id], with the permission error in the
last case, and leaves the world as it was. *)
Theorem save_id_outcome path name w :
wf (w_fs w) → path ≠ "" →
let r := save_id env path name w in
let id := join path ["_id"] in
(r.1 = Ok tt ↔
 dir_at env (w_fs w) path = true ∧ dir_at env (w_fs w) id = false ∧
 denied_at env (w_fs w) id = false) ∧
(r.1 ≠ Ok tt → r.2 = w ∧ ∃ n, r.1 = Raise (IOError (Some n) id)) ∧
(denied_at env (w_fs w) id = true → r = (Raise (IOError (Some EACCES) id), w)).
Proof.
intros Hwf Hne r id. subst r id. unfold save_id.
destruct (resolve (cwd env) path) as [d|] eqn:Hd; [|by destruct path].
pose proof (resolve_join _ _ "_id" _ Hd eq_refl) as Hid.
unfold dir_at, denied_at, lookup_path. rewrite Hd, Hid.
unfold write_file, bind, get_fs, put_fs. rewrite Hid.
assert (∀ n, w_fs w !! (d ++ ["_id"]) = Some n → w_fs w !! d = Some Dir)
  as Hparent.
{ intros n Hk. destruct Hwf as [_ Hwf]. specialize (Hwf _ _ Hk).
  unfold wf_entry in Hwf.
  destruct (d ++ ["_id"]) eqn:E; [by destruct d|]. rewrite <- E in Hwf.
  rewrite removelast_last in Hwf. apply andb_true_iff in Hwf as [Hdir _].
  unfold is_dir in Hdir. by destruct (w_fs w !! d) as [[]|]. }
destruct (w_fs w !! (d ++ ["_id"])) as [[dd m|]|] eqn:Hk.
- rewrite (Hparent _ eq_refl).
  destruct (may_write env m); cbn [fst snd negb].
  + by repeat split.
  + split; [split; [done|by intros (_ & _ & ?)]|]. split; [|done].
    intros _. eauto.
- cbn [fst snd]. split; [split; [done|by intros (_ & ? & _)]|].
  split; [|done]. intros _. eauto.
- destruct (d ++ ["_id"]) as [|c k'] eqn:E; [by destruct d|]. rewrite <- E.
  rewrite removelast_last.
  destruct (w_fs w !! d) as [[]|]; cbn [fst snd].
  + split; [split; [done|by intros (? & _ & _)]|]. split; [|done].
    intros _. eauto.
  + by repeat split.
  + split; [split; [done|by intros (? & _ & _)]|]. split; [|done].
    intros _. eauto.
Qed.

End SaveId.

Section CopyHelperMore.
Variable env : Env.
Import Str PosixPath Fs.

(** The steps of a successful [copy_helper]. *)
Lemma copy_helper_inv src dest w w' :
wf (w_fs w) → copy_helper env (Some src) dest w = (Ok tt, w') →
∃ ks kd w0,
  resolve (cwd env) src = Some ks ∧ resolve (cwd env) dest = Some kd ∧
  w_fs w !! ks = Some Dir ∧
  setup_dir env dest false w = (Ok tt, w0) ∧
  w_fs w0 !! kd = Some Dir ∧
  dirs_below (w_fs w0) [] kd ∧ dirs_below (w_fs w0) [] ks ∧
  dirs_kept (w_fs w) (w_fs w0) ∧
  (∀ k, w_fs w0 !! k ≠ w_fs w !! k → k `prefix_of` kd) ∧
  for_each (children (w_fs w0) ks) (copy_entry env src dest) w0 = (Ok tt, w').
Proof.
intros Hwf Hrun. unfold copy_helper, os_path_isdir_value in Hrun.
rewrite (bind_ok _ _ _ _ _ (os_path_isdir_eq env _ w)) in Hrun.
destruct (dir_at env (w_fs w) src) eqn:Hsd; [|done]. cbn [negb] in Hrun.
apply dir_at_inv in Hsd as (ks & Hs & Hsdir).
apply bind_inv_ok in Hrun as ([] & w0 & Hsetup & Hrun).
apply bind_inv_ok in Hrun as (names & w0' & Hls & Hloop).
pose proof Hsetup as Hsetup'.
apply setup_dir_dest in Hsetup' as (kd & Hd & Hddir & Hchain_d & Hkept0 & Hframe0);
  [|done].
apply os_listdir_inv in Hls as [-> Hnames].
destruct (Hnames names eq_refl) as (ks' & Hs' & Hsdir0 & ->). clear Hnames.
rewrite Hs in Hs'. injection Hs' as <-.
exists ks, kd, w0. repeat split; try done.
apply (dirs_below_kept (w_fs w)); [done|]. by apply wf_dirs_to.
Qed.

(** What a successful [copy_helper] leaves alone. *)
Lemma copy_helper_effect src dest w :
wf (w_fs w) → (copy_helper env (Some src) dest w).1 = Ok tt →
let w' := (copy_helper env (Some src) dest w).2 in
∃ ks kd,
  resolve (cwd env) src = Some ks ∧ resolve (cwd env) dest = Some kd ∧
  is_dir (w_fs w') kd = true ∧
  dirs_kept (w_fs w) (w_fs w') ∧
  (∀ k, w_fs w' !! k ≠ w_fs w !! k → k `prefix_of` kd ∨ kd `prefix_of` k) ∧
  (¬ ks `prefix_of` kd → ¬ kd `prefix_of` ks →
   ∀ rel, w_fs w' !! (ks ++ rel) = w_fs w !! (ks ++ rel)).
Proof.
intros Hwf.
destruct (copy_helper env (Some src) dest w) as [r w'] eqn:Hrun.
cbn [fst snd]. intros ->.
apply copy_helper_inv in Hrun
  as (ks & kd & w0 & Hs & Hd & Hsdir & _ & Hddir & Hcd & Hcs & Hkept0 & Hframe0
      & Hloop); [|done].
destruct (copy_loop_spec env src dest ks kd Hs Hd (children (w_fs w0) ks) w0 w')
  as (Hkept1 & _ & Hframe1 & _); try done.
{ apply NoDup_children. }
{ apply children_plain. }
{ intros p Hp. by apply elem_of_children in Hp as [_ ?]. }
assert (∀ k, w_fs w' !! k ≠ w_fs w !! k → k `prefix_of` kd ∨ kd `prefix_of` k)
  as Hframe.
{ intros k Hne.
  destruct (decide (w_fs w' !! k = w_fs w0 !! k)) as [Heq|Hne1].
  - left. apply Hframe0. by rewrite <- Heq.
  - right. destruct (Hframe1 k Hne1) as (p & _ & Hpre).
    etrans; [|exact Hpre]. by apply prefix_app_r. }
exists ks, kd. split; [done|]. split; [done|]. split.
{ apply Hkept1. unfold is_dir. by rewrite Hddir. }
split; [by eapply dirs_kept_trans|]. split; [done|].
intros Hsd Hds rel.
destruct (decide (w_fs w' !! (ks ++ rel) = w_fs w !! (ks ++ rel))) as [|Hne];
  [done|exfalso].
destruct (Hframe _ Hne) as [Hpre|Hpre].
- apply Hsd. etrans; [|exact Hpre]. by apply prefix_app_r.
- destruct (prefix_weak_total ks kd (ks ++ rel)) as [?|?]; try done.
  by apply prefix_app_r.
Qed.

(** The loop of [copy_helper] keeps the directories and writes below the
destination only, whatever happens to the single entries. *)
Lemma copy_loop_effect src dest ks kd names w :
resolve (cwd env) src = Some ks → resolve (cwd env) dest = Some kd →
Forall (λ p, plain p = true) names →
dirs_below (w_fs w) [] kd →
let w' := (for_each names (copy_entry env src dest) w).2 in
dirs_kept (w_fs w) (w_fs w') ∧ changes_under kd (w_fs w) (w_fs w').
Proof.
intros Hs Hd. revert w. induction names as [|p names IH]; intros w Hplain Hchain.
{ split; [apply dirs_kept_refl|apply changes_under_refl]. }
apply Forall_cons in Hplain as [Hp Hplain]. cbn [for_each]. cbv zeta.
destruct (copy_entry env src dest p w) as [r w1] eqn:Hstep.
destruct (copy_entry_spec env src dest ks kd Hs Hd p w r w1 Hp Hchain Hstep)
  as (Hk1 & Hc1 & _).
assert (changes_under kd (w_fs w) (w_fs w1)) as Hc1'.
{ eapply changes_under_weaken; [|exact Hc1]. by apply prefix_app_r. }
destruct r as [[]|e].
- rewrite (bind_ok _ _ _ _ _ Hstep).
  destruct (IH w1 Hplain (dirs_below_kept _ _ _ _ Hk1 Hchain)) as [Hk2 Hc2].
  split; [by eapply dirs_kept_trans|by eapply changes_under_trans].
- by rewrite (bind_raise _ _ _ _ _ Hstep).
Qed.

Lemma setup_dir_raise p b w e w' :
setup_dir env p b w = (Raise e, w') → w' = w.
Proof.
unfold setup_dir, bind at 1, get_fs.
destruct (resolve (cwd env) p) as [k|]; [|apply os_makedirs_raise].
destruct (w_fs w !! k) as [[|]|]; [by intros [= _ <-]| |apply os_makedirs_raise].
destruct (b && _); [by intros [= _ <-]|done].
Qed.

(** What [copy_helper] leaves alone, whatever it answers. *)
Lemma copy_helper_effect_any src dest w :
wf (w_fs w) →
let r := copy_helper env (Some src) dest w in
dirs_kept (w_fs w) (w_fs r.2) ∧
(∀ k, w_fs r.2 !! k ≠ w_fs w !! k →
   ∃ kd, resolve (cwd env) dest = Some kd ∧
         (k `prefix_of` kd ∨ kd `prefix_of` k)) ∧
(dir_at env (w_fs w) src = false →
 r = (Raise (OSError None ("source " +:+ dq +:+ src +:+ dq
                           +:+ " is not a directory")), w)) ∧
(r.1 = Ok tt →
 ∃ kd, resolve (cwd env) dest = Some kd ∧ is_dir (w_fs r.2) kd = true).
Proof.
intros Hwf. cbv zeta. unfold copy_helper, os_path_isdir_value.
rewrite (bind_ok _ _ _ _ _ (os_path_isdir_eq env _ w)).
destruct (dir_at env (w_fs w) src) eqn:Hsd; cbn [negb].
2:{ cbn [fst snd]. split; [apply dirs_kept_refl|]. by repeat split. }
apply dir_at_inv in Hsd as (ks & Hs & Hsdir).
destruct (setup_dir env dest false w) as [[[]|e] w0] eqn:Hsetup.
2:{ rewrite (bind_raise _ _ _ _ _ Hsetup). cbn [fst snd].
    apply setup_dir_raise in Hsetup as ->.
    split; [apply dirs_kept_refl|]. by repeat split. }
rewrite (bind_ok _ _ _ _ _ Hsetup).
apply setup_dir_dest in Hsetup as (kd & Hd & Hddir & Hcd & Hkept0 & Hframe0);
  [|done].
assert (is_dir (w_fs w0) ks = true) as Hsdir0.
{ apply Hkept0. unfold is_dir. by rewrite Hsdir. }
rewrite (bind_ok _ _ _ _ _ (os_listdir_dir env src ks w0 Hs Hsdir0)).
destruct (copy_loop_effect src dest ks kd (children (w_fs w0) ks) w0 Hs Hd
            (children_plain _ _) Hcd) as [Hkept1 Hc1].
split; [by eapply dirs_kept_trans|]. split; [|split; [done|]].
- intros k Hne. exists kd. split; [done|].
  destruct (decide (w_fs (for_each (children (w_fs w0) ks)
                            (copy_entry env src dest) w0).2 !! k
                    = w_fs w0 !! k)) as [Heq|Hne1].
  + left. apply Hframe0. by rewrite <- Heq.
  + right. by apply Hc1.
- intros _. exists kd. split; [done|]. apply Hkept1. unfold is_dir.
  by rewrite Hddir.
Qed.

(** X11. Whatever [copy_helper] answers, success or failure, it keeps
every directory that was there and changes only entries at or above the
destination (the directories it had to create) or below it; so the tree of
the source is never changed when neither of source and destination lies in
the other.  A source that is not a directory is refused with [OSError]
before the destination is touched, and after a success the destination is
a directory. *)
Theorem copy_helper_frame src dest w :
wf (w_fs w) →
let r := copy_helper env (Some src) dest w in
dirs_kept (w_fs w) (w_fs r.2) ∧
(∀ k, w_fs r.2 !! k ≠ w_fs w !! k →
   ∃ kd, resolve (cwd env) dest = Some kd ∧
         (k `prefix_of` kd ∨ kd `prefix_of` k)) ∧
(∀ ks kd, resolve (cwd env) src = Some ks → resolve (cwd env) dest = Some kd →
   ¬ ks `prefix_of` kd → ¬ kd `prefix_of` ks →
   ∀ rel, w_fs r.2 !! (ks ++ rel) = w_fs w !! (ks ++ rel)) ∧
(dir_at env (w_fs w) src = false →
 r = (Raise (OSError None ("source " +:+ dq +:+ src +:+ dq
                           +:+ " is not a directory")), w)) ∧
(r.1 = Ok tt →
 ∃ kd, resolve (cwd env) dest = Some kd ∧ is_dir (w_fs r.2) kd = true).
Proof.
intros Hwf. cbv zeta.
destruct (copy_helper_effect_any src dest w Hwf) as (Hkept & Hframe & Hsrc & Hok).
split; [done|]. split; [done|]. split; [|by split].
intros ks kd Hs Hd Hsd Hds rel.
destruct (decide (w_fs (copy_helper env (Some src) dest w).2 !! (ks ++ rel)
                  = w_fs w !! (ks ++ rel))) as [|Hne]; [done|exfalso].
destruct (Hframe _ Hne) as (kd' & Hd' & Hpre).
rewrite Hd in Hd'. injection Hd' as <-. destruct Hpre as [Hpre|Hpre].
- apply Hsd. etrans; [|exact Hpre]. by apply prefix_app_r.
- destruct (prefix_weak_total ks kd (ks ++ rel)) as [?|?]; try done.
  by apply prefix_app_r.
Qed.

End CopyHelperMore.

Section InitTemplateMore.
Variable env : Env.
Import Str PosixPath Fs.

(** X12. [init_template] fails before it touches the file system when
the template name is one of the reserved names [app], [functions],
[vendor], and when no search root holds the [app] directory of the template
set. *)
Theorem init_template_fails_early document path template w :
let tmpl_name := if truthy template then normpath template else "" in
let r := init_template env document path template w in
(template ∈ TEMPLATE_TYPES →
 r = (Raise (AppError "template name connot be ('app', 'functions', 'vendor')."),
      w)) ∧
(template ∉ TEMPLATE_TYPES → no_template env (w_fs w) tmpl_name "app" →
 r.1 = Raise (AppError ("template " +:+ dq +:+ norm_name tmpl_name +:+ "/"
                        +:+ "app" +:+ dq +:+ " not found.")) ∧
 w_fs r.2 = w_fs w).
Proof.
intros tmpl_name r. subst r. unfold init_template. fold tmpl_name. split.
- intros Hin. by rewrite bool_decide_true.
- intros Hin Hno. rewrite bool_decide_false by done.
  pose proof (find_template_dir_not_found_eq env tmpl_name "app" true w
                ltac:(right; left) Hno) as Hfind.
  cbv iota in Hfind. by rewrite (bind_raise _ _ _ _ _ Hfind).
Qed.

End InitTemplateMore.

(** ** Well-formedness as an invariant *)

Section WellFormed.
Variable env : Env.
Hypothesis cwd_plain : Forall (λ c, Fs.plain c = true) (cwd env).
Import Str PosixPath Fs.

Lemma split_slash_no_slash s :
Forall (λ c, has_slash c = false) (split_slash s).
Proof.
induction s as [|c s IH]; [by repeat constructor|].
cbn [split_slash]. destruct (is_slash c) eqn:Hc; [by constructor|].
destruct (split_slash s) as [|h t]; [by repeat constructor; cbn; rewrite Hc|].
apply Forall_cons in IH as [Hh Ht]. constructor; [|done].
cbn. by rewrite Hc, Hh.
Qed.

Lemma Forall_removelast {A} (P : A → Prop) (l : list A) :
Forall P l → Forall P (removelast l).
Proof.
destruct l as [|x l _] using rev_ind; [done|].
rewrite removelast_last. by intros [? _]%Forall_app.
Qed.

Lemma walk_step_plain k c :
Forall (λ c, plain c = true) k → has_slash c = false →
Forall (λ c, plain c = true) (walk_step k c).
Proof.
intros Hk Hc. unfold walk_step.
case_bool_decide as H1; [done|]. case_bool_decide as H2.
- by apply Forall_removelast.
- apply Forall_app. split; [done|]. constructor; [|done].
  unfold plain. rewrite Hc. cbn [negb andb].
  rewrite (bool_decide_true (c ≠ "")) by naive_solver.
  rewrite (bool_decide_true (c ≠ ".")) by naive_solver.
  by rewrite (bool_decide_true (c ≠ "..")) by naive_solver.
Qed.

Lemma fold_walk_plain l k0 :
Forall (λ c, plain c = true) k0 → Forall (λ c, has_slash c = false) l →
Forall (λ c, plain c = true) (fold_left walk_step l k0).
Proof.
revert k0. induction l as [|c l IH]; intros k0 Hk0 Hl; [done|].
apply Forall_cons in Hl as [Hc Hl]. cbn [fold_left].
apply IH; [|done]. by apply walk_step_plain.
Qed.

(** The keys that paths resolve to consist of plain names. *)
Lemma resolve_plain p k :
resolve (cwd env) p = Some k → Forall (λ c, plain c = true) k.
Proof.
unfold resolve. destruct p as [|a p]; [done|]. intros [= <-].
apply fold_walk_plain; [|apply (split_slash_no_slash (String a p))].
by destruct (is_slash a).
Qed.

Lemma removelast_ne {A} (k : list A) : k ≠ [] → removelast k ≠ k.
Proof.
destruct k as [|x k _] using rev_ind; [done|]. intros _.
rewrite removelast_last. intros H. apply (f_equal length) in H.
rewrite length_app in H. simpl in H. lia.
Qed.

Lemma wf_entry_plain fs k :
wf_entry fs k = true → Forall (λ c, plain c = true) k.
Proof.
unfold wf_entry. destruct k as [|c k]; [done|].
intros [_ H]%andb_true_iff. apply Forall_forall. intros x Hx.
rewrite forallb_forall in H. apply H. by apply list_elem_of_In.
Qed.

Lemma wf_entry_intro fs k :
k ≠ [] → is_dir fs (removelast k) = true → Forall (λ c, plain c = true) k →
wf_entry fs k = true.
Proof.
intros Hne Hdir Hplain. unfold wf_entry. destruct k as [|c k]; [done|].
rewrite Hdir. cbn [andb]. apply forallb_forall. intros x Hx.
rewrite Forall_forall in Hplain. apply Hplain. by apply list_elem_of_In.
Qed.

Lemma wf_entry_parent fs k :
k ≠ [] → wf_entry fs k = true → is_dir fs (removelast k) = true.
Proof.
intros Hne. unfold wf_entry. destruct k as [|c k]; [done|].
by intros [? _]%andb_true_iff.
Qed.

(** Writing a file into a directory, or over a file. *)
Lemma wf_insert_file fs k d m :
wf fs → k ≠ [] → Forall (λ c, plain c = true) k →
is_dir fs (removelast k) = true → is_dir fs k = false →
wf (<[k := File d m]> fs).
Proof.
intros [Hroot Hwf] Hne Hplain Hparent Hnd.
assert (∀ k', is_dir fs k' = true → is_dir (<[k := File d m]> fs) k' = true)
  as Hkeep.
{ intros k' Hk'. unfold is_dir. rewrite lookup_insert_ne; [done|].
  intros <-. congruence. }
split; [by apply Hkeep|].
intros k' n Hk'. destruct (decide (k = k')) as [<-|Hkk].
- apply wf_entry_intro; [done| |done]. by apply Hkeep.
- rewrite lookup_insert_ne in Hk' by done. specialize (Hwf _ _ Hk').
  destruct k' as [|c k']; [by apply Hkeep|].
  apply wf_entry_intro; [done| |by eapply wf_entry_plain].
  apply Hkeep. by apply wf_entry_parent.
Qed.

(** Creating a directory in a directory. *)
Lemma wf_insert_dir fs k :
wf fs → Forall (λ c, plain c = true) k →
(k = [] ∨ is_dir fs (removelast k) = true) →
wf (<[k := Dir]> fs).
Proof.
intros [Hroot Hwf] Hplain Hparent.
assert (∀ k', is_dir fs k' = true → is_dir (<[k := Dir]> fs) k' = true)
  as Hkeep.
{ intros k' Hk'. unfold is_dir. destruct (decide (k = k')) as [<-|Hkk].
  - by rewrite lookup_insert_eq.
  - by rewrite lookup_insert_ne. }
split; [by apply Hkeep|].
intros k' n Hk'. destruct (decide (k = k')) as [<-|Hkk].
- destruct k as [|c k]; [by apply Hkeep|].
  destruct Hparent as [|Hparent]; [done|].
  apply wf_entry_intro; [done| |done]. by apply Hkeep.
- rewrite lookup_insert_ne in Hk' by done. specialize (Hwf _ _ Hk').
  destruct k' as [|c k']; [by apply Hkeep|].
  apply wf_entry_intro; [done| |by eapply wf_entry_plain].
  apply Hkeep. by apply wf_entry_parent.
Qed.

Lemma ensure_dirs_wf pre rest fs fs' :
wf fs → is_dir fs pre = true →
Forall (λ c, plain c = true) (pre ++ rest) →
ensure_dirs pre rest fs = inr fs' →
wf fs' ∧ is_dir fs' (pre ++ rest) = true.
Proof.
revert pre fs. induction rest as [|c rest IH]; intros pre fs Hwf Hpre Hplain.
{ cbn. intros [= <-]. by rewrite app_nil_r. }
cbn [ensure_dirs]. cbv zeta.
replace (pre ++ c :: rest) with ((pre ++ [c]) ++ rest) in *
  by (by rewrite <- app_assoc).
destruct (fs !! (pre ++ [c])) as [[|]|] eqn:Hc; [done| |].
- apply IH; [done| |done]. unfold is_dir. by rewrite Hc.
- apply IH; [| |done].
  + apply wf_insert_dir; [done| |].
    * by apply Forall_app in Hplain as [? _].
    * right. by rewrite removelast_last.
  + unfold is_dir. by rewrite lookup_insert_eq.
Qed.

Lemma makedirs_key_wf k fs fs' :
wf fs → Forall (λ c, plain c = true) k →
makedirs_key k fs = inr fs' → wf fs'.
Proof.
intros Hwf Hplain. unfold makedirs_key.
destruct (fs !! k); [done|].
destruct (ensure_dirs [] (removelast k) fs) as [e|fs1] eqn:He; [done|].
intros [= <-].
apply ensure_dirs_wf in He as [Hwf1 Hdir]; [|done|by destruct Hwf|].
- apply wf_insert_dir; [done|done|]. by right.
- by apply Forall_removelast.
Qed.

Lemma keeps_wf_run {A} (m : M A) w r w' :
m w = (r, w') → keeps_wf m → wf (w_fs w) → wf (w_fs w').
Proof. intros Hrun Hm Hwf. specialize (Hm w Hwf). by rewrite Hrun in Hm. Qed.

Lemma keeps_wf_ret {A} (a : A) : keeps_wf (ret a).
Proof. by intros w. Qed.

Lemma keeps_wf_raise {A} e : keeps_wf (raise e : M A).
Proof. by intros w. Qed.

Lemma keeps_wf_bind {A B} (m : M A) (k : A → M B) :
keeps_wf m → (∀ a, keeps_wf (k a)) → keeps_wf (bind m k).
Proof.
intros Hm Hk w Hwf. unfold bind. specialize (Hm w Hwf).
destruct (m w) as [[a|e] w1]; [by apply Hk|done].
Qed.

Lemma keeps_wf_try {A} (m : M A) (h : exn → option (M A)) :
keeps_wf m → (∀ e m', h e = Some m' → keeps_wf m') →
keeps_wf (try_except m h).
Proof.
intros Hm Hh w Hwf. unfold try_except. specialize (Hm w Hwf).
destruct (m w) as [[a|e] w1]; [done|].
destruct (h e) as [m'|] eqn:He; [|done]. by apply (Hh e).
Qed.

Lemma keeps_wf_for_each {A} (l : list A) (body : A → M unit) :
(∀ x, keeps_wf (body x)) → keeps_wf (for_each l body).
Proof.
intros Hbody. induction l as [|x l IH]; [apply keeps_wf_ret|].
cbn [for_each]. by apply keeps_wf_bind.
Qed.

Lemma keeps_wf_logger l msg : keeps_wf (logger l msg).
Proof. by intros w. Qed.

Lemma keeps_wf_same {A} (m : M A) :
(∀ w, w_fs (m w).2 = w_fs w) → keeps_wf m.
Proof. intros H w Hwf. by rewrite H. Qed.

Lemma keeps_wf_os_makedirs p : keeps_wf (os_makedirs env p).
Proof.
intros w Hwf. unfold os_makedirs, bind, get_fs, put_fs.
destruct (resolve (cwd env) p) as [k|] eqn:Hp; [|done].
destruct (makedirs_key k (w_fs w)) as [e|fs'] eqn:Hk; [done|].
cbn [snd w_fs]. eapply makedirs_key_wf; [done| |done]. by eapply resolve_plain.
Qed.

Lemma keeps_wf_write_file p data : keeps_wf (write_file env p data).
Proof.
intros w Hwf.
destruct (write_file env p data w) as [[[]|e] w'] eqn:Hrun; cbn [snd].
- revert Hrun. unfold write_file, bind, get_fs, put_fs.
  destruct (resolve (cwd env) p) as [k|] eqn:Hp; [|done].
  pose proof (resolve_plain _ _ Hp) as Hplain.
  destruct (w_fs w !! k) as [[d m|]|] eqn:Hk; [|done|].
  + destruct (may_write env m); [|done]. intros [= <-]. cbn [w_fs].
    destruct k as [|c k].
    { destruct Hwf as [Hroot _]. unfold is_dir in Hroot. by rewrite Hk in Hroot. }
    apply wf_insert_file; [done|done|done| |by unfold is_dir; rewrite Hk].
    destruct Hwf as [_ Hwf]. apply wf_entry_parent; [done|by eapply Hwf].
  + destruct k as [|c k]; [done|].
    destruct (w_fs w !! removelast (c :: k)) as [[|]|] eqn:Hparent; try done.
    intros [= <-]. cbn [w_fs].
    apply wf_insert_file; [done|done|done| |by unfold is_dir; rewrite Hk].
    unfold is_dir. by rewrite Hparent.
- revert Hrun. unfold write_file, bind, get_fs, put_fs.
  destruct (resolve (cwd env) p) as [k|]; [|by intros [= _ <-]].
  destruct (w_fs w !! k) as [[d m|]|]; [|by intros [= _ <-]|].
  { destruct (may_write env m); [done|by intros [= _ <-]]. }
  destruct k as [|c k]; [by intros [= _ <-]|].
  destruct (w_fs w !! removelast (c :: k)) as [[|]|];
    [by intros [= _ <-]|done|by intros [= _ <-]].
Qed.

Lemma keeps_wf_read_file p : keeps_wf (read_file env p).
Proof.
apply keeps_wf_same. intros w. unfold read_file, bind, get_fs.
destruct (resolve (cwd env) p) as [k|]; [|done].
destruct (w_fs w !! k) as [[d m|]|]; [|done|done].
by destruct (may_read env m).
Qed.

Lemma keeps_wf_copyfile src dst : keeps_wf (copyfile env src dst).
Proof.
unfold copyfile. intros w Hwf. unfold bind at 1. unfold get_fs.
destruct (samefile env (w_fs w) src dst); [done|].
apply keeps_wf_bind; [apply keeps_wf_read_file| |done].
intros f. apply keeps_wf_write_file.
Qed.

Lemma keeps_wf_copystat src dst : keeps_wf (copystat env src dst).
Proof.
intros w Hwf. unfold copystat, bind, get_fs, put_fs.
destruct (resolve (cwd env) src) as [a|]; [|done].
destruct (resolve (cwd env) dst) as [b|] eqn:Hb; [|done].
destruct (w_fs w !! a) as [[d m|]|]; [| |done].
- destruct (w_fs w !! b) as [[d' m'|]|] eqn:Hfb; [|done|done].
  cbn [snd w_fs].
  destruct b as [|c b].
  { destruct Hwf as [Hroot _]. unfold is_dir in Hroot. by rewrite Hfb in Hroot. }
  apply wf_insert_file; [done|done|by eapply resolve_plain| |].
  + destruct Hwf as [_ Hwf]. apply wf_entry_parent; [done|by eapply Hwf].
  + unfold is_dir. by rewrite Hfb.
- by destruct (w_fs w !! b).
Qed.

Lemma keeps_wf_os_path_isdir p : keeps_wf (os_path_isdir env p).
Proof. by apply keeps_wf_same. Qed.

Lemma keeps_wf_os_path_exists p : keeps_wf (os_path_exists env p).
Proof. by apply keeps_wf_same. Qed.

Lemma keeps_wf_os_listdir p : keeps_wf (os_listdir env p).
Proof.
apply keeps_wf_same. intros w. unfold os_listdir, bind, get_fs.
destruct (resolve (cwd env) p) as [k|]; [|done].
by destruct (w_fs w !! k) as [[]|].
Qed.

Lemma keeps_wf_copy2 src dst : keeps_wf (copy2 env src dst).
Proof.
unfold copy2. apply keeps_wf_bind; [apply keeps_wf_os_path_isdir|].
intros b. apply keeps_wf_bind; [apply keeps_wf_copyfile|].
intros _. apply keeps_wf_copystat.
Qed.

Lemma keeps_wf_copytree_loop rec src dst names errors :
(∀ a b, keeps_wf (rec a b)) →
keeps_wf (copytree_loop env rec src dst names errors).
Proof.
intros Hrec. revert errors. induction names as [|n names IH]; intros errors.
{ apply keeps_wf_ret. }
cbn [copytree_loop]. cbv zeta. apply keeps_wf_bind; [|done].
apply keeps_wf_try.
- apply keeps_wf_bind; [apply keeps_wf_os_path_isdir|]. intros b.
  apply keeps_wf_bind; [|intros _; apply keeps_wf_ret].
  destruct b; [apply Hrec|apply keeps_wf_copy2].
- intros e m'. destruct e; cbn; try done; intros [= <-]; apply keeps_wf_ret.
Qed.

Lemma keeps_wf_copytree_depth depth src dst :
keeps_wf (copytree_depth env depth src dst).
Proof.
revert src dst. induction depth as [|depth IH]; intros src dst.
{ apply keeps_wf_raise. }
cbn [copytree_depth]. apply keeps_wf_bind; [apply keeps_wf_os_listdir|].
intros names. apply keeps_wf_bind; [apply keeps_wf_os_makedirs|]. intros _.
apply keeps_wf_bind; [by apply keeps_wf_copytree_loop|]. intros errors.
apply keeps_wf_bind.
- apply keeps_wf_try.
  + apply keeps_wf_bind; [apply keeps_wf_copystat|intros _; apply keeps_wf_ret].
  + intros e m'. destruct e; try done. intros [= <-]. apply keeps_wf_ret.
- intros [|]; [apply keeps_wf_ret|apply keeps_wf_raise].
Qed.

Lemma keeps_wf_setup_dir p b : keeps_wf (setup_dir env p b).
Proof.
intros w Hwf. unfold setup_dir, bind at 1, get_fs.
destruct (resolve (cwd env) p) as [k|]; [|by apply keeps_wf_os_makedirs].
destruct (w_fs w !! k) as [[|]|]; [done| |by apply keeps_wf_os_makedirs].
by destruct (b && _).
Qed.

Lemma keeps_wf_setup_dirs paths b : keeps_wf (setup_dirs env paths b).
Proof. apply keeps_wf_for_each. intros p. apply keeps_wf_setup_dir. Qed.

Lemma keeps_wf_save_id path name : keeps_wf (save_id env path name).
Proof. apply keeps_wf_write_file. Qed.

Lemma keeps_wf_copy_entry src dest p : keeps_wf (copy_entry env src dest p).
Proof.
unfold copy_entry. cbv zeta.
apply keeps_wf_bind; [apply keeps_wf_os_path_isdir|].
intros [|]; [apply keeps_wf_copytree_depth|apply keeps_wf_copy2].
Qed.

Lemma keeps_wf_copy_helper src dest : keeps_wf (copy_helper env src dest).
Proof.
unfold copy_helper. destruct src as [src|].
- apply keeps_wf_bind; [apply keeps_wf_os_path_isdir|].
  intros [|]; cbn [negb]; [|apply keeps_wf_raise].
  apply keeps_wf_bind; [apply keeps_wf_setup_dir|]. intros _.
  apply keeps_wf_bind; [apply keeps_wf_os_listdir|]. intros names.
  apply keeps_wf_for_each. intros p. apply keeps_wf_copy_entry.
- apply keeps_wf_bind; [apply keeps_wf_raise|]. intros _. apply keeps_wf_ret.
Qed.

Lemma keeps_wf_find_template_dir n t r : keeps_wf (find_template_dir env n t r).
Proof. apply keeps_wf_same. intros w. apply find_template_dir_fs. Qed.

Lemma keeps_wf_try_makedirs p : keeps_wf (try_makedirs env p).
Proof.
apply keeps_wf_try; [apply keeps_wf_os_makedirs|].
intros e m' [= <-]. apply keeps_wf_ret.
Qed.

Lemma keeps_wf_copy_function d fp path f : keeps_wf (copy_function env d fp path f).
Proof.
destruct f as [t g]. apply keeps_wf_same. intros w.
rewrite copy_function_attempt. by rewrite copy_attempt_skips.
Qed.

Lemma keeps_wf_split_value t : keeps_wf (split_value t).
Proof. destruct t; [apply keeps_wf_ret|apply keeps_wf_raise]. Qed.

Lemma keeps_wf_generate_function path kind name template :
keeps_wf (generate_function env path kind name template).
Proof.
unfold generate_function. cbv zeta. apply keeps_wf_bind.
{ destruct (truthy_value template); [|apply keeps_wf_find_template_dir].
  apply keeps_wf_bind; [apply keeps_wf_split_value|].
  intros parts. apply keeps_wf_find_template_dir. }
intros [d|]; [|apply keeps_wf_raise].
destruct (negb (truthy d)); [apply keeps_wf_raise|].
case_bool_decide.
{ apply keeps_wf_bind; [apply keeps_wf_try_makedirs|]. intros _.
  apply keeps_wf_bind; [apply keeps_wf_split_value|]. intros parts.
  apply keeps_wf_copy_helper. }
apply keeps_wf_bind.
{ repeat case_bool_decide; try apply keeps_wf_ret.
  apply keeps_wf_bind; [apply keeps_wf_os_path_exists|].
  intros [|]; [apply keeps_wf_raise|apply keeps_wf_ret]. }
intros [p fl]. apply keeps_wf_bind; [apply keeps_wf_try_makedirs|]. intros _.
apply keeps_wf_for_each. intros f. apply keeps_wf_copy_function.
Qed.

Lemma keeps_wf_generate path kind name template :
keeps_wf (generate env path kind name template).
Proof.
unfold generate. destruct (negb _); [apply keeps_wf_raise|].
destruct name as [n|]; [|apply keeps_wf_raise].
case_bool_decide; [|apply keeps_wf_generate_function].
unfold generate_vendor. apply keeps_wf_bind; [|intros _; apply keeps_wf_raise].
unfold load_global. destruct (bool_decide _);
  [apply keeps_wf_ret|apply keeps_wf_raise].
Qed.

Lemma keeps_wf_init_basic document path :
(∀ p c, keeps_wf (document p c)) → keeps_wf (init_basic env document path).
Proof.
intros Hdoc. unfold init_basic.
apply keeps_wf_bind; [apply keeps_wf_setup_dir|]. intros _.
apply keeps_wf_bind; [apply keeps_wf_setup_dirs|]. intros _.
apply keeps_wf_bind; [apply keeps_wf_save_id|]. intros _. apply Hdoc.
Qed.

Lemma keeps_wf_init_template document path template :
(∀ p c, keeps_wf (document p c)) →
keeps_wf (init_template env document path template).
Proof.
intros Hdoc. unfold init_template.
case_bool_decide; [apply keeps_wf_raise|]. cbv zeta.
apply keeps_wf_bind; [apply keeps_wf_find_template_dir|]. intros src_dir.
apply keeps_wf_bind; [apply keeps_wf_copy_helper|]. intros _.
apply keeps_wf_bind; [apply keeps_wf_setup_dirs|]. intros _.
apply keeps_wf_bind; [apply keeps_wf_find_template_dir|]. intros v.
apply keeps_wf_bind.
{ destruct v; [apply keeps_wf_ret|].
  apply keeps_wf_bind; [apply keeps_wf_logger|]. intros _.
  apply keeps_wf_find_template_dir. }
intros v'. apply keeps_wf_bind; [apply keeps_wf_copy_helper|]. intros _.
apply keeps_wf_bind; [apply keeps_wf_save_id|]. intros _. apply Hdoc.
Qed.

End WellFormed.

Section InitTemplatePost.
Variable env : Env.
Hypothesis cwd_plain : Forall (λ c, Fs.plain c = true) (cwd env).
Import Str PosixPath Fs.

Lemma copy_helper_some src dest w w' :
copy_helper env src dest w = (Ok tt, w') → ∃ s, src = Some s.
Proof. destruct src as [s|]; [eauto|done]. Qed.

(** X13. After a successful [init_template(P)], at the point where the
manifest collaborator is called, [P] holds the six directories of the
standard tree and the directory [vendor], and its file [_id] has the
content [_design/] followed by the base name of [P]. *)
Theorem init_template_tree document path template w :
wf (w_fs w) →
(init_template env document path template w).1 = Ok tt →
∃ d w1,
  resolve (cwd env) path = Some d ∧
  (∀ n, n ∈ "vendor" :: DEFAULT_APP_TREE → w_fs w1 !! (d ++ [n]) = Some Dir) ∧
  (∃ m, w_fs w1 !! (d ++ ["_id"]) =
          Some (File ("_design/" +:+ (split path).2) m)) ∧
  document path true w1 =
    (Ok tt, (init_template env document path template w).2).
Proof.
intros Hwf.
destruct (init_template env document path template w) as [r w'] eqn:Hrun.
cbn [fst snd]. intros ->. unfold init_template in Hrun.
case_bool_decide as Hty; [done|]. cbv zeta in Hrun.
apply bind_inv_ok in Hrun as (src_dir & wa & Hfind_app & Hrun).
apply bind_inv_ok in Hrun as ([] & wb & Hcopy_app & Hrun).
apply bind_inv_ok in Hrun as ([] & wc & Htree & Hrun).
apply bind_inv_ok in Hrun as (v & wd & Hfind_v & Hrun).
apply bind_inv_ok in Hrun as (v' & we & Hfall & Hrun).
apply bind_inv_ok in Hrun as ([] & wg & Hcopy_v & Hrun).
apply bind_inv_ok in Hrun as ([] & wh & Hid & Hdoc).
(* the app template *)
assert (wf (w_fs wa)) as Hwfa.
{ pose proof (find_template_dir_fs env
                (if truthy template then normpath template else "") "app" true w)
    as H.
  rewrite Hfind_app in H. cbn [snd] in H. by rewrite H. }
destruct (copy_helper_some _ _ _ _ Hcopy_app) as [s ->].
assert (wf (w_fs wb)) as Hwfb.
{ apply (keeps_wf_run _ _ _ _ Hcopy_app); [by apply keeps_wf_copy_helper|done]. }
apply copy_helper_inv in Hcopy_app
  as (ks & d & w0 & _ & Hd & _); [|done].
(* the standard tree *)
assert (wf (w_fs wc)) as Hwfc.
{ apply (keeps_wf_run _ _ _ _ Htree); [by apply keeps_wf_setup_dirs|done]. }
apply setup_dirs_spec in Htree as [Htree _].
assert (∀ n, n ∈ DEFAULT_APP_TREE → w_fs wc !! (d ++ [n]) = Some Dir) as Hc.
{ intros n Hn. rewrite Forall_forall in Htree.
  specialize (Htree (join path [n])
                (list_elem_of_fmap_2 (λ n, join path [n]) _ _ Hn)).
  unfold dir_at, lookup_path in Htree.
  assert (plain n = true) as Hplain.
  { clear Htree. revert n Hn. apply Forall_forall. by repeat constructor. }
  rewrite (resolve_join _ _ _ _ Hd Hplain) in Htree.
  by destruct (w_fs wc !! (d ++ [n])) as [[]|]. }
(* the vendor template *)
assert (w_fs we = w_fs wc) as Hfs_e.
{ pose proof (find_template_dir_fs env
                (if truthy template then normpath template else "") "vendor"
                false wc) as H1.
  rewrite Hfind_v in H1. cbn [snd] in H1. rewrite <- H1.
  destruct v as [p|]; [by injection Hfall as _ <-|].
  apply bind_inv_ok in Hfall as ([] & wl & Hlog & Hfall).
  injection Hlog as <-.
  pose proof (find_template_dir_fs env "default" "vendor" false
                {| w_fs := w_fs wd; w_log := w_log wd ++ [(DEBUG, "vendor not found in template set " +:+ dq +:+ (if truthy template then normpath template else "") +:+ dq +:+ ". fallback to default vendor.")] |}) as H2.
  rewrite Hfall in H2. by cbn [snd w_fs] in H2. }
destruct (copy_helper_some _ _ _ _ Hcopy_v) as [sv ->].
assert (wf (w_fs we)) as Hwfe by (by rewrite Hfs_e).
pose proof (copy_helper_effect env sv (join path ["vendor"]) we Hwfe) as Hv.
rewrite Hcopy_v in Hv. cbn [fst snd] in Hv. specialize (Hv eq_refl).
destruct Hv as (ksv & kdv & _ & Hkdv & Hvdir & Hkept & _).
rewrite (resolve_join _ _ "vendor" _ Hd eq_refl) in Hkdv. injection Hkdv as <-.
assert (∀ n, n ∈ "vendor" :: DEFAULT_APP_TREE → w_fs wg !! (d ++ [n]) = Some Dir)
  as Hg.
{ intros n [->|Hn]%elem_of_cons.
  - unfold is_dir in Hvdir. by destruct (w_fs wg !! (d ++ ["vendor"])) as [[]|].
  - specialize (Hkept (d ++ [n])). unfold is_dir in Hkept.
    rewrite Hfs_e, (Hc n Hn) in Hkept. specialize (Hkept eq_refl).
    by destruct (w_fs wg !! (d ++ [n])) as [[]|]. }
(* the identifier *)
unfold save_id in Hid.
apply write_file_inv in Hid as (k & m & Hk & _ & _ & _ & ->).
rewrite (resolve_join _ _ "_id" _ Hd eq_refl) in Hk. injection Hk as <-.
exists d, (World (<[d ++ ["_id"] := File ("_design/" +:+ (split path).2) m]>
                    (w_fs wg)) (w_log wg)).
split; [done|]. split; [|split; [|done]].
- intros n Hn. cbn [w_fs]. rewrite lookup_insert_ne; [by apply Hg|].
  intros Heq. apply app_inv_head in Heq. injection Heq as <-.
  revert Hn. apply (bool_decide_unpack _). vm_compute. exact I.
- exists m. cbn [w_fs]. by rewrite lookup_insert_eq.
Qed.

End InitTemplatePost.

(** ** Copies of whole trees *)

Section DeepCopy.
Variable env : Env.
Hypothesis cwd_plain : Forall (λ c, Fs.plain c = true) (cwd env).
Import Str PosixPath Fs.

(** In a well-formed file system what lies above an entry is a
directory. *)
Lemma wf_ancestor_dir fs k rel :
wf fs → rel ≠ [] → is_Some (fs !! (k ++ rel)) → fs !! k = Some Dir.
Proof.
intros Hwf. induction rel as [|c rel IH] using rev_ind; [done|].
intros _ Hex. rewrite app_assoc in Hex.
assert (fs !! (k ++ rel) = Some Dir) as Hparent.
{ destruct Hwf as [_ Hall]. destruct Hex as [n Hn]. specialize (Hall _ _ Hn).
  apply wf_entry_parent in Hall; [|by destruct (k ++ rel)].
  rewrite removelast_last in Hall. unfold is_dir in Hall.
  by destruct (fs !! (k ++ rel)) as [[]|]. }
destruct rel as [|c' rel]; [by rewrite app_nil_r in Hparent|].
apply IH; [done|]. by rewrite Hparent.
Qed.

Lemma wf_below_none fs k rel :
wf fs → fs !! k = None → fs !! (k ++ rel) = None.
Proof.
intros Hwf Hk. destruct rel as [|c rel]; [by rewrite app_nil_r|].
destruct (fs !! (k ++ c :: rel)) eqn:E; [|done].
rewrite (wf_ancestor_dir fs k (c :: rel)) in Hk; [done|done|done|by rewrite E].
Qed.

Lemma wf_below_file fs k d m rel :
wf fs → fs !! k = Some (File d m) → rel ≠ [] → fs !! (k ++ rel) = None.
Proof.
intros Hwf Hk Hrel.
destruct (fs !! (k ++ rel)) eqn:E; [|done].
rewrite (wf_ancestor_dir fs k rel) in Hk; [done|done|done|by rewrite E].
Qed.

Lemma apart_snoc ks kd p : apart ks kd → apart (ks ++ [p]) (kd ++ [p]).
Proof.
intros [H1 H2]. split.
- intros [Heq|Hpre]%prefix_snoc_inv.
  + apply app_inj_tail in Heq as [-> _]. by apply H1.
  + apply H1. etrans; [|exact Hpre]. by apply prefix_app_r.
- intros [Heq|Hpre]%prefix_snoc_inv.
  + apply app_inj_tail in Heq as [-> _]. by apply H1.
  + apply H2. etrans; [|exact Hpre]. by apply prefix_app_r.
Qed.

(** What is written below [kd] leaves the tree at [ks] alone. *)
Lemma apart_source fs fs' ks kd :
apart ks kd → changes_under kd fs fs' →
∀ rel, fs' !! (ks ++ rel) = fs !! (ks ++ rel).
Proof.
intros [H1 H2] Hc rel.
destruct (decide (fs' !! (ks ++ rel) = fs !! (ks ++ rel))) as [|Hne];
  [done|exfalso].
apply Hc in Hne.
destruct (prefix_weak_total ks kd (ks ++ rel)) as [?|?]; try done.
by apply prefix_app_r.
Qed.

Lemma copystat_raise src dst w e w' :
copystat env src dst w = (Raise e, w') → ∃ n p, e = OSError n p.
Proof.
unfold copystat, bind, get_fs, put_fs.
destruct (resolve (cwd env) src) as [a|]; [|intros [= <- _]; eauto].
destruct (resolve (cwd env) dst) as [b|]; [|intros [= <- _]; eauto].
destruct (w_fs w !! a) as [[d m|]|]; [| |intros [= <- _]; eauto].
- destruct (w_fs w !! b) as [[d' m'|]|]; [done|done|intros [= <- _]; eauto].
- destruct (w_fs w !! b); [done|intros [= <- _]; eauto].
Qed.

(** [copystat] onto a directory changes nothing. *)
Lemma copystat_dir src dst b w r w' :
resolve (cwd env) dst = Some b → is_dir (w_fs w) b = true →
copystat env src dst w = (r, w') → w' = w.
Proof.
intros Hb Hdir. unfold copystat, bind, get_fs, put_fs. rewrite Hb.
unfold is_dir in Hdir.
destruct (resolve (cwd env) src) as [a|]; [|by intros [= _ <-]].
destruct (w_fs w !! b) as [[|]|]; [done| |done].
destruct (w_fs w !! a) as [[d m|]|]; by intros [= _ <-].
Qed.

(** The only [shutil.Error] that [copy2] raises names the two files. *)
Lemma copy2_shutil src dst w errs w' :
copy2 env src dst w = (Raise (ShutilError errs), w') → errs ≠ [].
Proof.
unfold copy2. rewrite (bind_ok _ _ _ _ _ (os_path_isdir_eq env _ w)).
set (dst' := if dir_at env (w_fs w) dst then _ else _).
destruct (copyfile env src dst' w) as [[[]|e] w1] eqn:Hcf.
- rewrite (bind_ok _ _ _ _ _ Hcf).
  intros (n & p & [=])%copystat_raise.
- rewrite (bind_raise _ _ _ _ _ Hcf). intros [= -> <-].
  revert Hcf. unfold copyfile. unfold bind at 1. unfold get_fs.
  destruct (samefile env (w_fs w) src dst'); [by intros [= <- _]|].
  destruct (read_file env src w) as [[f|e] w2] eqn:Hrf.
  + rewrite (bind_ok _ _ _ _ _ Hrf).
    intros [_ [n [=]]]%write_file_raise.
  + rewrite (bind_raise _ _ _ _ _ Hrf). intros [= -> _].
    revert Hrf. unfold read_file, bind, get_fs.
    destruct (resolve (cwd env) src) as [a|]; [|done].
    destruct (w_fs w !! a) as [[d m|]|]; [|done|done].
    by destruct (may_read env m).
Qed.

Lemma copytree_loop_nil rec src dst names errors w w2 :
copytree_loop env rec src dst names errors w = (Ok [], w2) → errors = [].
Proof.
revert errors w. induction names as [|name names IH]; intros errors w.
{ by intros [= -> _]. }
cbn [copytree_loop]. cbv zeta.
intros (errors' & w1 & Hstep & Hrest)%bind_inv_ok.
apply IH in Hrest as ->. revert Hstep. unfold try_except.
destruct (bind (os_path_isdir env (join src [name])) _ w) as [[x|e] wi] eqn:Hin.
- intros [= -> <-].
  apply bind_inv_ok in Hin as (b & wb & _ & Hin).
  apply bind_inv_ok in Hin as ([] & wc & _ & Hin). by injection Hin as <-.
- destruct e; cbn; try done; intros [= Heq _];
    by apply app_eq_nil in Heq as [-> _].
Qed.

(** The loop of [copytree] never raises [shutil.Error]. *)
Lemma copytree_loop_shutil rec src dst names errors w errs w' :
copytree_loop env rec src dst names errors w ≠ (Raise (ShutilError errs), w').
Proof.
revert errors w. induction names as [|name names IH]; intros errors w; [done|].
cbn [copytree_loop]. cbv zeta.
set (step := try_except _ _).
destruct (step w) as [[errors'|e] w1] eqn:Hstep.
- rewrite (bind_ok _ _ _ _ _ Hstep). apply IH.
- rewrite (bind_raise _ _ _ _ _ Hstep). intros [= -> <-].
  revert Hstep. unfold step, try_except.
  destruct (bind (os_path_isdir env (join src [name])) _ w) as [[x|e] wi];
    [done|]. by destruct e.
Qed.

Lemma copytree_depth_shutil depth src dst w errs w' :
copytree_depth env depth src dst w = (Raise (ShutilError errs), w') →
errs ≠ [].
Proof.
destruct depth as [|depth]; [done|]. cbn [copytree_depth].
destruct (os_listdir env src w) as [[names|e] w0] eqn:Hls.
2:{ rewrite (bind_raise _ _ _ _ _ Hls). intros [= -> _]. revert Hls.
    unfold os_listdir, bind, get_fs.
    destruct (resolve (cwd env) src) as [k|]; [|done].
    by destruct (w_fs w !! k) as [[]|]. }
rewrite (bind_ok _ _ _ _ _ Hls).
destruct (os_makedirs env dst w0) as [[[]|e] w1] eqn:Hmk.
2:{ rewrite (bind_raise _ _ _ _ _ Hmk). intros [= -> _]. revert Hmk.
    unfold os_makedirs, bind, get_fs.
    destruct (resolve (cwd env) dst) as [k|]; [|done].
    by destruct (makedirs_key k (w_fs w0)). }
rewrite (bind_ok _ _ _ _ _ Hmk).
destruct (copytree_loop env (copytree_depth env depth) src dst names [] w1)
  as [[errors|e] w2] eqn:Hloop.
2:{ rewrite (bind_raise _ _ _ _ _ Hloop). intros [= -> <-].
    by apply copytree_loop_shutil in Hloop. }
rewrite (bind_ok _ _ _ _ _ Hloop).
set (stat := try_except _ _).
destruct (stat w2) as [[errors2|e] w3] eqn:Hstat.
- rewrite (bind_ok _ _ _ _ _ Hstat). destruct errors2; [done|].
  by intros [= <- _].
- rewrite (bind_raise _ _ _ _ _ Hstat). intros [= -> <-].
  revert Hstat. unfold stat, try_except.
  destruct (bind (copystat env src dst) _ w2) as [[x|e] wi] eqn:Hin; [done|].
  assert (∃ n p, e = OSError n p) as (n & p & ->).
  { destruct (copystat env src dst w2) as [[[]|e'] wj] eqn:Hcs.
    - by rewrite (bind_ok _ _ _ _ _ Hcs) in Hin.
    - rewrite (bind_raise _ _ _ _ _ Hcs) in Hin. injection Hin as <- _.
      by apply copystat_raise in Hcs. }
  done.
Qed.

Section TreeLoop.
Variable rec : string → string → M unit.
Variables (src dst : string) (ks kd : key).
Hypothesis Hsrc : resolve (cwd env) src = Some ks.
Hypothesis Hdst : resolve (cwd env) dst = Some kd.
Hypothesis Hapart : apart ks kd.
Hypothesis Hrec_wf : ∀ a b, keeps_wf (rec a b).
Hypothesis Hrec_frame : ∀ name w,
  plain name = true → dirs_below (w_fs w) [] kd →
  changes_under (kd ++ [name]) (w_fs w)
    (w_fs (rec (join src [name]) (join dst [name]) w).2).
Hypothesis Hrec_shutil : ∀ a b w errs w',
  rec a b w = (Raise (ShutilError errs), w') → errs ≠ [].
Hypothesis Hrec_copy : ∀ name w w',
  plain name = true → wf (w_fs w) →
  rec (join src [name]) (join dst [name]) w = (Ok tt, w') →
  same_tree (w_fs w) (w_fs w') (ks ++ [name]) (kd ++ [name]).

(** One round of the loop of [copytree] that reports no error has copied
the entry, with all that is below it. *)
Lemma copytree_step_copy name w w1 :
plain name = true → wf (w_fs w) → w_fs w !! kd = Some Dir →
(∀ rel, w_fs w !! (kd ++ name :: rel) = None) →
try_except
  (b <- os_path_isdir env (join src [name]) ;;
   (if b then rec (join src [name]) (join dst [name])
    else copy2 env (join src [name]) (join dst [name])) ;;
   ret [])
  (copytree_handler (join src [name]) (join dst [name]) []) w = (Ok [], w1) →
wf (w_fs w1) ∧ changes_under (kd ++ [name]) (w_fs w) (w_fs w1) ∧
same_tree (w_fs w) (w_fs w1) (ks ++ [name]) (kd ++ [name]).
Proof.
intros Hname Hwf Hkd Hfree. unfold try_except.
pose proof (resolve_join _ _ _ _ Hsrc Hname) as Ha.
pose proof (resolve_join _ _ _ _ Hdst Hname) as Hb.
rewrite (bind_ok _ _ _ _ _ (os_path_isdir_eq env _ w)).
destruct (dir_at env (w_fs w) (join src [name])) eqn:Hd.
- destruct (rec (join src [name]) (join dst [name]) w) as [[[]|e] wi] eqn:Hrun.
  + rewrite (bind_ok _ _ _ _ _ Hrun). intros [= <-]. split; [|split].
    * by apply (keeps_wf_run _ _ _ _ Hrun).
    * pose proof (Hrec_frame name w Hname (wf_dirs_to _ _ Hwf Hkd)) as H.
      by rewrite Hrun in H.
    * by apply Hrec_copy.
  + rewrite (bind_raise _ _ _ _ _ Hrun).
    destruct e; cbn; try done.
    destruct errors as [|x l]; [|done]. by apply Hrec_shutil in Hrun.
- destruct (copy2 env (join src [name]) (join dst [name]) w) as [[[]|e] wi]
    eqn:Hrun.
  + rewrite (bind_ok _ _ _ _ _ Hrun). intros [= <-].
    split; [apply (keeps_wf_run _ _ _ _ Hrun); [by apply keeps_wf_copy2|done]|].
    destruct (copy2_inv env _ _ _ _ name w _ _ Ha Hb (basename_join _ _ Hname)
                Hname Hrun)
      as [[_ [e He]]|(_ & Hne & Hnd & d & m & Hfa & ->)]; [done|].
    assert (is_dir (w_fs w) (kd ++ [name]) = false) as Hnodir.
    { unfold is_dir. by rewrite (Hfree []). }
    rewrite Hnodir. cbn [w_fs]. split; [apply changes_under_insert|].
    intros rel. destruct rel as [|c rel].
    * rewrite !app_nil_r. by rewrite lookup_insert_eq.
    * rewrite lookup_insert_ne.
      2:{ intros Heq. apply (f_equal length) in Heq.
          rewrite !length_app in Heq. cbn in Heq. lia. }
      rewrite <- app_assoc. cbn [app]. rewrite Hfree.
      symmetry. by apply (wf_below_file _ _ d m).
  + rewrite (bind_raise _ _ _ _ _ Hrun).
    destruct e; cbn; try done.
    destruct errors as [|x l]; [|done]. by apply copy2_shutil in Hrun.
Qed.

Lemma copytree_loop_copy names errors w w2 :
NoDup names → Forall (λ p, plain p = true) names →
wf (w_fs w) → w_fs w !! kd = Some Dir →
(∀ p, p ∈ names → ∀ rel, w_fs w !! (kd ++ p :: rel) = None) →
copytree_loop env rec src dst names errors w = (Ok [], w2) →
wf (w_fs w2) ∧
(∀ k, w_fs w2 !! k ≠ w_fs w !! k → ∃ p, p ∈ names ∧ kd ++ [p] `prefix_of` k) ∧
(∀ p, p ∈ names → ∀ rel,
   w_fs w2 !! (kd ++ p :: rel) = w_fs w !! (ks ++ p :: rel)).
Proof.
revert errors w.
induction names as [|name names IH]; intros errors w Hnd Hplain Hwf Hkd Hfree.
{ intros [= _ <-]. split; [done|]. split; [done|].
  intros p Hp. by apply elem_of_nil in Hp. }
intros Hrun. pose proof (copytree_loop_nil _ _ _ _ _ _ _ Hrun) as ->.
apply NoDup_cons in Hnd as [Hfresh Hnd].
apply Forall_cons in Hplain as [Hname Hplain].
cbn [copytree_loop] in Hrun. cbv zeta in Hrun.
apply bind_inv_ok in Hrun as (errors' & w1 & Hstep & Hrest).
pose proof (copytree_loop_nil _ _ _ _ _ _ _ Hrest) as ->.
apply copytree_step_copy in Hstep as (Hwf1 & Hc1 & Htree1); try done.
2:{ intros rel. apply Hfree. by left. }
assert (∀ k, ¬ kd ++ [name] `prefix_of` k → w_fs w1 !! k = w_fs w !! k) as Hsame1.
{ intros k Hk. destruct (decide (w_fs w1 !! k = w_fs w !! k)) as [|Hne];
    [done|]. by apply Hc1 in Hne. }
assert (∀ q rel, q ≠ name → ¬ kd ++ [name] `prefix_of` kd ++ q :: rel) as Hother.
{ intros q rel Hq Hpre. apply Hq.
  apply (prefix_entry_inj kd q name (kd ++ q :: rel)); [|done].
  exists rel. by rewrite <- app_assoc. }
apply IH in Hrest as (Hwf2 & Hc2 & Htree2); try done.
2:{ rewrite Hsame1; [done|]. intros Hpre. apply prefix_length in Hpre.
    rewrite length_app in Hpre. cbn in Hpre. lia. }
2:{ intros p Hp rel. rewrite Hsame1; [apply Hfree; by right|].
    apply Hother. by intros ->. }
split; [done|]. split.
- intros k Hne. destruct (decide (w_fs w2 !! k = w_fs w1 !! k)) as [Heq|Hne1].
  + exists name. split; [by left|]. apply Hc1. by rewrite <- Heq.
  + destruct (Hc2 k Hne1) as (p & Hp & Hpre). exists p. split; [by right|done].
- intros p [->|Hp]%elem_of_cons rel.
  + specialize (Htree1 rel). rewrite <- !app_assoc in Htree1. cbn [app] in Htree1.
    rewrite <- Htree1.
    destruct (decide (w_fs w2 !! (kd ++ name :: rel) = w_fs w1 !! (kd ++ name :: rel)))
      as [|Hne]; [done|exfalso].
    destruct (Hc2 _ Hne) as (q & Hq & Hpre). apply Hfresh.
    replace name with q; [done|].
    apply (prefix_entry_inj kd q name (kd ++ name :: rel)); [done|].
    exists rel. by rewrite <- app_assoc.
  + rewrite (Htree2 p Hp rel).
    replace (ks ++ p :: rel) with (ks ++ (p :: rel)) by done.
    apply (apart_source _ _ ks kd Hapart).
    eapply changes_under_weaken; [|exact Hc1]. by apply prefix_app_r.
Qed.

End TreeLoop.

(** [copytree], when it succeeds, leaves at the destination the tree of
the source. *)
Lemma copytree_depth_copy depth src dst ks kd w w' :
resolve (cwd env) src = Some ks → resolve (cwd env) dst = Some kd →
apart ks kd → wf (w_fs w) →
copytree_depth env depth src dst w = (Ok tt, w') →
same_tree (w_fs w) (w_fs w') ks kd.
Proof.
revert src dst ks kd w w'.
induction depth as [|depth IH]; intros src dst ks kd w w' Hsrc Hdst Hapart Hwf;
  [done|].
cbn [copytree_depth]. intros Hrun.
apply bind_inv_ok in Hrun as (names & w0 & Hls & Hrun).
apply os_listdir_inv in Hls as [-> Hnames].
destruct (Hnames names eq_refl) as (ks' & Hs' & Hsdir & ->). clear Hnames.
rewrite Hsrc in Hs'. injection Hs' as <-.
apply bind_inv_ok in Hrun as ([] & w1 & Hmk & Hrun).
pose proof (keeps_wf_run _ _ _ _ Hmk (keeps_wf_os_makedirs env cwd_plain dst) Hwf)
  as Hwf1.
apply os_makedirs_inv in Hmk as (kd' & Hd' & Hmk & _).
rewrite Hdst in Hd'. injection Hd' as <-.
apply makedirs_key_spec in Hmk as (Hfree & Hkd1 & Hchain1 & Hkeep & Hnew).
assert (∀ k, w_fs w1 !! k ≠ w_fs w !! k → k `prefix_of` kd) as Hc01.
{ intros k Hne. destruct (w_fs w !! k) as [n|] eqn:E.
  - by rewrite (Hkeep _ _ E) in Hne.
  - destruct (w_fs w1 !! k) as [n|] eqn:E1; [|done].
    apply (Hnew k E). by rewrite E1. }
assert (∀ rel, rel ≠ [] → w_fs w1 !! (kd ++ rel) = None) as Hfree1.
{ intros rel Hrel.
  destruct (decide (w_fs w1 !! (kd ++ rel) = w_fs w !! (kd ++ rel))) as [->|Hne].
  - by apply wf_below_none.
  - apply Hc01 in Hne. apply prefix_length in Hne. rewrite length_app in Hne.
    destruct rel; [done|]. cbn in Hne. lia. }
assert (∀ rel, w_fs w1 !! (ks ++ rel) = w_fs w !! (ks ++ rel)) as Hsrc1.
{ intros rel.
  destruct (decide (w_fs w1 !! (ks ++ rel) = w_fs w !! (ks ++ rel))) as [|Hne];
    [done|exfalso].
  apply Hc01 in Hne. destruct Hapart as [H1 _]. apply H1.
  etrans; [|exact Hne]. by apply prefix_app_r. }
apply bind_inv_ok in Hrun as (errors & w2 & Hloop & Hrun).
apply bind_inv_ok in Hrun as (errors2 & w3 & Hstat & Hrun).
destruct errors2 as [|x l]; [|done]. injection Hrun as <-.
(* the errors of the loop *)
assert (errors = [] ∧ ∃ r, copystat env src dst w2 = (r, w3)) as [-> [r Hcs]].
{ revert Hstat. unfold try_except.
  destruct (copystat env src dst w2) as [[[]|e] wi] eqn:Hcs.
  - rewrite (bind_ok _ _ _ _ _ Hcs). intros [= -> <-]. eauto.
  - rewrite (bind_raise _ _ _ _ _ Hcs).
    destruct e; try done. intros [= Heq _].
    by apply app_eq_nil in Heq as [_ ?]. }
apply (copytree_loop_copy (copytree_depth env depth) src dst ks kd Hsrc Hdst
         Hapart) in Hloop as (Hwf2 & Hc2 & Htree2).
- assert (w_fs w2 !! kd = Some Dir) as Hkd2.
  { destruct (decide (w_fs w2 !! kd = w_fs w1 !! kd)) as [->|Hne]; [done|].
    destruct (Hc2 _ Hne) as (p & _ & Hpre). apply prefix_length in Hpre.
    rewrite length_app in Hpre. cbn in Hpre. lia. }
  apply (copystat_dir _ _ kd) in Hcs as ->;
    [|done|by unfold is_dir; rewrite Hkd2].
  intros rel. destruct rel as [|p rel].
  + rewrite !app_nil_r, Hkd2. unfold is_dir in Hsdir.
    by destruct (w_fs w !! ks) as [[]|].
  + destruct (decide (p ∈ children (w_fs w) ks)) as [Hp|Hp].
    * rewrite (Htree2 p Hp rel). apply (Hsrc1 (p :: rel)).
    * assert (w_fs w !! (ks ++ [p]) = None) as Hnone.
      { destruct (w_fs w !! (ks ++ [p])) as [n|] eqn:E; [|done].
        exfalso. apply Hp. apply elem_of_children. split; [|by rewrite E].
        apply (wf_plain_last (w_fs w) ks); [done|by rewrite E]. }
      replace (ks ++ p :: rel) with ((ks ++ [p]) ++ rel)
        by (by rewrite <- app_assoc).
      rewrite (wf_below_none _ _ rel Hwf Hnone).
      destruct (decide (w_fs w2 !! (kd ++ p :: rel) = w_fs w1 !! (kd ++ p :: rel)))
        as [->|Hne]; [by apply Hfree1|exfalso].
      destruct (Hc2 _ Hne) as (q & Hq & Hpre). apply Hp.
      replace p with q; [done|].
      apply (prefix_entry_inj kd q p (kd ++ p :: rel)); [done|].
      exists rel. by rewrite <- app_assoc.
- intros a b. apply keeps_wf_copytree_depth. done.
- intros name wa Hname Hchain.
  pose proof (copytree_depth_effect env depth (join src [name]) (join dst [name])
                (kd ++ [name]) wa (resolve_join _ _ _ _ Hdst Hname)
                ltac:(by rewrite removelast_last)) as H.
  cbv zeta in H. by destruct H as (_ & H & _).
- intros a b wa errs wb. apply copytree_depth_shutil.
- intros name wa wb Hname Hwfa Hrec.
  apply (IH (join src [name]) (join dst [name])); try done.
  + by apply resolve_join.
  + by apply resolve_join.
  + by apply apart_snoc.
- apply NoDup_children.
- apply children_plain.
- done.
- done.
- intros p Hp rel. apply (Hfree1 (p :: rel)). done.
Qed.

Section TreeEntries.
Variables (src dest : string) (ks kd : key).
Hypothesis Hsrc : resolve (cwd env) src = Some ks.
Hypothesis Hdest : resolve (cwd env) dest = Some kd.
Hypothesis Hapart : apart ks kd.

(** The loop of [copy_helper], when it succeeds, has copied every
directory of the list with its tree, and every file of the list that has
no directory of its name at the destination. *)
Lemma copy_loop_trees names w w' :
NoDup names → Forall (λ p, plain p = true) names →
wf (w_fs w) → w_fs w !! kd = Some Dir → w_fs w !! ks = Some Dir →
(∀ p, p ∈ names → is_Some (w_fs w !! (ks ++ [p]))) →
for_each names (copy_entry env src dest) w = (Ok tt, w') →
∀ p, p ∈ names →
  if is_dir (w_fs w) (ks ++ [p])
  then same_tree (w_fs w) (w_fs w') (ks ++ [p]) (kd ++ [p])
  else is_dir (w_fs w) (kd ++ [p]) = false →
       w_fs w' !! (kd ++ [p]) = w_fs w !! (ks ++ [p]).
Proof.
revert w.
induction names as [|p0 names IH]; intros w Hnd Hplain Hwf Hkd Hks Hex Hrun p Hp.
{ by apply elem_of_nil in Hp. }
apply NoDup_cons in Hnd as [Hfresh Hnd].
apply Forall_cons in Hplain as [Hp0 Hplain].
cbn [for_each] in Hrun.
apply bind_inv_ok in Hrun as ([] & w1 & Hstep & Hrest).
pose proof (keeps_wf_run _ _ _ _ Hstep
              (keeps_wf_copy_entry env cwd_plain src dest p0) Hwf) as Hwf1.
pose proof (wf_dirs_to _ _ Hwf Hkd) as Hchain_d.
destruct (copy_entry_spec env src dest ks kd Hsrc Hdest p0 w _ _ Hp0 Hchain_d Hstep)
  as (Hkept1 & Hc1 & Hok1).
specialize (Hok1 eq_refl).
assert (∀ rel, w_fs w1 !! (ks ++ rel) = w_fs w !! (ks ++ rel)) as Hsrc1.
{ apply (apart_source _ _ ks kd Hapart).
  eapply changes_under_weaken; [|exact Hc1]. by apply prefix_app_r. }
assert (w_fs w1 !! kd = Some Dir) as Hkd1.
{ specialize (Hkept1 kd). unfold is_dir in Hkept1. rewrite Hkd in Hkept1.
  specialize (Hkept1 eq_refl). by destruct (w_fs w1 !! kd) as [[]|]. }
assert (w_fs w1 !! ks = Some Dir) as Hks1.
{ specialize (Hsrc1 []). rewrite app_nil_r in Hsrc1. by rewrite Hsrc1. }
assert (∀ q, q ∈ names → is_Some (w_fs w1 !! (ks ++ [q]))) as Hex1.
{ intros q Hq. rewrite (Hsrc1 [q]). apply Hex. by right. }
destruct (copy_loop_spec env src dest ks kd Hsrc Hdest names w1 w')
  as (_ & _ & Hc2 & _); try done.
{ by apply wf_dirs_to. }
{ by apply wf_dirs_to. }
assert (∀ k, kd ++ [p0] `prefix_of` k → w_fs w' !! k = w_fs w1 !! k) as Hkeep_p0.
{ intros k Hk. destruct (decide (w_fs w' !! k = w_fs w1 !! k)) as [|Hne];
    [done|exfalso].
  destruct (Hc2 _ Hne) as (q & Hq & Hpre). apply Hfresh.
  by rewrite (prefix_entry_inj kd p0 q k Hk Hpre). }
apply elem_of_cons in Hp as [->|Hp].
- destruct (is_dir (w_fs w) (ks ++ [p0])) eqn:Hdir.
  + intros rel. rewrite Hkeep_p0 by (by apply prefix_app_r).
    revert rel. fold (same_tree (w_fs w) (w_fs w1) (ks ++ [p0]) (kd ++ [p0])).
    revert Hstep. unfold copy_entry. cbv zeta.
    rewrite (bind_ok _ _ _ _ _ (os_path_isdir_eq env _ w)).
    unfold dir_at, lookup_path. rewrite (resolve_join _ _ _ _ Hsrc Hp0).
    fold (is_dir (w_fs w) (ks ++ [p0])). rewrite Hdir. unfold copytree.
    apply copytree_depth_copy; try done.
    * by apply resolve_join.
    * by apply resolve_join.
    * by apply apart_snoc.
  + intros Hnodir. rewrite Hkeep_p0 by done.
    destruct Hok1 as (_ & n & Hfs1 & _).
    unfold copy_target in Hfs1. rewrite Hnodir in Hfs1.
    pose proof (Hsrc1 [p0]) as Hsame.
    revert Hstep. unfold copy_entry. cbv zeta.
    rewrite (bind_ok _ _ _ _ _ (os_path_isdir_eq env _ w)).
    unfold dir_at, lookup_path. rewrite (resolve_join _ _ _ _ Hsrc Hp0).
    fold (is_dir (w_fs w) (ks ++ [p0])). rewrite Hdir. intros Hstep.
    destruct (copy2_inv env _ _ _ _ p0 w _ _ (resolve_join _ _ _ _ Hsrc Hp0)
                (resolve_join _ _ _ _ Hdest Hp0) (basename_join _ _ Hp0) Hp0 Hstep)
      as [[_ [e He]]|(_ & _ & _ & d & m & Hfa & ->)]; [done|].
    rewrite Hnodir. cbn [w_fs]. by rewrite lookup_insert_eq.
- assert (p ≠ p0) as Hpp by (by intros ->).
  assert (¬ kd ++ [p0] `prefix_of` kd ++ [p]) as Hnot.
  { intros Hpre. apply Hpp. symmetry.
    by apply (prefix_entry_inj kd p0 p (kd ++ [p])). }
  specialize (IH w1 Hnd Hplain Hwf1 Hkd1 Hks1 Hex1 Hrest p Hp).
  assert (is_dir (w_fs w1) (ks ++ [p]) = is_dir (w_fs w) (ks ++ [p])) as Hd1
    by (unfold is_dir; by rewrite (Hsrc1 [p])).
  rewrite Hd1 in IH. destruct (is_dir (w_fs w) (ks ++ [p])).
  + intros rel. rewrite (IH rel). rewrite <- !app_assoc. apply Hsrc1.
  + intros Hnodir. rewrite <- (Hsrc1 [p]). apply IH.
    unfold is_dir in *.
    destruct (decide (w_fs w1 !! (kd ++ [p]) = w_fs w !! (kd ++ [p])))
      as [->|Hne]; [done|]. by apply Hc1 in Hne.
Qed.

End TreeEntries.

(** The subdirectories of the source, after a successful
[copy_helper]. *)
Lemma copy_helper_trees src dest w w' :
wf (w_fs w) → copy_helper env (Some src) dest w = (Ok tt, w') →
∃ ks kd,
  resolve (cwd env) src = Some ks ∧ resolve (cwd env) dest = Some kd ∧
  (apart ks kd →
   (∀ p, is_dir (w_fs w) (ks ++ [p]) = true →
      same_tree (w_fs w) (w_fs w') (ks ++ [p]) (kd ++ [p])) ∧
   (w_fs w !! kd = None → same_tree (w_fs w) (w_fs w') ks kd)).
Proof.
intros Hwf Hrun. pose proof Hrun as Hrun'.
apply copy_helper_inv in Hrun
  as (ks & kd & w0 & Hs & Hd & Hsdir & Hsetup & Hddir & Hcd & Hcs & Hkept0
      & Hframe0 & Hloop); [|done].
exists ks, kd. split; [done|]. split; [done|]. intros Hapart.
pose proof (keeps_wf_run _ _ _ _ Hsetup (keeps_wf_setup_dir env cwd_plain dest false)
              Hwf) as Hwf0.
pose proof (keeps_wf_run _ _ _ _ Hrun' (keeps_wf_copy_helper env cwd_plain _ dest)
              Hwf) as Hwf'.
assert (∀ rel, w_fs w0 !! (ks ++ rel) = w_fs w !! (ks ++ rel)) as Hsrc0.
{ intros rel.
  destruct (decide (w_fs w0 !! (ks ++ rel) = w_fs w !! (ks ++ rel))) as [|Hne];
    [done|exfalso].
  apply Hframe0 in Hne. destruct Hapart as [H1 _]. apply H1.
  etrans; [|exact Hne]. by apply prefix_app_r. }
assert (w_fs w0 !! ks = Some Dir) as Hsdir0.
{ specialize (Hsrc0 []). rewrite app_nil_r in Hsrc0. by rewrite Hsrc0. }
pose proof (copy_loop_trees src dest ks kd Hs Hd Hapart (children (w_fs w0) ks)
              w0 w' (NoDup_children _ _) (children_plain _ _) Hwf0 Hddir Hsdir0)
  as Htrees.
specialize (Htrees ltac:(intros p Hp; by apply elem_of_children in Hp as [_ ?])
              Hloop).
destruct (copy_loop_spec env src dest ks kd Hs Hd (children (w_fs w0) ks) w0 w')
  as (Hkept1 & _ & Hframe1 & _); try done.
{ apply NoDup_children. }
{ apply children_plain. }
{ intros p Hp. by apply elem_of_children in Hp as [_ ?]. }
assert (∀ p, is_dir (w_fs w) (ks ++ [p]) = true →
          same_tree (w_fs w) (w_fs w') (ks ++ [p]) (kd ++ [p])) as Hdirs.
{ intros p Hp.
  assert (is_dir (w_fs w0) (ks ++ [p]) = true) as Hp0
    by (unfold is_dir; by rewrite (Hsrc0 [p])).
  assert (p ∈ children (w_fs w0) ks) as Hin.
  { apply elem_of_children. unfold is_dir in Hp0.
    destruct (w_fs w0 !! (ks ++ [p])) as [n|] eqn:E; [|done].
    split; [|done]. apply (wf_plain_last (w_fs w0) ks); [done|by rewrite E]. }
  specialize (Htrees p Hin). rewrite Hp0 in Htrees.
  intros rel. rewrite (Htrees rel). rewrite <- !app_assoc. apply Hsrc0. }
split; [done|].
intros Hfresh rel. destruct rel as [|p rel].
{ rewrite !app_nil_r, Hsdir.
  specialize (Hkept1 kd). unfold is_dir in Hkept1. rewrite Hddir in Hkept1.
  specialize (Hkept1 eq_refl). by destruct (w_fs w' !! kd) as [[]|]. }
assert (∀ rel, rel ≠ [] → w_fs w0 !! (kd ++ rel) = None) as Hfree0.
{ intros rel' Hrel.
  destruct (decide (w_fs w0 !! (kd ++ rel') = w_fs w !! (kd ++ rel')))
    as [->|Hne]; [by apply wf_below_none|].
  apply Hframe0 in Hne. apply prefix_length in Hne. rewrite length_app in Hne.
  destruct rel'; [done|]. cbn in Hne. lia. }
destruct (w_fs w !! (ks ++ [p])) as [[d m|]|] eqn:Hentry.
- (* a file of the source *)
  assert (p ∈ children (w_fs w0) ks) as Hin.
  { apply elem_of_children. rewrite (Hsrc0 [p]), Hentry. split; [|done].
    apply (wf_plain_last (w_fs w) ks); [done|by rewrite Hentry]. }
  specialize (Htrees p Hin). unfold is_dir in Htrees at 1.
  rewrite (Hsrc0 [p]), Hentry in Htrees.
  assert (w_fs w' !! (kd ++ [p]) = Some (File d m)) as Hcopy.
  { apply Htrees. unfold is_dir. by rewrite (Hfree0 [p]). }
  destruct rel as [|c rel]; [by rewrite Hcopy, Hentry|].
  replace (kd ++ p :: c :: rel) with ((kd ++ [p]) ++ c :: rel)
    by (by rewrite <- app_assoc).
  replace (ks ++ p :: c :: rel) with ((ks ++ [p]) ++ c :: rel)
    by (by rewrite <- app_assoc).
  rewrite (wf_below_file _ _ d m (c :: rel) Hwf' Hcopy) by done.
  by rewrite (wf_below_file _ _ d m (c :: rel) Hwf Hentry).
- (* a directory of the source *)
  pose proof (Hdirs p ltac:(by unfold is_dir; rewrite Hentry) rel) as H.
  by rewrite <- !app_assoc in H.
- (* no entry of the source *)
  replace (ks ++ p :: rel) with ((ks ++ [p]) ++ rel)
    by (by rewrite <- app_assoc).
  rewrite (wf_below_none _ _ rel Hwf Hentry).
  destruct (decide (w_fs w' !! (kd ++ p :: rel) = w_fs w0 !! (kd ++ p :: rel)))
    as [->|Hne]; [by apply Hfree0|exfalso].
  destruct (Hframe1 _ Hne) as (q & Hq & Hpre).
  apply elem_of_children in Hq as [_ Hq]. rewrite (Hsrc0 [q]) in Hq.
  replace q with p in Hq; [by rewrite Hentry in Hq; destruct Hq|].
  apply (prefix_entry_inj kd p q (kd ++ p :: rel)); [|done].
  exists rel. by rewrite <- app_assoc.
Qed.

End DeepCopy.

Section Invariants.
Variable env : Env.
Hypothesis cwd_plain : Forall (λ c, Fs.plain c = true) (cwd env).
Import Str PosixPath Fs.

(** X14. On a platform whose working directory consists of plain names,
every function of the module keeps the file system well formed, whatever
it answers: no entry is ever left outside a directory.  ([init_basic] and
[init_template] do so when the manifest collaborator does.) *)
Theorem module_keeps_wf document :
(∀ p c, keeps_wf (document p c)) →
(∀ path, keeps_wf (init_basic env document path)) ∧
(∀ path template, keeps_wf (init_template env document path template)) ∧
(∀ path kind name template,
   keeps_wf (generate_function env path kind name template)) ∧
(∀ path kind name template, keeps_wf (generate env path kind name template)) ∧
(∀ src dest, keeps_wf (copy_helper env src dest)) ∧
(∀ tmpl_name tmpl_type raise_error,
   keeps_wf (find_template_dir env tmpl_name tmpl_type raise_error)) ∧
(∀ path name, keeps_wf (save_id env path name)).
Proof.
intros Hdoc.
split; [intros; by apply keeps_wf_init_basic|].
split; [intros; by apply keeps_wf_init_template|].
split; [intros; by apply keeps_wf_generate_function|].
split; [intros; by apply keeps_wf_generate|].
split; [intros; by apply keeps_wf_copy_helper|].
split; [intros; by apply keeps_wf_find_template_dir|].
intros; by apply keeps_wf_save_id.
Qed.

(** X15. After a successful [copy_helper], when neither of source and
destination lies in the other, every top-level subdirectory of the source
is at the destination with its whole tree: the same entries, contents and
metadata, at every depth. *)
Theorem copy_helper_copies_subtrees src dest w :
wf (w_fs w) → (copy_helper env (Some src) dest w).1 = Ok tt →
let w' := (copy_helper env (Some src) dest w).2 in
∃ ks kd,
  resolve (cwd env) src = Some ks ∧ resolve (cwd env) dest = Some kd ∧
  (apart ks kd →
   ∀ p, is_dir (w_fs w) (ks ++ [p]) = true →
        same_tree (w_fs w) (w_fs w') (ks ++ [p]) (kd ++ [p])).
Proof.
intros Hwf.
destruct (copy_helper env (Some src) dest w) as [r w'] eqn:Hrun.
cbn [fst snd]. intros ->.
destruct (copy_helper_trees env cwd_plain src dest w w' Hwf Hrun)
  as (ks & kd & Hs & Hd & H).
exists ks, kd. split; [done|]. split; [done|]. intros Hapart.
by destruct (H Hapart).
Qed.

(** X16. A successful [copy_helper] into a destination that did not
exist makes the destination an exact copy of the tree of the source, when
neither lies in the other. *)
Theorem copy_helper_fresh_copy src dest w :
wf (w_fs w) → exists_at env (w_fs w) dest = false →
(copy_helper env (Some src) dest w).1 = Ok tt →
let w' := (copy_helper env (Some src) dest w).2 in
∃ ks kd,
  resolve (cwd env) src = Some ks ∧ resolve (cwd env) dest = Some kd ∧
  (apart ks kd → same_tree (w_fs w) (w_fs w') ks kd).
Proof.
intros Hwf Hfresh.
destruct (copy_helper env (Some src) dest w) as [r w'] eqn:Hrun.
cbn [fst snd]. intros ->.
destruct (copy_helper_trees env cwd_plain src dest w w' Hwf Hrun)
  as (ks & kd & Hs & Hd & H).
exists ks, kd. split; [done|]. split; [done|]. intros Hapart.
destruct (H Hapart) as [_ Hall]. apply Hall.
unfold exists_at, lookup_path in Hfresh. rewrite Hd in Hfresh.
by destruct (w_fs w !! kd).
Qed.

Lemma dir_kinds_plain kind : kind ∈ dir_kinds → plain (kind_dir kind) = true.
Proof.
revert kind. apply Forall_forall. by repeat constructor.
Qed.

Lemma dir_kinds_target path kind :
kind ∈ dir_kinds →
(if bool_decide (kind = "function") then path
 else if bool_decide (kind = "spatial") then join path ["spatial"]
 else join path [kind +:+ "s"]) = join path [kind_dir kind].
Proof.
revert kind. apply Forall_forall. by repeat constructor.
Qed.

Lemma dir_kinds_valid kind :
kind ∈ dir_kinds → kind ∈ func_list ∧ kind ≠ "vendor" ∧ kind ≠ "view".
Proof.
intros Hk. unfold dir_kinds in Hk.
repeat (apply elem_of_cons in Hk as [->|Hk]); [..|by apply elem_of_nil in Hk];
  (split; [apply (bool_decide_unpack _); vm_compute; exact I|by split]).
Qed.

(** X17. Generating an artifact of kind [list], [show], [filter],
[update] or [spatial] in an app directory that lacks the directory of the
kind, when it succeeds, does one thing to the file system: it creates that
directory, and leaves it empty. *)
Theorem generate_creates_kind_dir path kind name template w :
kind ∈ dir_kinds → wf (w_fs w) →
dir_at env (w_fs w) path = true →
exists_at env (w_fs w) (join path [kind_dir kind]) = false →
(generate env path kind (Some name) template w).1 = Ok tt →
let w' := (generate env path kind (Some name) template w).2 in
∃ d, resolve (cwd env) path = Some d ∧
     w_fs w' = <[d ++ [kind_dir kind] := Dir]> (w_fs w) ∧
     children (w_fs w') (d ++ [kind_dir kind]) = [].
Proof.
intros Hkind Hwf Hpath Hfresh.
destruct (dir_kinds_valid kind Hkind) as (Hfl & Hv & Hview).
unfold generate. rewrite (bool_decide_true _ Hfl). cbn [negb].
rewrite (bool_decide_false _ Hv).
destruct (find_template_dir env (lookup_name template) "" false w)
  as [[[t|]|e] w1] eqn:Hfind.
2:{ unfold generate_function.
    pose proof (generate_function_lookup env template w) as Hl.
    rewrite Hfind in Hl. by rewrite (bind_ok _ _ _ _ _ Hl). }
2:{ by apply find_template_dir_no_raise in Hfind. }
rewrite (generate_function_found env path kind name template w t w1 Hv Hfind).
rewrite (bool_decide_false _ Hview). cbn [andb]. cbv zeta. intros _.
cbn [snd w_fs].
apply find_template_dir_found in Hfind as (Hfs & _ & _).
apply dir_at_inv in Hpath as (d & Hd & Hdir).
exists d. split; [done|].
pose proof (dir_kinds_plain kind Hkind) as Hplain.
pose proof (resolve_join _ _ _ _ Hd Hplain) as Htarget.
assert ((if bool_decide (kind = "function") then path
         else if bool_decide (kind = "spatial") then join path ["spatial"]
         else join path [kind +:+ "s"]) = join path [kind_dir kind]) as ->.
  by (by apply dir_kinds_target).
unfold exists_at, lookup_path in Hfresh. rewrite Htarget in Hfresh.
assert (w_fs w1 !! (d ++ [kind_dir kind]) = None) as Hnone.
{ rewrite Hfs. by destruct (w_fs w !! (d ++ [kind_dir kind])). }
assert (try_makedirs env (join path [kind_dir kind]) w1 =
        (Ok tt, World (<[d ++ [kind_dir kind] := Dir]> (w_fs w1)) (w_log w1)))
  as Hmk.
{ unfold try_makedirs, try_except.
  rewrite (os_makedirs_leaf env _ (d ++ [kind_dir kind]) w1 Htarget).
  - by rewrite Hnone.
  - rewrite removelast_last. apply wf_dirs_to; by rewrite Hfs. }
rewrite Hmk. cbn [snd w_fs]. rewrite Hfs. split; [done|].
apply children_nil.
- apply wf_insert_dir; [done|by eapply resolve_plain|].
  right. rewrite removelast_last. unfold is_dir. by rewrite Hdir.
- intros c. rewrite lookup_insert_ne.
  + apply wf_no_orphan; [done|]. by rewrite <- Hfs.
  + intros Heq. apply (f_equal length) in Heq. rewrite !length_app in Heq.
    cbn in Heq. lia.
Qed.

End Invariants.

(** ** Instances of the further properties on the sample installation *)

Lemma sample_cwd_plain :
Forall (λ c, Fs.plain c = true) (cwd Sample.posix_env).
Proof. by repeat constructor. Qed.

Lemma document_nop_keeps_wf p c : keeps_wf (Sample.document_nop p c).
Proof. by intros w. Qed.

Lemma find_template_dir_not_found_witness :
"vendor" ∈ "" :: TEMPLATE_TYPES ∧
no_template Sample.posix_env (w_fs Sample.w_no_vendor) "default" "vendor" ∧
find_template_dir Sample.posix_env "default" "vendor" true Sample.w_no_vendor =
  (Raise (AppError ("template " +:+ Str.dq +:+ norm_name "default" +:+ "/"
                    +:+ "vendor" +:+ Str.dq +:+ " not found.")),
   add_log (probed Sample.posix_env "default" "vendor" Sample.w_no_vendor)
     (INFO, "please use " +:+ Str.dq +:+ "-d" +:+ Str.dq
            +:+ " to checkout search paths.")).
Proof.
assert ("vendor" ∈ "" :: TEMPLATE_TYPES) as Hty.
{ apply (bool_decide_unpack _). vm_compute. exact I. }
assert (no_template Sample.posix_env (w_fs Sample.w_no_vendor) "default" "vendor")
  as Hno.
{ apply (bool_decide_unpack _). vm_compute. exact I. }
split; [exact Hty|]. split; [exact Hno|].
exact (find_template_dir_not_found Sample.posix_env "default" "vendor" true
         Sample.w_no_vendor Hty Hno).
Defined.

Lemma find_template_dir_failures_witness :
"views" ≠ "" ∧ ("views" ∉ TEMPLATE_TYPES) ∧
find_template_dir Sample.posix_env "default" "views" false Sample.w0 =
  (Raise (AppError ("invalid template type " +:+ Str.dq +:+ "views" +:+ Str.dq)),
   Sample.w0).
Proof.
assert ("views" ≠ "") as Hne by discriminate.
assert ("views" ∉ TEMPLATE_TYPES) as Hty.
{ apply (bool_decide_unpack _). vm_compute. exact I. }
split; [exact Hne|]. split; [exact Hty|].
exact (proj1 (find_template_dir_failures Sample.posix_env "default" "views"
                false Sample.w0) Hne Hty).
Defined.

Lemma generate_function_no_templates_witness :
no_template Sample.posix_env (w_fs Sample.w_bare) (lookup_name None) "" ∧
generate_function Sample.posix_env "/home/u/app" "view" "byDate" None
  Sample.w_bare =
  (Raise (AppError "Defaults templates not found. Check your install."),
   probed Sample.posix_env (lookup_name None) "" Sample.w_bare).
Proof.
assert (no_template Sample.posix_env (w_fs Sample.w_bare) (lookup_name None) "")
  as Hno.
{ apply (bool_decide_unpack _). vm_compute. exact I. }
split; [exact Hno|].
exact (generate_function_no_templates Sample.posix_env "/home/u/app" "view"
         "byDate" None Sample.w_bare Hno).
Defined.

Lemma generate_function_view_exists_witness :
(find_template_dir Sample.posix_env (lookup_name None) "" false
   Sample.w_with_view).1 = Ok (Some "/usr/share/couchapp/templates/") ∧
exists_at Sample.posix_env (w_fs Sample.w_with_view)
  (PosixPath.join "/home/u/app" ["views"; "byDate"]) = true ∧
generate_function Sample.posix_env "/home/u/app" "view" "byDate" None
  Sample.w_with_view =
  (Raise (AppError ("The view " +:+ "byDate" +:+ " already exists")),
   (find_template_dir Sample.posix_env (lookup_name None) "" false
      Sample.w_with_view).2).
Proof.
assert ((find_template_dir Sample.posix_env (lookup_name None) "" false
           Sample.w_with_view).1 = Ok (Some "/usr/share/couchapp/templates/"))
  as Hfind.
{ vm_compute. reflexivity. }
assert (exists_at Sample.posix_env (w_fs Sample.w_with_view)
          (PosixPath.join "/home/u/app" ["views"; "byDate"]) = true) as Hex.
{ vm_compute. reflexivity. }
split; [exact Hfind|]. split; [exact Hex|].
exact (proj1 (generate_function_view_exists Sample.posix_env "/home/u/app"
                "byDate" None Sample.w_with_view _ Hfind) Hex).
Defined.

Lemma generate_function_warns_witness :
"list" ≠ "vendor" ∧
(generate_function Sample.posix_env "/home/u/app" "list" "all" None
   Sample.w0).1 = Ok tt ∧
∃ d, (find_template_dir Sample.posix_env (lookup_name None) "" false
        Sample.w0).1 = Ok (Some d) ∧
     warnings (generate_function Sample.posix_env "/home/u/app" "list" "all"
                 None Sample.w0).2 =
       warnings Sample.w0 ++
       map (λ t, t +:+ " not found in " +:+
                 PosixPath.join d (if truthy_value None then [] else ["functions"]))
           (skeletons "list" "all").
Proof.
assert ("list" ≠ "vendor") as Hk by discriminate.
assert ((generate_function Sample.posix_env "/home/u/app" "list" "all" None
           Sample.w0).1 = Ok tt) as Hok.
{ vm_compute. reflexivity. }
split; [exact Hk|]. split; [exact Hok|].
exact (generate_function_warns Sample.posix_env "/home/u/app" "list" "all" None
         Sample.w0 Hk Hok).
Defined.

Lemma generate_function_vendor_no_template_witness :
(find_template_dir Sample.posix_env "default" "" false Sample.w0).1 =
  Ok (Some "/usr/share/couchapp/templates/") ∧
generate_function Sample.posix_env "/home/u/app" "vendor" "jquery" None
  Sample.w0 =
  (Raise (AttributeError "'NoneType' object has no attribute 'split'"),
   (try_makedirs Sample.posix_env
      (PosixPath.join "/home/u/app" ["vendor"; "jquery"])
      (find_template_dir Sample.posix_env "default" "" false Sample.w0).2).2).
Proof.
assert ((find_template_dir Sample.posix_env "default" "" false Sample.w0).1 =
          Ok (Some "/usr/share/couchapp/templates/")) as Hfind.
{ vm_compute. reflexivity. }
split; [exact Hfind|].
exact (generate_function_vendor_no_template Sample.posix_env "/home/u/app"
         "jquery" Sample.w0 _ Hfind).
Defined.

Lemma save_id_read_back_witness :
(save_id Sample.posix_env "/home/u/app" "_design/other" Sample.w_with_app).1
  = Ok tt ∧
let w' := (save_id Sample.posix_env "/home/u/app" "_design/other"
             Sample.w_with_app).2 in
∃ k m, Fs.resolve (cwd Sample.posix_env) (PosixPath.join "/home/u/app" ["_id"])
         = Some k ∧
       st_mtime m = now Sample.posix_env ∧
       w' = World (<[k := File "_design/other" m]> (w_fs Sample.w_with_app))
                  (w_log Sample.w_with_app) ∧
       (w_fs Sample.w_with_app !! k = None →
        may_read Sample.posix_env m = true) ∧
       (∀ d m0, w_fs Sample.w_with_app !! k = Some (File d m0) →
                st_mode m = st_mode m0) ∧
       read_file Sample.posix_env (PosixPath.join "/home/u/app" ["_id"]) w' =
         if may_read Sample.posix_env m then (Ok ("_design/other", m), w')
         else (Raise (IOError (Some EACCES)
                        (PosixPath.join "/home/u/app" ["_id"])), w').
Proof.
assert ((save_id Sample.posix_env "/home/u/app" "_design/other"
           Sample.w_with_app).1 = Ok tt) as Hok.
{ vm_compute. reflexivity. }
split; [exact Hok|].
exact (save_id_read_back Sample.posix_env "/home/u/app" "_design/other"
         Sample.w_with_app Hok).
Defined.

Lemma save_id_outcome_witness :
Fs.wf (w_fs Sample.w_with_app) ∧ "/home/u/app" ≠ "" ∧
let r := save_id Sample.posix_env "/home/u/app" "_design/other"
           Sample.w_with_app in
let id := PosixPath.join "/home/u/app" ["_id"] in
(r.1 = Ok tt ↔
 dir_at Sample.posix_env (w_fs Sample.w_with_app) "/home/u/app" = true ∧
 dir_at Sample.posix_env (w_fs Sample.w_with_app) id = false ∧
 denied_at Sample.posix_env (w_fs Sample.w_with_app) id = false) ∧
(r.1 ≠ Ok tt →
 r.2 = Sample.w_with_app ∧ ∃ n, r.1 = Raise (IOError (Some n) id)) ∧
(denied_at Sample.posix_env (w_fs Sample.w_with_app) id = true →
 r = (Raise (IOError (Some EACCES) id), Sample.w_with_app)).
Proof.
assert (Fs.wf (w_fs Sample.w_with_app)) as Hwf.
{ apply wfb_wf. vm_compute. reflexivity. }
assert ("/home/u/app" ≠ "") as Hne by discriminate.
split; [exact Hwf|]. split; [exact Hne|].
exact (save_id_outcome Sample.posix_env "/home/u/app" "_design/other"
         Sample.w_with_app Hwf Hne).
Defined.

(** [save_id] on an app whose [_id] has no write bit: [open] refuses, and
nothing changes. *)
Example save_id_read_only :
save_id Sample.posix_env "/home/u/app" "_design/other" Sample.w_locked_id =
  (Raise (IOError (Some EACCES) "/home/u/app/_id"), Sample.w_locked_id).
Proof. by vm_compute. Qed.

(** [save_id] on an app whose [_id] has the write bit only: the name is
written, the mode is kept, and reading the file back is refused. *)
Example save_id_write_only :
let r := save_id Sample.posix_env "/home/u/drop" "_design/other"
           Sample.w_locked_id in
r.1 = Ok tt ∧
w_fs r.2 !! ["home"; "u"; "drop"; "_id"] =
  Some (File "_design/other" (Meta 128 100)) ∧
read_file Sample.posix_env "/home/u/drop/_id" r.2 =
  (Raise (IOError (Some EACCES) "/home/u/drop/_id"), r.2).
Proof. by vm_compute. Qed.

(** The same calls made by root go through. *)
Example save_id_as_root :
let root_env := {|
  os_name := "posix"; sys_platform := "linux2";
  sys_executable := "/usr/bin/python"; sys_prefix := "/usr";
  module_file := "/usr/lib/python2.7/site-packages/couchapp/generator.py";
  is_py2exe := false; is_windows := false;
  user_path := ["/root/.couchapp"];
  darwin_support := "/root/Library/Application Support/Couchapp";
  cwd := ["home"; "u"]; now := 100; is_root := true |} in
let r := save_id root_env "/home/u/app" "_design/other" Sample.w_locked_id in
r.1 = Ok tt ∧
w_fs r.2 !! ["home"; "u"; "app"; "_id"] =
  Some (File "_design/other" (Meta 292 100)).
Proof. by vm_compute. Qed.

Lemma copy_helper_frame_witness :
Fs.wf (w_fs Sample.w_with_copy) ∧
let r := copy_helper Sample.posix_env
           (Some "/usr/share/couchapp/templates/functions") "/home/u/fn"
           Sample.w_with_copy in
let src := "/usr/share/couchapp/templates/functions" in
dirs_kept (w_fs Sample.w_with_copy) (w_fs r.2) ∧
(∀ k, w_fs r.2 !! k ≠ w_fs Sample.w_with_copy !! k →
   ∃ kd, Fs.resolve (cwd Sample.posix_env) "/home/u/fn" = Some kd ∧
         (k `prefix_of` kd ∨ kd `prefix_of` k)) ∧
(∀ ks kd, Fs.resolve (cwd Sample.posix_env) src = Some ks →
   Fs.resolve (cwd Sample.posix_env) "/home/u/fn" = Some kd →
   ¬ ks `prefix_of` kd → ¬ kd `prefix_of` ks →
   ∀ rel, w_fs r.2 !! (ks ++ rel) = w_fs Sample.w_with_copy !! (ks ++ rel)) ∧
(dir_at Sample.posix_env (w_fs Sample.w_with_copy) src = false →
 r = (Raise (OSError None ("source " +:+ Str.dq +:+ src +:+ Str.dq
                           +:+ " is not a directory")), Sample.w_with_copy)) ∧
(r.1 = Ok tt →
 ∃ kd, Fs.resolve (cwd Sample.posix_env) "/home/u/fn" = Some kd ∧
       Fs.is_dir (w_fs r.2) kd = true).
Proof.
assert (Fs.wf (w_fs Sample.w_with_copy)) as Hwf.
{ apply wfb_wf. vm_compute. reflexivity. }
split; [exact Hwf|].
exact (copy_helper_frame Sample.posix_env
         "/usr/share/couchapp/templates/functions" "/home/u/fn"
         Sample.w_with_copy Hwf).
Defined.

Lemma init_template_fails_early_witness :
"app" ∈ TEMPLATE_TYPES ∧
init_template Sample.posix_env Sample.document_nop "/home/u/app" "app"
  Sample.w0 =
  (Raise (AppError "template name connot be ('app', 'functions', 'vendor')."),
   Sample.w0) ∧
("mytmpl" ∉ TEMPLATE_TYPES) ∧
no_template Sample.posix_env (w_fs Sample.w0)
  (if Str.truthy "mytmpl" then PosixPath.normpath "mytmpl" else "") "app" ∧
(init_template Sample.posix_env Sample.document_nop "/home/u/app" "mytmpl"
   Sample.w0).1 =
  Raise (AppError ("template " +:+ Str.dq
                   +:+ norm_name (if Str.truthy "mytmpl"
                                  then PosixPath.normpath "mytmpl" else "")
                   +:+ "/" +:+ "app" +:+ Str.dq +:+ " not found.")) ∧
w_fs (init_template Sample.posix_env Sample.document_nop "/home/u/app" "mytmpl"
        Sample.w0).2 = w_fs Sample.w0.
Proof.
assert ("app" ∈ TEMPLATE_TYPES) as Hin by left.
assert ("mytmpl" ∉ TEMPLATE_TYPES) as Hout.
{ apply (bool_decide_unpack _). vm_compute. exact I. }
assert (no_template Sample.posix_env (w_fs Sample.w0)
          (if Str.truthy "mytmpl" then PosixPath.normpath "mytmpl" else "") "app")
  as Hno.
{ apply (bool_decide_unpack _). vm_compute. exact I. }
split; [exact Hin|]. split.
{ exact (proj1 (init_template_fails_early Sample.posix_env Sample.document_nop
                  "/home/u/app" "app" Sample.w0) Hin). }
split; [exact Hout|]. split; [exact Hno|].
exact (proj2 (init_template_fails_early Sample.posix_env Sample.document_nop
                "/home/u/app" "mytmpl" Sample.w0) Hout Hno).
Defined.

Lemma init_template_tree_witness :
Forall (λ c, Fs.plain c = true) (cwd Sample.posix_env) ∧
Fs.wf (w_fs Sample.w0) ∧
(init_template Sample.posix_env Sample.document_nop "/home/u/app" "default"
   Sample.w0).1 = Ok tt ∧
∃ d w1,
  Fs.resolve (cwd Sample.posix_env) "/home/u/app" = Some d ∧
  (∀ n, n ∈ "vendor" :: DEFAULT_APP_TREE → w_fs w1 !! (d ++ [n]) = Some Dir) ∧
  (∃ m, w_fs w1 !! (d ++ ["_id"]) =
          Some (File ("_design/" +:+ (PosixPath.split "/home/u/app").2) m)) ∧
  Sample.document_nop "/home/u/app" true w1 =
    (Ok tt, (init_template Sample.posix_env Sample.document_nop "/home/u/app"
               "default" Sample.w0).2).
Proof.
assert (Fs.wf (w_fs Sample.w0)) as Hwf.
{ apply wfb_wf. vm_compute. reflexivity. }
assert ((init_template Sample.posix_env Sample.document_nop "/home/u/app"
           "default" Sample.w0).1 = Ok tt) as Hok.
{ vm_compute. reflexivity. }
split; [exact sample_cwd_plain|]. split; [exact Hwf|]. split; [exact Hok|].
exact (init_template_tree Sample.posix_env sample_cwd_plain Sample.document_nop
         "/home/u/app" "default" Sample.w0 Hwf Hok).
Defined.

Lemma module_keeps_wf_witness :
Forall (λ c, Fs.plain c = true) (cwd Sample.posix_env) ∧
(∀ p c, keeps_wf (Sample.document_nop p c)) ∧
(∀ path, keeps_wf (init_basic Sample.posix_env Sample.document_nop path)) ∧
(∀ path template,
   keeps_wf (init_template Sample.posix_env Sample.document_nop path template)) ∧
(∀ path kind name template,
   keeps_wf (generate_function Sample.posix_env path kind name template)) ∧
(∀ path kind name template,
   keeps_wf (generate Sample.posix_env path kind name template)) ∧
(∀ src dest, keeps_wf (copy_helper Sample.posix_env src dest)) ∧
(∀ tmpl_name tmpl_type raise_error,
   keeps_wf (find_template_dir Sample.posix_env tmpl_name tmpl_type raise_error)) ∧
(∀ path name, keeps_wf (save_id Sample.posix_env path name)).
Proof.
split; [exact sample_cwd_plain|]. split; [exact document_nop_keeps_wf|].
exact (module_keeps_wf Sample.posix_env sample_cwd_plain Sample.document_nop
         document_nop_keeps_wf).
Defined.

Lemma copy_helper_copies_subtrees_witness :
Forall (λ c, Fs.plain c = true) (cwd Sample.posix_env) ∧
Fs.wf (w_fs Sample.w0) ∧
(copy_helper Sample.posix_env (Some "/usr/share/couchapp/templates/app")
   "/home/u/app" Sample.w0).1 = Ok tt ∧
let w' := (copy_helper Sample.posix_env
             (Some "/usr/share/couchapp/templates/app") "/home/u/app"
             Sample.w0).2 in
∃ ks kd,
  Fs.resolve (cwd Sample.posix_env) "/usr/share/couchapp/templates/app"
    = Some ks ∧
  Fs.resolve (cwd Sample.posix_env) "/home/u/app" = Some kd ∧
  (apart ks kd →
   ∀ p, Fs.is_dir (w_fs Sample.w0) (ks ++ [p]) = true →
        same_tree (w_fs Sample.w0) (w_fs w') (ks ++ [p]) (kd ++ [p])).
Proof.
assert (Fs.wf (w_fs Sample.w0)) as Hwf.
{ apply wfb_wf. vm_compute. reflexivity. }
assert ((copy_helper Sample.posix_env (Some "/usr/share/couchapp/templates/app")
           "/home/u/app" Sample.w0).1 = Ok tt) as Hok.
{ vm_compute. reflexivity. }
split; [exact sample_cwd_plain|]. split; [exact Hwf|]. split; [exact Hok|].
exact (copy_helper_copies_subtrees Sample.posix_env sample_cwd_plain
         "/usr/share/couchapp/templates/app" "/home/u/app" Sample.w0 Hwf Hok).
Defined.

Lemma copy_helper_fresh_copy_witness :
Forall (λ c, Fs.plain c = true) (cwd Sample.posix_env) ∧
Fs.wf (w_fs Sample.w0) ∧
exists_at Sample.posix_env (w_fs Sample.w0) "/home/u/app" = false ∧
(copy_helper Sample.posix_env (Some "/usr/share/couchapp/templates/app")
   "/home/u/app" Sample.w0).1 = Ok tt ∧
let w' := (copy_helper Sample.posix_env
             (Some "/usr/share/couchapp/templates/app") "/home/u/app"
             Sample.w0).2 in
∃ ks kd,
  Fs.resolve (cwd Sample.posix_env) "/usr/share/couchapp/templates/app"
    = Some ks ∧
  Fs.resolve (cwd Sample.posix_env) "/home/u/app" = Some kd ∧
  (apart ks kd → same_tree (w_fs Sample.w0) (w_fs w') ks kd).
Proof.
assert (Fs.wf (w_fs Sample.w0)) as Hwf.
{ apply wfb_wf. vm_compute. reflexivity. }
assert (exists_at Sample.posix_env (w_fs Sample.w0) "/home/u/app" = false)
  as Hfresh.
{ vm_compute. reflexivity. }
assert ((copy_helper Sample.posix_env (Some "/usr/share/couchapp/templates/app")
           "/home/u/app" Sample.w0).1 = Ok tt) as Hok.
{ vm_compute. reflexivity. }
split; [exact sample_cwd_plain|]. split; [exact Hwf|].
split; [exact Hfresh|]. split; [exact Hok|].
exact (copy_helper_fresh_copy Sample.posix_env sample_cwd_plain
         "/usr/share/couchapp/templates/app" "/home/u/app" Sample.w0 Hwf Hfresh
         Hok).
Defined.

Lemma generate_creates_kind_dir_witness :
Forall (λ c, Fs.plain c = true) (cwd Sample.posix_env) ∧
"list" ∈ dir_kinds ∧ Fs.wf (w_fs Sample.w_with_app) ∧
dir_at Sample.posix_env (w_fs Sample.w_with_app) "/home/u/app" = true ∧
exists_at Sample.posix_env (w_fs Sample.w_with_app)
  (PosixPath.join "/home/u/app" [kind_dir "list"]) = false ∧
(generate Sample.posix_env "/home/u/app" "list" (Some "all") None
   Sample.w_with_app).1 = Ok tt ∧
let w' := (generate Sample.posix_env "/home/u/app" "list" (Some "all") None
             Sample.w_with_app).2 in
∃ d, Fs.resolve (cwd Sample.posix_env) "/home/u/app" = Some d ∧
     w_fs w' = <[d ++ [kind_dir "list"] := Dir]> (w_fs Sample.w_with_app) ∧
     Fs.children (w_fs w') (d ++ [kind_dir "list"]) = [].
Proof.
assert ("list" ∈ dir_kinds) as Hkind by left.
assert (Fs.wf (w_fs Sample.w_with_app)) as Hwf.
{ apply wfb_wf. vm_compute. reflexivity. }
assert (dir_at Sample.posix_env (w_fs Sample.w_with_app) "/home/u/app" = true)
  as Hdir.
{ vm_compute. reflexivity. }
assert (exists_at Sample.posix_env (w_fs Sample.w_with_app)
          (PosixPath.join "/home/u/app" [kind_dir "list"]) = false) as Hfresh.
{ vm_compute. reflexivity. }
assert ((generate Sample.posix_env "/home/u/app" "list" (Some "all") None
           Sample.w_with_app).1 = Ok tt) as Hok.
{ vm_compute. reflexivity. }
split; [exact sample_cwd_plain|]. split; [exact Hkind|]. split; [exact Hwf|].
split; [exact Hdir|]. split; [exact Hfresh|]. split; [exact Hok|].
exact (generate_creates_kind_dir Sample.posix_env sample_cwd_plain "/home/u/app"
         "list" "all" None Sample.w_with_app Hkind Hwf Hdir Hfresh Hok).
Defined.
